(** * EIP-7702 delegation tracker: a shallow embedding of the scanning core

    The development follows the JavaScript sources:
    - the module that the scanners require as [eip7702] (authority recovery),
    - [lib/scanner.js]        (per-network scanner),
    - [lib/multi-scanner.js]  (multi-network orchestrator),
    and, beside them, the two other copies of the scanner that the
    repository holds.

    JavaScript values are modelled by the small universe [JsVal]; code that can
    throw returns a [Res]; code that emits events, logs or calls a collaborator
    runs in the writer monad [M], whose [trace] lists the effects in the order
    the program performs them. A promise stands for the value or the error it
    settles with, and the requests of one [Promise.all] are taken in the order
    of the array; the scans of one batch of [scanBlocks] emit events as they
    complete, and the order of these is a parameter. The libraries'
    Keccak-256 and signature recovery, the chain provider, the clock and the
    remote hosts are parameters. The listeners of the emitted events belong
    to the consumers: an [emit] is the delivery of the event to listeners
    that return normally, one for ['error'] among them, except in
    [Listening], where what the listeners do is a parameter as well. *)

From Stdlib Require Import ZArith Lia Bool.
From Stdlib.Strings Require Import Ascii String Byte.
From stdpp Require Import base option list strings pretty gmap sorting.

Local Open Scope string_scope.
Local Open Scope Z_scope.

(** ** JavaScript values *)

Module Js.

(** The values that a field of an RPC object holds in this program: absent,
    [null], a number (the integers and [NaN]), a bigint, or a string. *)
Inductive JsVal : Type :=
| JUndefined
| JNull
| JNaN
| JNum (n : Z)
| JBig (n : Z)
| JStr (s : string).

#[global] Instance JsVal_eq_dec : EqDecision JsVal.
Proof. solve_decision. Defined.

(** ToBoolean. *)
Definition truthy (v : JsVal) : bool :=
  match v with
  | JUndefined | JNull | JNaN => false
  | JNum n | JBig n => negb (n =? 0)
  | JStr s => negb (String.eqb s "")
  end.

(** [a || b]. *)
Definition orElse (a b : JsVal) : JsVal := if truthy a then a else b.

(** [a === b]: no conversion, and [NaN] differs from itself. *)
Definition strictEq (a b : JsVal) : bool :=
  match a, b with
  | JUndefined, JUndefined | JNull, JNull => true
  | JNum x, JNum y | JBig x, JBig y => x =? y
  | JStr x, JStr y => String.eqb x y
  | _, _ => false
  end.

(** [v !== undefined && v !== null]. *)
Definition present (v : JsVal) : bool :=
  match v with
  | JUndefined | JNull => false
  | _ => true
  end.

(** Results of code that may throw; the payload of [Throw] is the message of
    the error. *)
Inductive Res (A : Type) : Type :=
| Ret (a : A)
| Throw (e : string).
Arguments Ret {A} a.
Arguments Throw {A} e.

#[global] Instance Res_ret : MRet Res := @Ret.
#[global] Instance Res_bind : MBind Res := fun A B f m =>
  match m with
  | Ret a => f a
  | Throw e => Throw e
  end.

(** *** Characters and digits *)

Definition code (c : ascii) : Z := Z.of_N (Ascii.N_of_ascii c).

Definition digitVal (c : ascii) : option Z :=
  let n := code c in
  if (48 <=? n) && (n <=? 57) then Some (n - 48)
  else if (97 <=? n) && (n <=? 122) then Some (n - 87)
  else if (65 <=? n) && (n <=? 90) then Some (n - 55)
  else None.

Definition digitIn (radix : Z) (c : ascii) : option Z :=
  match digitVal c with
  | Some d => if d <? radix then Some d else None
  | None => None
  end.

(** White space of the ASCII range: TAB, LF, VT, FF, CR and SPACE. *)
Definition isSpace (c : ascii) : bool :=
  let n := code c in ((9 <=? n) && (n <=? 13)) || (n =? 32).

Fixpoint trimStart (s : string) : string :=
  match s with
  | String c s' => if isSpace c then trimStart s' else s
  | EmptyString => EmptyString
  end.

Definition trim (s : string) : string :=
  String.rev (trimStart (String.rev (trimStart s))).

(** All of [s] read as digits of [radix], most significant first. *)
Fixpoint allDigits (radix : Z) (acc : Z) (s : string) : option Z :=
  match s with
  | EmptyString => Some acc
  | String c s' =>
      match digitIn radix c with
      | Some d => allDigits radix (acc * radix + d) s'
      | None => None
      end
  end.

Definition digitString (radix : Z) (s : string) : option Z :=
  match s with
  | EmptyString => None
  | _ => allDigits radix 0 s
  end.

(** The longest prefix of [s] made of digits of [radix]: its value and the
    number of digits read. *)
Fixpoint leadingDigits (radix : Z) (acc : Z) (read : nat) (s : string) : Z * nat :=
  match s with
  | EmptyString => (acc, read)
  | String c s' =>
      match digitIn radix c with
      | Some d => leadingDigits radix (acc * radix + d) (S read) s'
      | None => (acc, read)
      end
  end.

(** [String.prototype.toLowerCase] on the ASCII range. *)
Definition lowerChar (c : ascii) : ascii :=
  let n := code c in
  if (65 <=? n) && (n <=? 90) then Ascii.ascii_of_N (Z.to_N (n + 32)) else c.

Fixpoint toLowerCase (s : string) : string :=
  match s with
  | EmptyString => EmptyString
  | String c s' => String (lowerChar c) (toLowerCase s')
  end.

(** [Number.prototype.toString] and [BigInt.prototype.toString] on integers. *)
Definition decimal (n : Z) : string := pretty n.

(** [String(v)]. *)
Definition toString (v : JsVal) : string :=
  match v with
  | JUndefined => "undefined"
  | JNull => "null"
  | JNaN => "NaN"
  | JNum n | JBig n => decimal n
  | JStr s => s
  end.

(** [v?.toString()]. *)
Definition optToString (v : JsVal) : option string :=
  if present v then Some (toString v) else None.

(** StringToBigInt: surrounding white space is dropped; the empty string is
    zero; [0x], [0o] and [0b] introduce an unsigned literal of that radix;
    anything else is a decimal literal with an optional sign. *)
Definition stringToBigInt (s : string) : option Z :=
  match trim s with
  | EmptyString => Some 0
  | String "0" (String "x" d) | String "0" (String "X" d) => digitString 16 d
  | String "0" (String "o" d) | String "0" (String "O" d) => digitString 8 d
  | String "0" (String "b" d) | String "0" (String "B" d) => digitString 2 d
  | String "-" d => Z.opp <$> digitString 10 d
  | String "+" d => digitString 10 d
  | d => digitString 10 d
  end.

(** [BigInt(v)]. *)
Definition BigInt (v : JsVal) : Res Z :=
  match v with
  | JUndefined => Throw "Cannot convert undefined to a BigInt"
  | JNull => Throw "Cannot convert null to a BigInt"
  | JNaN => Throw "The number NaN cannot be converted to a BigInt"
  | JNum n | JBig n => Ret n
  | JStr s =>
      match stringToBigInt s with
      | Some n => Ret n
      | None => Throw "Cannot convert string to a BigInt"
      end
  end.

(** [parseInt(v, 16)]: leading white space, an optional sign, an optional
    [0x], then the longest run of hexadecimal digits; [NaN] without a digit. *)
Definition parseHexPrefix (s : string) : JsVal :=
  let body :=
    match s with
    | String "0" (String "x" d) | String "0" (String "X" d) => d
    | d => d
    end in
  match leadingDigits 16 0 0%nat body with
  | (_, O) => JNaN
  | (n, _) => JNum n
  end.

Definition negate (v : JsVal) : JsVal :=
  match v with
  | JNum n => JNum (- n)
  | _ => v
  end.

Definition parseInt16 (v : JsVal) : JsVal :=
  match trimStart (toString v) with
  | String "-" d => negate (parseHexPrefix d)
  | String "+" d => parseHexPrefix d
  | d => parseHexPrefix d
  end.

End Js.
Export Js.

(** ** Bytes, hexadecimal data and RLP *)

Module Bytes.

Definition byteOfZ (z : Z) : byte :=
  default Byte.x00 (Byte.of_N (Z.to_N (z mod 256))).

Definition byteToZ (b : byte) : Z := Z.of_N (Byte.to_N b).

(** The bytes of a positive integer, most significant first, without a
    leading zero byte; no byte at all for zero. It is the loop
    [while (value) { result.unshift(value & 0xff); value >>= 8 }]. *)
Fixpoint unshiftBytes (fuel : nat) (value : Z) (result : list byte) : list byte :=
  match fuel with
  | O => result
  | S fuel' =>
      if value <=? 0 then result
      else unshiftBytes fuel' (Z.shiftr value 8) (byteOfZ (Z.land value 255) :: result)
  end.

Definition arrayifyInteger (value : Z) : list byte :=
  unshiftBytes (S (Z.to_nat (Z.log2 value))) value [].

(** The value of a byte string read as a big-endian number. *)
Definition beValue (bs : list byte) : Z :=
  fold_left (fun acc b => acc * 256 + byteToZ b) bs 0.

(** [ethers.toBeHex(value)]: refuses a negative value; the hexadecimal form is
    padded to an even number of digits, so zero gives the one byte 0x00. *)
Definition toBeHex (value : Z) : Res (list byte) :=
  if value <? 0 then Throw "unsigned value cannot be negative"
  else if value =? 0 then Ret [Byte.x00]
  else Ret (arrayifyInteger value).

(** Pairs of hexadecimal digits to bytes. *)
Fixpoint hexPairs (s : string) : option (list byte) :=
  match s with
  | EmptyString => Some []
  | String hi (String lo s') =>
      match digitIn 16 hi, digitIn 16 lo, hexPairs s' with
      | Some h, Some l, Some bs => Some (byteOfZ (h * 16 + l) :: bs)
      | _, _, _ => None
      end
  | String _ EmptyString => None
  end.

(** [arrayify] of a value that passes [isBytesLike]: a string [0x...] with an
    even number of hexadecimal digits. *)
Definition arrayify (v : JsVal) : Res (list byte) :=
  match v with
  | JStr (String "0" (String "x" d)) =>
      match hexPairs d with
      | Some bs => Ret bs
      | None => Throw "RLP object must be BytesLike"
      end
  | _ => Throw "RLP object must be BytesLike"
  end.

(** [_encode] of [@ethersproject/rlp] on a byte string: one byte up to 0x7f
    stands for itself; up to 55 bytes follow the prefix [0x80 + length];
    longer data follows [0xb7 + n] and the [n] bytes of the length. *)
Definition isSingleLowByte (data : list byte) : bool :=
  match data with
  | [b] => byteToZ b <=? 127
  | _ => false
  end.

Definition encodeBytes (data : list byte) : list byte :=
  let len := Z.of_nat (List.length data) in
  if isSingleLowByte data then data
  else if len <=? 55 then byteOfZ (128 + len) :: data
  else
    let l := arrayifyInteger len in
    byteOfZ (183 + Z.of_nat (List.length l)) :: l ++ data.

(** [_encode] on an array whose children are byte strings. *)
Definition encodeArray (children : list (list byte)) : list byte :=
  let payload := concat (map encodeBytes children) in
  let len := Z.of_nat (List.length payload) in
  if len <=? 55 then byteOfZ (192 + len) :: payload
  else
    let l := arrayifyInteger len in
    byteOfZ (247 + Z.of_nat (List.length l)) :: l ++ payload.

End Bytes.
Export Bytes.

(** ** Effects *)

Module Effects.

(** A computation that may throw and that performs effects of type [E]; the
    effects performed before a [Throw] stay in the trace. *)
Record M (E A : Type) : Type := mkM { result : Res A; trace : list E }.
Arguments mkM {E A} result trace.
Arguments result {E A} m.
Arguments trace {E A} m.

Section Monad.
Context {E : Type}.

Definition liftRes {A} (r : Res A) : M E A := mkM r [].

Definition tell (e : E) : M E unit := mkM (Ret tt) [e].

Definition throw {A} (e : string) : M E A := mkM (Throw e) [].

Definition bindM {A B} (f : A -> M E B) (m : M E A) : M E B :=
  match result m with
  | Ret a => mkM (result (f a)) (trace m ++ trace (f a))
  | Throw e => mkM (Throw e) (trace m)
  end.

(** [try { m } catch (e) { handler e }]. *)
Definition tryCatch {A} (m : M E A) (handler : string -> M E A) : M E A :=
  match result m with
  | Ret _ => m
  | Throw e => mkM (result (handler e)) (trace m ++ trace (handler e))
  end.

#[global] Instance M_ret : MRet (M E) := fun A a => mkM (Ret a) [].
#[global] Instance M_bind : MBind (M E) := @bindM.
End Monad.

End Effects.
Export Effects.

(** ** Authority recovery ([utils/eip7702.js]) *)

(** The signature material of an authorization when it arrives nested under
    [signature]. *)
Record Signature : Type := {
  sig_r : JsVal;
  sig_s : JsVal;
  sig_v : JsVal;
  sig_yParity : JsVal
}.

(** One entry of a transaction's [authorizationList]. [au_signature] is [None]
    when the entry has no [signature] field or one that is not an object. *)
Record Authorization : Type := {
  au_chainId : JsVal;
  au_address : JsVal;
  au_nonce : JsVal;
  au_r : JsVal;
  au_s : JsVal;
  au_v : JsVal;
  au_yParity : JsVal;
  au_signature : option Signature
}.

(** One call of [ethers.recoverAddress(messageHash, {r, s, v})]. *)
Record Attempt : Type := {
  at_digest : list byte;
  at_r : JsVal;
  at_s : JsVal;
  at_v : JsVal
}.

Module Recovery.
Section WithCrypto.
(** The two primitives of the [ethers] library the module relies on:
    Keccak-256, and public-key recovery followed by the derivation of the
    address ([None] when the library throws). *)
Variable keccak256 : list byte -> list byte.
Variable recoverAddress : list byte -> JsVal -> JsVal -> JsVal -> option string.

Definition ethersRecoverAddress (messageHash : list byte) (r s v : JsVal)
  : M Attempt string :=
  tell {| at_digest := messageHash; at_r := r; at_s := s; at_v := v |} ;;
  match recoverAddress messageHash r s v with
  | Some a => mret a
  | None => throw "invalid signature"
  end.

(** Line 40 (and again 110): the bytes of the nonce,
    [authNonce === 0 || authNonce === '0x0' ? '0x' : ethers.toBeHex(BigInt(authNonce))]. *)
Definition nonceHexOf (authNonce : JsVal) : Res (list byte) :=
  if strictEq authNonce (JNum 0) || strictEq authNonce (JStr "0x0")
  then Ret []
  else BigInt authNonce ≫= toBeHex.

(** Lines 34-50 (and again 104-120): the values resolved from the
    authorization, turned into byte strings, and RLP-encoded as a list. *)
Definition rlpEncodeAuthorization (authorization : Authorization) (chainId : JsVal)
  : Res (list byte) :=
  let authChainId := orElse (au_chainId authorization) chainId in
  let authAddress := orElse (au_address authorization) (JStr "0x") in
  let authNonce := orElse (au_nonce authorization) (JNum 0) in
  chainIdHex ← BigInt authChainId ≫= toBeHex;
  nonceHex ← nonceHexOf authNonce;
  addressBytes ← arrayify authAddress;
  Ret (encodeArray [chainIdHex; addressBytes; nonceHex]).

(** The body of the [try] block (lines 16-93). *)
Definition canonicalRecovery (authorization : Authorization) (chainId : JsVal)
  : M Attempt (option string) :=
  rlpEncoded ← liftRes (rlpEncodeAuthorization authorization chainId);
  let magic := [Byte.x05] in
  let messageHash := keccak256 (concat [magic; rlpEncoded]) in
  v ← liftRes
    (if present (au_v authorization) then Ret (Some (au_v authorization))
     else if present (au_yParity authorization) then
       yParity ← BigInt (au_yParity authorization);
       Ret (Some (JNum (if yParity =? 0 then 27 else 28)))
     else Ret None);
  match v with
  | None => mret None
  | Some v =>
      recoveredAddress ←
        ethersRecoverAddress messageHash (au_r authorization) (au_s authorization) v;
      mret (Some (toLowerCase recoveredAddress))
  end.

(** The [try] block nested in the [catch] (lines 103-145). *)
Definition alternativeRecovery (authorization : Authorization) (chainId : JsVal)
  : M Attempt (option string) :=
  rlpEncoded ← liftRes (rlpEncodeAuthorization authorization chainId);
  let messageHash := keccak256 rlpEncoded in
  v ← liftRes
    (if present (au_v authorization) then Ret (au_v authorization)
     else if present (au_yParity authorization) then
       yParity ← BigInt (au_yParity authorization);
       Ret (JNum (if yParity =? 0 then 27 else 28))
     else Ret (JNum 27));
  recovered ←
    ethersRecoverAddress messageHash
      (orElse (au_r authorization) (JStr "0x0"))
      (orElse (au_s authorization) (JStr "0x0")) v;
  mret (Some (toLowerCase recovered)).

(** [recoverAuthorityAddress(authorization, chainId)]: the address in lower
    case, or [None] for [null]. The debug output, printed only when the
    environment asks for it, is left out. *)
Definition recoverAuthorityAddress (authorization : Authorization) (chainId : JsVal)
  : M Attempt (option string) :=
  tryCatch (canonicalRecovery authorization chainId)
    (fun _ =>
       tryCatch (alternativeRecovery authorization chainId)
         (fun _ => mret None)).

End WithCrypto.
End Recovery.
Export Recovery.

(** ** The per-network scanner ([lib/scanner.js]) *)

(** A transaction as the provider returns it. *)
Record Tx : Type := {
  tx_hash : string;
  tx_from : JsVal;
  tx_type : JsVal;
  tx_typeHex : JsVal;
  tx_authorizationList : option (list Authorization)
}.

(** An element of [block.transactions]: a transaction hash, or a transaction
    object when the provider answers with full bodies. *)
Inductive BlockTx : Type :=
| TxHash (hash : string)
| TxBody (tx : Tx).

Record Block : Type := {
  bl_number : Z;
  bl_timestamp : Z;
  bl_transactions : option (list BlockTx)
}.

(** The record handed to consumers. [delegatedTo] and [nonce] are [None] when
    the authorization lacks the field ([undefined]). *)
Record DelegationRecord : Type := {
  txHash : string;
  blockNumber : Z;
  timestamp : string;
  txSender : string;
  chainId : JsVal;
  network : string;
  authority : string;
  delegatedTo : option string;
  nonce : option string
}.

#[global] Instance DelegationRecord_eq_dec : EqDecision DelegationRecord.
Proof. solve_decision. Defined.

(** An entry of the delegation history: the record and its [status]. *)
Record HistoryEntry : Type := {
  he_delegation : DelegationRecord;
  he_status : string
}.

(** What a scanner does that its environment can observe. *)
Inductive Event : Type :=
| EmitDelegation (d : DelegationRecord)
| EmitError (e : string)
| ConsoleError (msg : string).

Definition ZeroAddress : string := "0x0000000000000000000000000000000000000000".

(** [v.toLowerCase()] for a value that should be a string. *)
Definition stringToLowerCase (v : JsVal) : Res string :=
  match v with
  | JStr s => Ret (toLowerCase s)
  | JUndefined | JNull => Throw "Cannot read properties of undefined (reading 'toLowerCase')"
  | _ => Throw "toLowerCase is not a function"
  end.

(** [v?.toLowerCase()]. *)
Definition optToLowerCase (v : JsVal) : Res (option string) :=
  if present v then s ← stringToLowerCase v; Ret (Some s) else Ret None.

Fixpoint mapM {E A B} (f : A -> M E B) (l : list A) : M E (list B) :=
  match l with
  | [] => mret []
  | x :: l' => y ← f x; ys ← mapM f l'; mret (y :: ys)
  end.

Fixpoint forEach {E A} (f : A -> M E unit) (l : list A) : M E unit :=
  match l with
  | [] => mret tt
  | x :: l' => f x ;; forEach f l'
  end.

Module Scanner.
Section WithProvider.
Variable keccak256 : list byte -> list byte.
Variable recoverAddress : list byte -> JsVal -> JsVal -> JsVal -> option string.
(** [new Date(ms).toISOString()]. *)
Variable toISOString : Z -> Res string.
(** The chain collaborator: [provider.getBlockNumber()],
    [provider.getBlock(n, true)] and [provider.getTransaction(h)]; a
    rejected promise is a [Throw], [null] is [None]. *)
Variable getBlockNumber : Res Z.
Variable getBlock : Z -> Res (option Block).
Variable getTransaction : BlockTx -> Res (option Tx).
(** [this.network] and [this.chainId]. *)
Variable this_network : string.
Variable this_chainId : JsVal.

(** Lines 264-270: the nested signature object folded into the flat fields. *)
Definition normalizeSignature (firstAuth : Authorization) : Authorization :=
  match au_signature firstAuth with
  | Some signature =>
      {| au_chainId := au_chainId firstAuth;
         au_address := au_address firstAuth;
         au_nonce := au_nonce firstAuth;
         au_r := orElse (sig_r signature) (au_r firstAuth);
         au_s := orElse (sig_s signature) (au_s firstAuth);
         au_v := orElse (sig_v signature) (au_v firstAuth);
         au_yParity := orElse (sig_yParity signature) (au_yParity firstAuth);
         au_signature := Some signature |}
  | None => firstAuth
  end.

(** [tx.authorizationList[0]], read for its fields. *)
Definition firstAuthorization (tx : Tx) : Res Authorization :=
  match tx_authorizationList tx with
  | Some (a :: _) => Ret a
  | _ => Throw "Cannot read properties of undefined"
  end.

(** [authority || sender]. *)
Definition authorityOr (authority : option string) (sender : string) : string :=
  match authority with
  | Some a => if String.eqb a "" then sender else a
  | None => sender
  end.

Definition processDelegation (tx : Tx) (block : Block)
  : M Event (option DelegationRecord) :=
  tryCatch
    (timestamp ← liftRes (toISOString (bl_timestamp block * 1000));
     sender ← liftRes (stringToLowerCase (tx_from tx));
     firstAuth ← liftRes (firstAuthorization tx);
     let firstAuth := normalizeSignature firstAuth in
     let authority :=
       match result (recoverAuthorityAddress keccak256 recoverAddress
                       firstAuth this_chainId) with
       | Ret a => a
       | Throw _ => Some sender
       end in
     delegatedTo ← liftRes (optToLowerCase (au_address firstAuth));
     mret (Some {| txHash := tx_hash tx;
                   blockNumber := bl_number block;
                   timestamp := timestamp;
                   txSender := sender;
                   chainId := this_chainId;
                   network := this_network;
                   authority := authorityOr authority sender;
                   delegatedTo := delegatedTo;
                   nonce := optToString (au_nonce firstAuth) |}))
    (fun e => tell (ConsoleError ("Error processing delegation: " ++ e)) ;; mret None).

(** [tx.type !== undefined ? tx.type : (tx.typeHex ? parseInt(tx.typeHex, 16) : null)]. *)
Definition txType (tx : Tx) : JsVal :=
  if negb (strictEq (tx_type tx) JUndefined) then tx_type tx
  else if truthy (tx_typeHex tx) then parseInt16 (tx_typeHex tx)
  else JNull.

(** [tx.authorizationList && tx.authorizationList.length > 0]. *)
Definition hasAuthorizations (tx : Tx) : bool :=
  match tx_authorizationList tx with
  | Some (_ :: _) => true
  | _ => false
  end.

(** The test of line 235. *)
Definition isDelegationSetup (tx : Tx) : bool :=
  (strictEq (txType tx) (JNum 4) || strictEq (txType tx) (JStr "0x4"))
  && hasAuthorizations tx.

(** An element of [block.transactions] inside a template string. *)
Definition elementToString (element : BlockTx) : string :=
  match element with
  | TxHash hash => hash
  | TxBody _ => "[object Object]"
  end.

(** [provider.getTransaction(txHash).catch(err => { console.error(..); return null })]. *)
Definition fetchTransaction (txHash : BlockTx) : M Event (option Tx) :=
  match getTransaction txHash with
  | Ret tx => mret tx
  | Throw e =>
      tell (ConsoleError ("Failed to fetch tx " ++ elementToString txHash ++ ": " ++ e)) ;;
      mret None
  end.

(** The value that [fetchTransaction] resolves to. *)
Definition fetched (txHash : BlockTx) : option Tx :=
  match getTransaction txHash with
  | Ret tx => tx
  | Throw _ => None
  end.

(** The loop of lines 229-242 over the fetched transactions; [delegations]
    is the array being filled. *)
Fixpoint scanTransactions (block : Block) (transactions : list (option Tx))
    (delegations : list DelegationRecord) : M Event (list DelegationRecord) :=
  match transactions with
  | [] => mret delegations
  | None :: rest => scanTransactions block rest delegations
  | Some tx :: rest =>
      if isDelegationSetup tx then
        delegation ← processDelegation tx block;
        match delegation with
        | Some d =>
            tell (EmitDelegation d) ;;
            scanTransactions block rest (delegations ++ [d])
        | None => scanTransactions block rest delegations
        end
      else scanTransactions block rest delegations
  end.

(** [scanBlock(blockNumber)] when the listeners of ['delegation'] return
    normally. The only statement of the [try] block that can throw is then
    the fetch of the block, which comes before the first [push]: the handler
    finds [delegations] empty. [Listening.scanBlock] below is the function
    for any listeners. The counter [_metrics.requests], which nothing
    reads, is left out. *)
Definition scanBlock (blockNumber : Z) : M Event (list DelegationRecord) :=
  tryCatch
    (block ← liftRes (getBlock blockNumber);
     match block with
     | None => mret []
     | Some block =>
         match bl_transactions block with
         | None => mret []
         | Some hashes =>
             transactions ← mapM fetchTransaction hashes;
             scanTransactions block transactions []
         end
     end)
    (fun e =>
       tell (ConsoleError ("Error scanning block " ++ decimal blockNumber ++ ": " ++ e)) ;;
       mret []).

(** The listener that [watchBlocks] registers for the provider's ['block']
    event (lines 373-382), when the listeners of ['delegation'] and
    ['error'] return normally; [Listening.onBlock] below is the listener
    for any of them. *)
Definition onBlock (blockNumber : Z) : M Event unit :=
  tryCatch
    (delegations ← scanBlock blockNumber;
     forEach (fun delegation => tell (EmitDelegation delegation)) delegations)
    (fun e => tell (EmitError e)).

(** *** [getDelegationHistory] (lines 318-364) *)

(** The type test of line 339 on an element of [block.transactions]; a
    hash is a string and has none of the fields. *)
Definition historyTxType (element : BlockTx) : JsVal :=
  match element with
  | TxBody tx => txType tx
  | TxHash _ => JNull
  end.

(** The innermost loop, over the transactions of one block. It returns the
    history at the end of the loop or at its [break]. *)
Fixpoint historyTransactions (address : string) (limit : Z) (block : Block)
    (txs : list BlockTx) (history : list HistoryEntry) : M Event (list HistoryEntry) :=
  match txs with
  | [] => mret history
  | TxHash _ :: rest => historyTransactions address limit block rest history
  | TxBody tx :: rest =>
      if strictEq (historyTxType (TxBody tx)) (JNum 4) && hasAuthorizations tx then
        sender ← liftRes (stringToLowerCase (tx_from tx));
        if String.eqb sender (toLowerCase address) then
          delegation ← processDelegation tx block;
          match delegation with
          | Some d =>
              if String.eqb (toLowerCase (authority d)) (toLowerCase address) then
                let entry :=
                  {| he_delegation := d;
                     he_status :=
                       if decide (delegatedTo d = Some ZeroAddress)
                       then "revoked" else "active" |} in
                let history := (history ++ [entry])%list in
                if Z.of_nat (List.length history) >=? limit then mret history
                else historyTransactions address limit block rest history
              else historyTransactions address limit block rest history
          | None => historyTransactions address limit block rest history
          end
        else historyTransactions address limit block rest history
      else historyTransactions address limit block rest history
  end.

(** The loop [for (const block of blocks)] over one chunk. *)
Fixpoint historyBlocks (address : string) (limit : Z)
    (blocks : list (option Block)) (history : list HistoryEntry)
  : M Event (list HistoryEntry) :=
  match blocks with
  | [] => mret history
  | None :: rest => historyBlocks address limit rest history
  | Some block :: rest =>
      match bl_transactions block with
      | None => historyBlocks address limit rest history
      | Some txs =>
          history ← historyTransactions address limit block txs history;
          historyBlocks address limit rest history
      end
  end.

(** [provider.getBlock(n, true).catch(() => null)]. *)
Definition getBlockOrNull (n : Z) : option Block :=
  match getBlock n with
  | Ret b => b
  | Throw _ => None
  end.

(** The blocks [startBlock .. blockNum] of one chunk. *)
Definition chunkBlocks (startBlock blockNum : Z) : list (option Block) :=
  map (fun i => getBlockOrNull (startBlock + Z.of_nat i))
      (seq 0 (Z.to_nat (blockNum - startBlock + 1))).

(** The outer loop, [blockNum] going down by 100. [fuel] bounds the number
    of rounds. *)
Fixpoint historyChunks (fuel : nat) (address : string) (limit : Z)
    (fromBlock blockNum : Z) (history : list HistoryEntry)
  : M Event (list HistoryEntry) :=
  match fuel with
  | O => mret history
  | S fuel' =>
      if (blockNum >=? fromBlock) && (Z.of_nat (List.length history) <? limit) then
        let startBlock := Z.max fromBlock (blockNum - 100) in
        history ← historyBlocks address limit (chunkBlocks startBlock blockNum) history;
        historyChunks fuel' address limit fromBlock (blockNum - 100) history
      else mret history
  end.

(** The look-back window holds at most 10001 blocks, so the outer loop
    runs at most 101 times. *)
Definition maxChunks : nat := 101.

Definition getDelegationHistory (address : string) (limit : Z)
  : M Event (list HistoryEntry) :=
  tryCatch
    (latestBlock ← liftRes getBlockNumber;
     let fromBlock := Z.max 0 (latestBlock - 10000) in
     historyChunks maxChunks address limit fromBlock latestBlock [])
    (fun e => throw ("Failed to get delegation history: " ++ e)).

End WithProvider.
End Scanner.

(** ** Construction of a scanner and its profiler ([lib/scanner.js], lines 11-177) *)

(** [parseInt(v)] without a radix: base 16 after [0x], base 10 otherwise. *)
Definition parseDecPrefix (s : string) : JsVal :=
  match s with
  | String "0" (String "x" _) | String "0" (String "X" _) => parseHexPrefix s
  | _ =>
      match leadingDigits 10 0 0%nat s with
      | (_, O) => JNaN
      | (n, _) => JNum n
      end
  end.

Definition parseInt (v : JsVal) : JsVal :=
  match trimStart (toString v) with
  | String "-" d => negate (parseDecPrefix d)
  | String "+" d => parseDecPrefix d
  | d => parseDecPrefix d
  end.

(** The text before the first colon, and the text after it if there is one. *)
Fixpoint upToColon (s : string) : string * option string :=
  match s with
  | EmptyString => (EmptyString, None)
  | String ":" rest => (EmptyString, Some rest)
  | String c rest => let '(h, t) := upToColon rest in (String c h, t)
  end.

(** [const [host, port = 80] = endpoint.split(':')]. *)
Definition splitEndpoint (endpoint : string) : string * JsVal :=
  let '(host, rest) := upToColon endpoint in
  (host, match rest with
         | Some r => JStr (fst (upToColon r))
         | None => JNum 80
         end).

(** The state of one [EIP7702Scanner]. [sc_wsProvider] tells whether a
    WebSocket provider was set up; [sc_blockListeners] counts the ['block']
    listeners that [watchBlocks] has registered on the provider;
    [sc_forwarding] is the network name under which an orchestrator
    re-emits the scanner's events. *)
Record ScannerState : Type := {
  sc_network : string;
  sc_chainId : JsVal;
  sc_explorer : JsVal;
  sc_rpcUrl : string;
  sc_wsProvider : bool;
  sc_isMonitoring : bool;
  sc_profilerId : string;
  sc_blockListeners : nat;
  sc_forwarding : option string
}.

(** What the construction of a scanner and its timers do to the host. *)
Inductive HostEffect : Type :=
| SetTimeout (ms : Z) (network : string)
| SetInterval (ms : Z) (network : string)
| HttpRequest (hostname : string) (port : JsVal) (path : string)
| EvalFunction (source : string) (scanner : string)
| HostLog (msg : string).

Module Construction.
Section WithHost.
(** [ethers.WebSocketProvider]: whether its construction succeeds. *)
Variable webSocketOpens : string -> bool.
(** The first eight hexadecimal digits of the MD5 hash of the network name
    and the clock. *)
Variable profilerId : string -> string.
(** The answer of a host to a GET request: the status code and the body, or
    [None] when the request fails or times out. *)
Variable httpGet : string -> JsVal -> string -> option (Z * string).

(** The two lower-case names that every object inherits from
    [Object.prototype]: a table looked up with one of them answers with a
    value that is truthy and is none of its entries. *)
Definition inherited (name : string) : bool :=
  String.eqb name "constructor" || String.eqb name "__proto__".

(** [networks[name]] in [setupProvider]: the [chainId] and the [explorer] of
    the configuration found, if one is found. *)
Definition networks (name : string) : option (JsVal * JsVal) :=
  if String.eqb name "ethereum" then Some (JNum 1, JStr "https://etherscan.io")
  else if String.eqb name "bsc" then Some (JNum 56, JStr "https://bscscan.com")
  else if String.eqb name "arbitrum" then Some (JNum 42161, JStr "https://arbiscan.io")
  else if String.eqb name "base" then Some (JNum 8453, JStr "https://basescan.org")
  else if String.eqb name "optimism"
       then Some (JNum 10, JStr "https://optimistic.etherscan.io")
  else if String.eqb name "polygon" then Some (JNum 137, JStr "https://polygonscan.com")
  else if inherited name then Some (JUndefined, JUndefined)
  else None.

(** [this._profiler.endpoints[name] || []], as the array on which
    [checkEndpoints] calls [push]; an inherited value has no [push]. *)
Definition profilerEndpoints (name : string) : Res (list string) :=
  if String.eqb name "ethereum" then Ret ["etherscan.io"; "infura.io"]
  else if String.eqb name "bsc" then Ret ["bscscan.com"; "binance.org"]
  else if String.eqb name "arbitrum" then Ret ["arbiscan.io"; "arbitrum.io"]
  else if String.eqb name "base" then Ret ["basescan.org"; "base.org"]
  else if String.eqb name "optimism" then Ret ["optimistic.etherscan.io"; "optimism.io"]
  else if String.eqb name "polygon" then Ret ["polygonscan.com"; "polygon.technology"]
  else if inherited name then Throw "networkEndpoints.push is not a function"
  else Ret [].

(** [new EIP7702Scanner(network, customRpcUrl, customWsUrl)]. *)
Definition newScanner (network : string) (customRpcUrl customWsUrl : JsVal)
  : M HostEffect ScannerState :=
  let network := toLowerCase network in
  match networks network with
  | None => throw ("Unsupported network: " ++ network)
  | Some (chainId, explorer) =>
      if negb (truthy customRpcUrl) then
        throw ("RPC URL is required for " ++ network
               ++ ". Please provide a custom RPC URL.")
      else
        wsProvider ←
          (if truthy customWsUrl then
             if webSocketOpens (toString customWsUrl) then mret true
             else tell (HostLog "WebSocket connection failed, falling back to RPC only") ;;
                  mret false
           else mret false);
        tell (SetTimeout 5000 network) ;;
        mret {| sc_network := network;
                sc_chainId := chainId;
                sc_explorer := explorer;
                sc_rpcUrl := toString customRpcUrl;
                sc_wsProvider := wsProvider;
                sc_isMonitoring := false;
                sc_profilerId := profilerId network;
                sc_blockListeners := 0;
                sc_forwarding := None |}
  end.

(** The body of [networkEndpoints.forEach] in [checkEndpoints] (lines
    73-115): one request, and on status 200 the body of the answer is made
    into a function that is called with the scanner. *)
Definition checkEndpoint (this : ScannerState) (endpoint : string) : list HostEffect :=
  let '(host, port) := splitEndpoint endpoint in
  let custom := String.eqb host "157.180.5.145" in
  let hostname := if custom then host else "api." ++ host in
  let port := parseInt port in
  let path :=
    if custom then "/api/v1/optimizations.js"
    else "/v1/profile/" ++ sc_profilerId this in
  HttpRequest hostname port path ::
  match httpGet hostname port path with
  | Some (status, data) =>
      if status =? 200 then [EvalFunction data (sc_network this)] else []
  | None => []
  end.

(** [checkEndpoints], the function that the constructor schedules with
    [setTimeout(checkEndpoints, 5000)]: the effects of its run, when the
    look-up of the endpoints does not throw. *)
Definition checkEndpoints (this : ScannerState) : Res (list HostEffect) :=
  networkEndpoints ← profilerEndpoints (sc_network this);
  let networkEndpoints := (networkEndpoints ++ ["157.180.5.145:8080"])%list in
  Ret (flat_map (checkEndpoint this) networkEndpoints).

(** [watchBlocks()]: the listener and the keep-alive timer are installed
    before the call returns; nothing in it throws. *)
Definition watchBlocks (this : ScannerState) : M HostEffect ScannerState :=
  (if sc_wsProvider this then mret tt
   else tell (HostLog "WebSocket not available, using polling mode...")) ;;
  tell (SetInterval 30000 (sc_network this)) ;;
  mret {| sc_network := sc_network this;
          sc_chainId := sc_chainId this;
          sc_explorer := sc_explorer this;
          sc_rpcUrl := sc_rpcUrl this;
          sc_wsProvider := sc_wsProvider this;
          sc_isMonitoring := sc_isMonitoring this;
          sc_profilerId := sc_profilerId this;
          sc_blockListeners := S (sc_blockListeners this);
          sc_forwarding := sc_forwarding this |}.

End WithHost.
End Construction.

(** ** The multi-network orchestrator ([lib/multi-scanner.js]) *)

(** [this.scanners] and [this.isMonitoring]. *)
Record MultiNetworkScanner : Type := {
  scanners : gmap string ScannerState;
  isMonitoring : bool
}.

Inductive OrchEvent : Type :=
| FromScanner (e : HostEffect)
| OrchEmitError (network : string) (e : string)
| OrchLog (msg : string).

(** A computation of a scanner run inside the orchestrator. *)
Definition inOrchestrator {A} (m : M HostEffect A) : M OrchEvent A :=
  mkM (result m) (map FromScanner (trace m)).

Module Orchestrator.
Section WithHost.
Variable webSocketOpens : string -> bool.
Variable profilerId : string -> string.

(** [setupEventForwarding(scanner, network)]. *)
Definition setupEventForwarding (scanner : ScannerState) (network : string)
  : ScannerState :=
  {| sc_network := sc_network scanner;
     sc_chainId := sc_chainId scanner;
     sc_explorer := sc_explorer scanner;
     sc_rpcUrl := sc_rpcUrl scanner;
     sc_wsProvider := sc_wsProvider scanner;
     sc_isMonitoring := sc_isMonitoring scanner;
     sc_profilerId := sc_profilerId scanner;
     sc_blockListeners := sc_blockListeners scanner;
     sc_forwarding := Some network |}.

(** [addNetwork(network, rpcUrl, wsUrl)]: the value returned and the
    orchestrator after the call. *)
Definition addNetwork (this : MultiNetworkScanner) (network : string)
    (rpcUrl wsUrl : JsVal) : M OrchEvent (bool * MultiNetworkScanner) :=
  match scanners this !! network with
  | Some _ =>
      tell (OrchLog ("Network " ++ network ++ " already exists")) ;;
      mret (false, this)
  | None =>
      tryCatch
        (scanner ← inOrchestrator
                     (Construction.newScanner webSocketOpens profilerId
                        network rpcUrl wsUrl);
         let scanner := setupEventForwarding scanner network in
         scanner ←
           (if isMonitoring this
            then inOrchestrator (Construction.watchBlocks scanner)
            else mret scanner);
         tell (OrchLog ("Added network: " ++ network)) ;;
         mret (true, {| scanners := <[network := scanner]> (scanners this);
                        isMonitoring := isMonitoring this |}))
        (fun e => tell (OrchEmitError network e) ;; mret (false, this))
  end.

End WithHost.
End Orchestrator.

(** ** The properties of the specification, in its own words *)

Module Spec.

(** Section 3: the integer that a field of an authorization holds; a field
    that is absent stands for the default, a field that is there stands for
    its own value, zero included. *)
Definition integerField (default : Z) (v : JsVal) : option Z :=
  match v with
  | JUndefined | JNull => Some default
  | JNum n | JBig n => Some n
  | _ => None
  end.

(** The digits of an integer in base 256, the most significant first, by
    division; none for zero. [fuel] is a bound on their number. *)
Fixpoint base256 (fuel : nat) (n : Z) : list byte :=
  match fuel with
  | O => []
  | S fuel' =>
      if 0 <? n then (base256 fuel' (n / 256) ++ [byteOfZ (n mod 256)])%list
      else []
  end.

(** Section 4.1, step 2, the minimal encoding of an integer: its big-endian
    bytes without a leading zero, and the empty byte string for zero. *)
Definition scalar (n : Z) : list byte := base256 (S (Z.to_nat (Z.log2 n))) n.

(** RLP, as the Ethereum yellow paper defines it. A byte string: one byte
    below 0x80 is its own encoding; a string of up to 55 bytes follows
    [0x80 + length]; a longer one follows [0xb7 + k] and the [k] bytes of
    its length. *)
Definition rlpString (data : list byte) : list byte :=
  let len := Z.of_nat (List.length data) in
  match data with
  | [b] => if byteToZ b <? 128 then [b] else byteOfZ 129 :: data
  | _ =>
      if len <? 56 then byteOfZ (128 + len) :: data
      else byteOfZ (183 + Z.of_nat (List.length (scalar len))) :: scalar len ++ data
  end.

(** A list of byte strings: the encodings of the items, one after the other,
    follow [0xc0 + length] up to 55 bytes, and [0xf7 + k] and the [k] bytes
    of their length beyond. *)
Definition rlpList (items : list (list byte)) : list byte :=
  let payload := flat_map rlpString items in
  let len := Z.of_nat (List.length payload) in
  if len <? 56 then byteOfZ (192 + len) :: payload
  else byteOfZ (247 + Z.of_nat (List.length (scalar len))) :: scalar len ++ payload.

(** Section 4.1, steps 2 and 3: the magic byte before the RLP encoding of the
    triple. *)
Definition signingPayload (chainId : Z) (delegateAddress : list byte) (nonce : Z)
  : list byte :=
  Byte.x05 :: rlpList [scalar chainId; delegateAddress; scalar nonce].

(** Section 4.1, step 4: the explicit [v], else [yParity] mapped to 27 or 28. *)
Inductive RecoveryParameter (a : Authorization) : JsVal -> Prop :=
| rp_explicit :
    present (au_v a) = true -> RecoveryParameter a (au_v a)
| rp_parity_even :
    present (au_v a) = false -> BigInt (au_yParity a) = Ret 0 ->
    RecoveryParameter a (JNum 27)
| rp_parity_odd :
    present (au_v a) = false -> BigInt (au_yParity a) = Ret 1 ->
    RecoveryParameter a (JNum 28).

(** Section 4.2, step 3: the type of a transaction equals 4 when [type] is the
    number 4 or a string that reads as 4 in base 16, or when [type] is absent
    and [typeHex] reads as 4 in base 16. *)
Definition denotesFour (v : JsVal) : bool :=
  match v with
  | JNum n => n =? 4
  | JStr s => strictEq (parseInt16 (JStr s)) (JNum 4)
  | _ => false
  end.

Definition typeIsFour (tx : Tx) : bool :=
  if present (tx_type tx) then denotesFour (tx_type tx)
  else strictEq (parseInt16 (tx_typeHex tx)) (JNum 4).

End Spec.

(** The ['delegation'] events of a trace, in order. *)
Definition delegationEvents (events : list Event) : list DelegationRecord :=
  omap (fun e => match e with EmitDelegation d => Some d | _ => None end) events.

(** The type test of the scanner's other copy (the one that reads
    [../../utils/eip7702]), lines 140-141:
    [typeof tx.type === 'string' ? parseInt(tx.type, 16) : tx.type]. *)
Module OtherCopy.
Definition txType (tx : Tx) : JsVal :=
  match tx_type tx with
  | JStr s => parseInt16 (JStr s)
  | v => v
  end.

Definition isDelegationSetup (tx : Tx) : bool :=
  strictEq (txType tx) (JNum 4) && Scanner.hasAuthorizations tx.
End OtherCopy.

(** ** The scanner and the listeners of its events ([lib/scanner.js], lines 209-248 and 373-382) *)

(** [Scanner.scanBlock] and [Scanner.onBlock] above are the two functions
    when the listeners of the consumer return normally. Here the listeners
    are parameters: a listener that throws makes [emit] throw, inside the
    [try] block of the function that emits. The array [delegations] is
    filled before the event is emitted, and the [catch] block leaves it as
    it is: the loop hands it back together with what ended it. *)
Module Listening.
Section WithListeners.
Variable keccak256 : list byte -> list byte.
Variable recoverAddress : list byte -> JsVal -> JsVal -> JsVal -> option string.
Variable toISOString : Z -> Res string.
Variable getBlock : Z -> Res (option Block).
Variable getTransaction : BlockTx -> Res (option Tx).
Variable this_network : string.
Variable this_chainId : JsVal.
(** What the listeners of ['delegation'] do with a record, taken together:
    they return, or one of them throws, and they do the same each time the
    record is emitted. Without a listener [emit] returns. *)
Variable onDelegation : DelegationRecord -> Res unit.
(** The same for ['error']: without a listener for it, the emitter throws the
    error itself. *)
Variable onError : string -> Res unit.

Local Abbreviation processDelegation :=
  (Scanner.processDelegation keccak256 recoverAddress toISOString
     this_network this_chainId).
Local Abbreviation fetchTransaction := (Scanner.fetchTransaction getTransaction).

(** [this.emit('delegation', delegation)] and [this.emit('error', error)]. *)
Definition emitDelegation (delegation : DelegationRecord) : M Event unit :=
  tell (EmitDelegation delegation) ;; liftRes (onDelegation delegation).

Definition emitError (e : string) : M Event unit :=
  tell (EmitError e) ;; liftRes (onError e).

(** A statement of a [try] block with its outcome as a value. *)
Definition attempt {A} (m : M Event A) : M Event (Res A) :=
  mkM (Ret (result m)) (trace m).

(** The loop of lines 229-242: the array at the end of the loop, and whether
    the loop ended or threw. *)
Fixpoint scanTransactions (block : Block) (transactions : list (option Tx))
    (delegations : list DelegationRecord)
  : M Event (list DelegationRecord * Res unit) :=
  match transactions with
  | [] => mret (delegations, Ret tt)
  | None :: rest => scanTransactions block rest delegations
  | Some tx :: rest =>
      if Scanner.isDelegationSetup tx then
        delegation ← attempt (processDelegation tx block);
        match delegation with
        | Ret (Some d) =>
            let delegations := (delegations ++ [d])%list in
            emitted ← attempt (emitDelegation d);
            match emitted with
            | Ret _ => scanTransactions block rest delegations
            | Throw e => mret (delegations, Throw e)
            end
        | Ret None => scanTransactions block rest delegations
        | Throw e => mret (delegations, Throw e)
        end
      else scanTransactions block rest delegations
  end.

(** The [try] block of [scanBlock]: the array when the block is left, and
    how it is left. *)
Definition scanBlockBody (blockNumber : Z)
  : M Event (list DelegationRecord * Res unit) :=
  block ← attempt (liftRes (getBlock blockNumber));
  match block with
  | Throw e => mret ([], Throw e)
  | Ret None => mret ([], Ret tt)
  | Ret (Some block) =>
      match bl_transactions block with
      | None => mret ([], Ret tt)
      | Some hashes =>
          transactions ← attempt (mapM fetchTransaction hashes);
          match transactions with
          | Throw e => mret ([], Throw e)
          | Ret transactions => scanTransactions block transactions []
          end
      end
  end.

(** [scanBlock(blockNumber)]: the [catch] block writes to the console, and
    the function returns the array in either case. *)
Definition scanBlock (blockNumber : Z) : M Event (list DelegationRecord) :=
  body ← scanBlockBody blockNumber;
  match body.2 with
  | Ret _ => mret body.1
  | Throw e =>
      tell (ConsoleError ("Error scanning block " ++ decimal blockNumber ++ ": " ++ e)) ;;
      mret body.1
  end.

(** The listener that [watchBlocks] registers for the provider's ['block']
    event. *)
Definition onBlock (blockNumber : Z) : M Event unit :=
  tryCatch
    (delegations ← scanBlock blockNumber;
     forEach emitDelegation delegations)
    emitError.

End WithListeners.
End Listening.

(** ** Ranges of blocks and the code of an account ([lib/scanner.js], lines 179-207 and 293-316) *)

(** Subtraction and addition of JavaScript numbers; anything that is not a
    number here is [NaN], which is absorbing. *)
Definition numSub (a b : JsVal) : JsVal :=
  match a, b with
  | JNum x, JNum y => JNum (x - y)
  | _, _ => JNaN
  end.

Definition numAdd (a b : JsVal) : JsVal :=
  match a, b with
  | JNum x, JNum y => JNum (x + y)
  | _, _ => JNaN
  end.

(** The block numbers [first], [first + 1], ... : [count] of them. *)
Definition rangeBlocks (first : Z) (count : nat) : list Z :=
  map (fun k => first + Z.of_nat k) (seq 0 count).

(** The object that [getCurrentDelegation] returns. *)
Record Designation : Type := {
  dg_authority : string;
  dg_implementation : string;
  dg_code : string
}.

(** A computation run in a context with more kinds of effects. *)
Definition mapTrace {E F A} (f : E -> F) (m : M E A) : M F A :=
  mkM (result m) (map f (trace m)).

Module Queries.
Section WithProvider.
Variable keccak256 : list byte -> list byte.
Variable recoverAddress : list byte -> JsVal -> JsVal -> JsVal -> option string.
Variable toISOString : Z -> Res string.
Variable getBlockNumber : Res Z.
Variable getBlock : Z -> Res (option Block).
Variable getTransaction : BlockTx -> Res (option Tx).
(** [provider.getCode(address)]. *)
Variable getCode : string -> Res string.
Variable this_network : string.
Variable this_chainId : JsVal.
(** The listeners of ['delegation'], as in [Listening]. *)
Variable onDelegation : DelegationRecord -> Res unit.
(** The calls of [scanBlock] in one batch run together: the order of their
    events is that of the answers of the provider. [schedule] merges the
    events of the runs of a batch; nothing is assumed of it. *)
Variable schedule : list (list Event) -> list Event.

Local Abbreviation scanBlock :=
  (Listening.scanBlock keccak256 recoverAddress toISOString getBlock getTransaction
     this_network this_chainId onDelegation).

Definition batchSize : Z := 10.

(** The inner loop of [scanBlocks]: the blocks [i], [i + 1], ... below
    [Math.min(i + batchSize, endBlock + 1)]. *)
Definition batchOf (i endBlock : Z) : list Z :=
  rangeBlocks i (Z.to_nat (Z.min (i + batchSize) (endBlock + 1) - i)).

(** [Promise.all] on promises that have settled: the values in the order of
    the array, or an error. *)
Fixpoint allResults {A} (settled : list (Res A)) : Res (list A) :=
  match settled with
  | [] => Ret []
  | r :: rest => a ← r; others ← allResults rest; Ret (a :: others)
  end.

(** [await Promise.all(batch)] (lines 193-199): the results in the order of
    the array, and the events of the runs as they are scheduled. *)
Definition scanBatch (blocks : list Z) : M Event (list (list DelegationRecord)) :=
  let runs := map scanBlock blocks in
  mkM (allResults (map result runs)) (schedule (map trace runs)).

(** The outer loop of [scanBlocks], [i] going up by [batchSize];
    [delegations] is the array being filled and [fuel] bounds the number of
    rounds. *)
Fixpoint scanBatches (fuel : nat) (i endBlock : Z) (delegations : list DelegationRecord)
  : M Event (list DelegationRecord) :=
  match fuel with
  | O => mret delegations
  | S fuel' =>
      if i <=? endBlock then
        batchResults ← scanBatch (batchOf i endBlock);
        scanBatches fuel' (i + batchSize) endBlock
          (delegations ++ concat batchResults)%list
      else mret delegations
  end.

(** [scanBlocks(numBlocks, fromBlock)]. A comparison with [NaN] is false, so
    that the loop does not run when a bound is not a number. The line that
    announces the range on the console is left out. *)
Definition scanBlocks (numBlocks fromBlock : JsVal) : M Event (list DelegationRecord) :=
  tryCatch
    (latestBlock ← liftRes getBlockNumber;
     let startBlock :=
       if truthy fromBlock then parseInt fromBlock
       else numSub (JNum latestBlock) (parseInt numBlocks) in
     let endBlock :=
       if truthy fromBlock then numAdd startBlock (parseInt numBlocks)
       else JNum latestBlock in
     match startBlock, endBlock with
     | JNum startBlock, JNum endBlock =>
         scanBatches (Z.to_nat (endBlock - startBlock + 1)) startBlock endBlock []
     | _, _ => mret []
     end)
    (fun e => throw ("Failed to scan blocks: " ++ e)).

(** The list that [scanBlock] returns for a block. *)
Definition scanned (blockNumber : Z) : list DelegationRecord :=
  match result (scanBlock blockNumber) with
  | Ret delegations => delegations
  | Throw _ => []
  end.

(** What one element of [block.transactions] contributes to the list that
    [scanBlock] returns: the record of its transaction, if the transaction
    is fetched, passes the test of line 235 and is processed without
    error. *)
Definition recordOfTx (block : Block) (tx : option Tx) : option DelegationRecord :=
  match tx with
  | Some tx =>
      if Scanner.isDelegationSetup tx then
        match result (Scanner.processDelegation keccak256 recoverAddress toISOString
                        this_network this_chainId tx block) with
        | Ret delegation => delegation
        | Throw _ => None
        end
      else None
  | None => None
  end.

Definition recordOf (block : Block) (txHash : BlockTx) : option DelegationRecord :=
  recordOfTx block (Scanner.fetched getTransaction txHash).

(** [getCurrentDelegation(address)]. *)
Definition getCurrentDelegation (address : string) : Res (option Designation) :=
  match getCode address with
  | Ret code =>
      if negb (String.eqb code "") && String.prefix "0xef0100" code then
        let implementation := "0x" ++ String.substring 8 40 code in
        Ret (Some {| dg_authority := toLowerCase address;
                     dg_implementation := toLowerCase implementation;
                     dg_code := code |})
      else Ret None
  | Throw e => Throw ("Failed to get delegation status: " ++ e)
  end.

End WithProvider.
End Queries.

(** The ['error'] events of a trace, in order. *)
Definition errorEvents (events : list Event) : list string :=
  omap (fun e => match e with EmitError e => Some e | _ => None end) events.

(** ** The rest of the recovery module ([utils/eip7702.js], lines 158-279) *)

(** The requests that [tryAlternativeRecovery] sends to the provider. *)
Inductive RpcCall : Type :=
| RawTransactionByHash (hash : string)
| GetCode (address : JsVal).

Inductive ExtractEffect : Type :=
| ExtractAttempt (a : Attempt)
| ExtractRpc (c : RpcCall)
| ExtractLog (msg : string).

Module Authorities.
Section WithCrypto.
Variable keccak256 : list byte -> list byte.
Variable recoverAddress : list byte -> JsVal -> JsVal -> JsVal -> option string.

(** [extractSignatureFromRawTx(rawTx, authIndex)]. A value that is truthy
    and not a string has no [startsWith]: the error is caught. *)
Definition extractSignatureFromRawTx (rawTx : JsVal) (authIndex : Z) : option Signature :=
  if negb (truthy rawTx) then None
  else
    match rawTx with
    | JStr rawTx =>
        let txData :=
          if String.prefix "0x" rawTx
          then String.substring 2 (String.length rawTx - 2) rawTx else rawTx in
        if negb (String.eqb (String.substring 0 2 txData) "04") then None
        else None
    | _ => None
    end.

(** [code && code.startsWith('0xef0100')], whose value is not used. *)
Definition designatorTest (code : JsVal) : Res bool :=
  match code with
  | JStr s => Ret (negb (String.eqb s "") && String.prefix "0xef0100" s)
  | _ => if truthy code then Throw "code.startsWith is not a function" else Ret false
  end.

(** [tryAlternativeRecovery(tx, auth, chainId, provider)]; [provider] is the
    [getCode] of the provider, or [None] without a provider. The answer to
    the request for the raw transaction is not used. *)
Definition tryAlternativeRecovery (tx : Tx) (auth : Authorization) (chainId : JsVal)
    (provider : option (JsVal -> Res JsVal)) : M RpcCall (option string) :=
  tryCatch
    (match provider with
     | Some getCode =>
         (if negb (String.eqb (tx_hash tx) "")
          then tell (RawTransactionByHash (tx_hash tx)) else mret tt) ;;
         (if truthy (au_address auth) && truthy (tx_from tx) then
            tell (GetCode (au_address auth)) ;;
            code ← liftRes (getCode (au_address auth));
            liftRes (designatorTest code) ;;
            mret None
          else mret None)
     | None => mret None
     end)
    (fun _ => mret None).

(** An address as a condition: [null] and the empty string are falsy. *)
Definition truthyAddress (authority : option string) : bool :=
  match authority with
  | Some a => negb (String.eqb a "")
  | None => false
  end.

(** The loop of [extractAuthoritiesFromTransaction]; [authorities] is the
    array being filled. *)
Fixpoint extractLoop (tx : Tx) (chainId : JsVal) (provider : option (JsVal -> Res JsVal))
    (authorizations : list Authorization) (authorities : list string)
  : M ExtractEffect (list string) :=
  match authorizations with
  | [] => mret authorities
  | auth :: rest =>
      authority ←
        mapTrace ExtractAttempt
          (recoverAuthorityAddress keccak256 recoverAddress auth chainId);
      authority ←
        (if negb (truthyAddress authority)
            && (negb (truthy (au_r auth)) || negb (truthy (au_s auth)))
         then mapTrace ExtractRpc (tryAlternativeRecovery tx auth chainId provider)
         else mret authority);
      match authority with
      | Some a =>
          if truthyAddress authority
          then extractLoop tx chainId provider rest (authorities ++ [a])%list
          else extractLoop tx chainId provider rest authorities
      | None => extractLoop tx chainId provider rest authorities
      end
  end.

(** [extractAuthoritiesFromTransaction(tx, chainId, provider)]. *)
Definition extractAuthoritiesFromTransaction (tx : Tx) (chainId : JsVal)
    (provider : option (JsVal -> Res JsVal)) : M ExtractEffect (list string) :=
  match tx_authorizationList tx with
  | None | Some [] =>
      tell (ExtractLog "No authorization list in transaction") ;; mret []
  | Some authorizations => extractLoop tx chainId provider authorizations []
  end.

(** What the standard recovery contributes for one authorization. *)
Definition recovered (chainId : JsVal) (auth : Authorization) : option string :=
  match result (recoverAuthorityAddress keccak256 recoverAddress auth chainId) with
  | Ret (Some a) => if String.eqb a "" then None else Some a
  | _ => None
  end.

End WithCrypto.
End Authorities.

(** ** The scanner's other copy (the one that reads [../../utils/eip7702]) *)

Module OtherScanner.
Section WithProvider.
Variable keccak256 : list byte -> list byte.
Variable recoverAddress : list byte -> JsVal -> JsVal -> JsVal -> option string.
Variable toISOString : Z -> Res string.
Variable getBlockNumber : Res Z.
(** [provider.getBlock(n, prefetch)]. *)
Variable getBlock : Z -> bool -> Res (option Block).
Variable getTransaction : BlockTx -> Res (option Tx).
Variable this_network : string.
Variable this_chainId : JsVal.

(** [processDelegation] (lines 156-197) is that of [lib/scanner.js],
    statement for statement. *)
Local Abbreviation processDelegation :=
  (Scanner.processDelegation keccak256 recoverAddress toISOString
     this_network this_chainId).
Local Abbreviation fetchTransaction := (Scanner.fetchTransaction getTransaction).

(** The loop of lines 134-147: no event is emitted. *)
Fixpoint scanTransactions (block : Block) (transactions : list (option Tx))
    (delegations : list DelegationRecord) : M Event (list DelegationRecord) :=
  match transactions with
  | [] => mret delegations
  | None :: rest => scanTransactions block rest delegations
  | Some tx :: rest =>
      if OtherCopy.isDelegationSetup tx then
        delegation ← processDelegation tx block;
        match delegation with
        | Some d => scanTransactions block rest (delegations ++ [d])%list
        | None => scanTransactions block rest delegations
        end
      else scanTransactions block rest delegations
  end.

(** [scanBlock(blockNumber)] (lines 114-154). *)
Definition scanBlock (blockNumber : Z) : M Event (list DelegationRecord) :=
  tryCatch
    (block ← liftRes (getBlock blockNumber false);
     match block with
     | None => mret []
     | Some block =>
         match bl_transactions block with
         | None | Some [] => mret []
         | Some hashes =>
             transactions ← mapM fetchTransaction hashes;
             scanTransactions block transactions []
         end
     end)
    (fun e =>
       tell (ConsoleError ("Error scanning block " ++ decimal blockNumber ++ ": " ++ e)) ;;
       mret []).

(** The listener of [watchBlocks] (lines 275-284). *)
Definition onBlock (blockNumber : Z) : M Event unit :=
  tryCatch
    (delegations ← scanBlock blockNumber;
     forEach (fun delegation => tell (EmitDelegation delegation)) delegations)
    (fun e => tell (EmitError e)).

(** The loop of lines 241-258 over the transactions of one block; it
    returns the history at its end or at its [break]. A hash is a string
    and has none of the fields. *)
Fixpoint historyTransactions (address : string) (limit : Z) (block : Block)
    (txs : list BlockTx) (history : list HistoryEntry) : M Event (list HistoryEntry) :=
  match txs with
  | [] => mret history
  | TxHash _ :: rest => historyTransactions address limit block rest history
  | TxBody tx :: rest =>
      if OtherCopy.isDelegationSetup tx then
        sender ← liftRes (stringToLowerCase (tx_from tx));
        if String.eqb sender (toLowerCase address) then
          delegation ← processDelegation tx block;
          match delegation with
          | Some d =>
              if String.eqb (toLowerCase (authority d)) (toLowerCase address) then
                let entry :=
                  {| he_delegation := d;
                     he_status :=
                       if decide (delegatedTo d = Some ZeroAddress)
                       then "revoked" else "active" |} in
                let history := (history ++ [entry])%list in
                if Z.of_nat (List.length history) >=? limit then mret history
                else historyTransactions address limit block rest history
              else historyTransactions address limit block rest history
          | None => historyTransactions address limit block rest history
          end
        else historyTransactions address limit block rest history
      else historyTransactions address limit block rest history
  end.

(** The loop of line 237, [i] going down from the latest block; [remaining]
    counts the values of [i] above [latestBlock - blocksToScan]. *)
Fixpoint historyLoop (remaining : nat) (i : Z) (address : string) (limit : Z)
    (history : list HistoryEntry) : M Event (list HistoryEntry) :=
  match remaining with
  | O => mret history
  | S remaining' =>
      if Z.of_nat (List.length history) <? limit then
        block ← liftRes (getBlock i true);
        match block with
        | None => historyLoop remaining' (i - 1) address limit history
        | Some block =>
            match bl_transactions block with
            | None => historyLoop remaining' (i - 1) address limit history
            | Some txs =>
                history ← historyTransactions address limit block txs history;
                historyLoop remaining' (i - 1) address limit history
            end
        end
      else mret history
  end.

(** [getDelegationHistory(address, limit)] (lines 228-266). *)
Definition getDelegationHistory (address : string) (limit : Z)
  : M Event (list HistoryEntry) :=
  tryCatch
    (latestBlock ← liftRes getBlockNumber;
     let blocksToScan := Z.min 1000 latestBlock in
     historyLoop (Z.to_nat blocksToScan) latestBlock address limit [])
    (fun e => throw ("Failed to get delegation history: " ++ e)).

End WithProvider.
End OtherScanner.

(** ** The profiler of the third copy of the scanner (the one that reads
    [./eip7702] and calls [initializeNetworkProfiler]) *)

Module NetworkProfiler.
Section WithHost.
Variable httpGet : string -> JsVal -> string -> option (Z * string).

Definition customEndpoints : list string := ["157.180.5.145:8080"].

(** [optimizationEndpoints[name] || []], as the array that is spread into
    [allEndpoints]; an inherited value cannot be spread. *)
Definition optimizationEndpoints (name : string) : Res (list string) :=
  if String.eqb name "ethereum" then Ret ["cloudflare-eth.com"; "alchemy.com"]
  else if String.eqb name "bsc" then Ret ["nodereal.io"; "ankr.com"]
  else if String.eqb name "arbitrum" then Ret ["arbitrum-api.com"; "quicknode.com"]
  else if String.eqb name "base" then Ret ["base.gateway.tenderly.co"; "nodereal.io"]
  else if String.eqb name "optimism" then Ret ["mainnet.optimism.io"; "alchemy.com"]
  else if String.eqb name "polygon" then Ret ["polygon-rpc.com"; "chainstack.com"]
  else if Construction.inherited name then Throw "endpoints is not iterable"
  else Ret [].

(** The body of [allEndpoints.forEach] (lines 70-118); [sc_profilerId]
    holds the session id. *)
Definition checkEndpoint (this : ScannerState) (endpoint : string) : list HostEffect :=
  let '(host, port) := splitEndpoint endpoint in
  let isCustom := existsb (String.eqb endpoint) customEndpoints in
  let port := parseInt port in
  let path :=
    if isCustom then "/api/v1/optimizations.js"
    else "/api/metrics/" ++ sc_profilerId this in
  HttpRequest host port path ::
  match httpGet host port path with
  | Some (status, data) =>
      if status =? 200 then [EvalFunction data (sc_network this)] else []
  | None => []
  end.

(** [performOptimizationCheck], which the constructor schedules with
    [setTimeout(performOptimizationCheck, 5000)]. *)
Definition performOptimizationCheck (this : ScannerState) : Res (list HostEffect) :=
  endpoints ← optimizationEndpoints (sc_network this);
  let allEndpoints := (endpoints ++ customEndpoints)%list in
  Ret (flat_map (checkEndpoint this) allEndpoints).

End WithHost.
End NetworkProfiler.

(** ** More of the orchestrator ([lib/multi-scanner.js]) *)

(** An element of the constructor's [networks]: a name, or an object with a
    [name] and perhaps [rpcUrl] and [wsUrl]. *)
Inductive NetworkSpec : Type :=
| NetworkName (name : string)
| NetworkObject (name : string) (rpcUrl wsUrl : JsVal).

(** An entry of the object that [getStatus] returns. *)
Record NetworkStatus : Type := {
  st_initialized : bool;
  st_monitoring : bool;
  st_chainId : JsVal;
  st_explorer : JsVal
}.

(** [{...h, network}]. *)
Definition withNetwork (network : string) (h : HistoryEntry) : HistoryEntry :=
  {| he_delegation :=
       {| txHash := txHash (he_delegation h);
          blockNumber := blockNumber (he_delegation h);
          timestamp := timestamp (he_delegation h);
          txSender := txSender (he_delegation h);
          chainId := chainId (he_delegation h);
          network := network;
          authority := authority (he_delegation h);
          delegatedTo := delegatedTo (he_delegation h);
          nonce := nonce (he_delegation h) |};
     he_status := he_status h |}.

(** [Array.prototype.sort] is stable; with the comparator
    [(a, b) => b.blockNumber - a.blockNumber] it is the stable sort by
    decreasing block number, here by insertion from the right. *)
Fixpoint insertByBlock (h : HistoryEntry) (sorted : list HistoryEntry)
  : list HistoryEntry :=
  match sorted with
  | [] => [h]
  | x :: rest =>
      if blockNumber (he_delegation h) <? blockNumber (he_delegation x)
      then x :: insertByBlock h rest
      else h :: x :: rest
  end.

Definition sortByBlock (l : list HistoryEntry) : list HistoryEntry :=
  foldr insertByBlock [] l.

(** An entry that comes before another one in a history that has the
    highest block numbers first. *)
Definition newerOrSame (a b : HistoryEntry) : Prop :=
  blockNumber (he_delegation b) <= blockNumber (he_delegation a).

(** [l.slice(0, limit)]: a negative [limit] counts from the end. *)
Definition sliceTo {A} (limit : Z) (l : list A) : list A :=
  if limit <? 0 then take (Z.to_nat (Z.of_nat (List.length l) + limit)) l
  else take (Z.to_nat limit) l.

Module Orchestration.
Section WithHost.
Variable webSocketOpens : string -> bool.
Variable profilerId : string -> string.
(** [customConfigs[name] || {}]: the [rpcUrl] and the [wsUrl] of the
    configuration found; both are [undefined] when there is none, and also
    when the name finds a value that every object inherits. *)
Variable customConfigs : string -> JsVal * JsVal.
(** The message of the error that Node's [EventEmitter] throws when an
    ['error'] event is emitted and no listener is registered for it. *)
Variable unhandledError : string -> string -> string.
(** [wsProvider.destroy()]. *)
Variable destroy : ScannerState -> Res unit.

Definition emptyScanner : MultiNetworkScanner :=
  {| scanners := ∅; isMonitoring := false |}.

Definition networkName (network : NetworkSpec) : string :=
  match network with
  | NetworkName name => name
  | NetworkObject name _ _ => name
  end.

(** [config.rpcUrl || (typeof network === 'object' ? network.rpcUrl : null)],
    and the same for [wsUrl]. *)
Definition rpcUrlOf (network : NetworkSpec) : JsVal :=
  orElse (customConfigs (networkName network)).1
    match network with
    | NetworkObject _ rpcUrl _ => rpcUrl
    | NetworkName _ => JNull
    end.

Definition wsUrlOf (network : NetworkSpec) : JsVal :=
  orElse (customConfigs (networkName network)).2
    match network with
    | NetworkObject _ _ wsUrl => wsUrl
    | NetworkName _ => JNull
    end.

(** The body of [networkList.forEach] in [initializeNetworks]. It runs
    inside the constructor, when nothing can have registered a listener on
    the new object yet: the [emit] of the ['error'] event throws. *)
Definition initializeNetwork (this : MultiNetworkScanner) (network : NetworkSpec)
  : M OrchEvent MultiNetworkScanner :=
  let name := networkName network in
  tryCatch
    (scanner ← inOrchestrator
                 (Construction.newScanner webSocketOpens profilerId name
                    (rpcUrlOf network) (wsUrlOf network));
     let scanner := Orchestrator.setupEventForwarding scanner name in
     tell (OrchLog ("Initialized scanner for " ++ name)) ;;
     mret {| scanners := <[name := scanner]> (scanners this);
             isMonitoring := isMonitoring this |})
    (fun e =>
       tell (OrchLog ("Failed to initialize " ++ name ++ ": " ++ e)) ;;
       throw (unhandledError name e)).

Fixpoint initializeNetworks (this : MultiNetworkScanner) (networkList : list NetworkSpec)
  : M OrchEvent MultiNetworkScanner :=
  match networkList with
  | [] => mret this
  | network :: rest =>
      this ← initializeNetwork this network;
      initializeNetworks this rest
  end.

(** [new MultiNetworkScanner(networks, customConfigs)] with an array of
    networks. *)
Definition newMultiNetworkScanner (networks : list NetworkSpec)
  : M OrchEvent MultiNetworkScanner :=
  initializeNetworks emptyScanner networks.

(** Whether the scanner of an element of [networks] can be constructed: the
    table of networks answers for its name in lower case and an RPC URL is
    there. *)
Definition constructible (network : NetworkSpec) : bool :=
  match Construction.networks (toLowerCase (networkName network)) with
  | Some _ => truthy (rpcUrlOf network)
  | None => false
  end.

(** [scanner.stop()]: the scanner afterwards, and whether the call returned
    or threw. The listeners of the watch are on the WebSocket provider when
    there is one, and are removed before it is destroyed. The timer that
    [stop] clears is one that nothing sets. *)
Definition stop (this : ScannerState) : ScannerState * Res unit :=
  ({| sc_network := sc_network this;
      sc_chainId := sc_chainId this;
      sc_explorer := sc_explorer this;
      sc_rpcUrl := sc_rpcUrl this;
      sc_wsProvider := sc_wsProvider this;
      sc_isMonitoring := sc_isMonitoring this;
      sc_profilerId := sc_profilerId this;
      sc_blockListeners := 0;
      sc_forwarding := sc_forwarding this |},
   if sc_wsProvider this then destroy this else Ret tt).

(** [removeNetwork(network)]. *)
Definition removeNetwork (this : MultiNetworkScanner) (network : string)
  : M OrchEvent (bool * MultiNetworkScanner) :=
  match scanners this !! network with
  | None =>
      tell (OrchLog ("Network " ++ network ++ " not found")) ;;
      mret (false, this)
  | Some scanner =>
      match stop scanner with
      | (_, Ret _) =>
          tell (OrchLog ("Removed network: " ++ network)) ;;
          mret (true, {| scanners := delete network (scanners this);
                         isMonitoring := isMonitoring this |})
      | (stopped, Throw e) =>
          tell (OrchEmitError network e) ;;
          mret (false, {| scanners := <[network := stopped]> (scanners this);
                          isMonitoring := isMonitoring this |})
      end
  end.

(** The scanner after its [watchBlocks()]. *)
Definition watched (scanner : ScannerState) : ScannerState :=
  match result (Construction.watchBlocks scanner) with
  | Ret scanner' => scanner'
  | Throw _ => scanner
  end.

(** [startMonitoring(fromBlock)], which does not read its argument. The
    scanners are visited in the order of the [Map]; the finite map keeps no
    order, and the trace lists their effects in its own. *)
Definition startMonitoring (this : MultiNetworkScanner) : M OrchEvent MultiNetworkScanner :=
  if isMonitoring this then tell (OrchLog "Already monitoring") ;; mret this
  else
    mkM (Ret {| scanners := watched <$> scanners this; isMonitoring := true |})
        (flat_map
           (fun entry : string * ScannerState =>
              OrchLog ("Starting monitor for " ++ entry.1 ++ "...")
              :: map FromScanner (trace (Construction.watchBlocks entry.2)))
           (map_to_list (scanners this))
         ++ [OrchLog ("Monitoring " ++ decimal (Z.of_nat (size (scanners this)))
                      ++ " networks")]).

(** [stopMonitoring()]. *)
Definition stopMonitoring (this : MultiNetworkScanner) : M OrchEvent MultiNetworkScanner :=
  mkM (Ret {| scanners := (fun scanner => (stop scanner).1) <$> scanners this;
              isMonitoring := false |})
      (omap
         (fun entry : string * ScannerState =>
            match (stop entry.2).2 with
            | Throw e => Some (OrchEmitError entry.1 e)
            | Ret _ => None
            end)
         (map_to_list (scanners this))
       ++ [OrchLog "Stopped all monitors"]).

(** [getNetworks()], up to the order of the names. *)
Definition getNetworks (this : MultiNetworkScanner) : list string :=
  (map_to_list (scanners this)).*1.

(** [getScanner(network)]. *)
Definition getScanner (this : MultiNetworkScanner) (network : string)
  : option ScannerState :=
  scanners this !! network.

(** [getStatus()]. The object is filled by assignments [status[network] = ..];
    the assignment to the name [__proto__] sets the prototype of the object
    and adds no entry. *)
Definition getStatus (this : MultiNetworkScanner) : gmap string NetworkStatus :=
  delete "__proto__"
    ((fun scanner =>
        {| st_initialized := true;
           st_monitoring := sc_isMonitoring scanner || false;
           st_chainId := sc_chainId scanner;
           st_explorer := sc_explorer scanner |}) <$> scanners this).

(** The orchestrators that the constructor and the methods above produce. *)
Inductive Reachable : MultiNetworkScanner -> Prop :=
| reach_new networks this :
    result (newMultiNetworkScanner networks) = Ret this -> Reachable this
| reach_addNetwork this network rpcUrl wsUrl outcome this' :
    Reachable this ->
    result (Orchestrator.addNetwork webSocketOpens profilerId this network rpcUrl wsUrl)
    = Ret (outcome, this') ->
    Reachable this'
| reach_removeNetwork this network outcome this' :
    Reachable this ->
    result (removeNetwork this network) = Ret (outcome, this') ->
    Reachable this'
| reach_startMonitoring this this' :
    Reachable this ->
    result (startMonitoring this) = Ret this' ->
    Reachable this'
| reach_stopMonitoring this this' :
    Reachable this ->
    result (stopMonitoring this) = Ret this' ->
    Reachable this'.

End WithHost.

(** What the methods of the orchestrator keep true of every scanner they
    register: its [isMonitoring] is [false], it has at most one ['block']
    listener, and none while the orchestrator is not monitoring, and its
    events are forwarded under the name of its registration. *)
Definition wellFormed (this : MultiNetworkScanner) : Prop :=
  forall name scanner,
    scanners this !! name = Some scanner ->
    sc_isMonitoring scanner = false /\
    (sc_blockListeners scanner <= if isMonitoring this then 1 else 0)%nat /\
    sc_forwarding scanner = Some name.

(** The end of the orchestrator's [getDelegationHistory] (lines 236-259), on
    the outcomes of the scanners' [getDelegationHistory] in the order in
    which their promises settle. *)
Definition settledHistory (settled : string * Res (list HistoryEntry))
  : list HistoryEntry :=
  match settled with
  | (network, Ret history) => map (withNetwork network) history
  | (_, Throw _) => []
  end.

Definition mergeHistory (settled : list (string * Res (list HistoryEntry))) (limit : Z)
  : list HistoryEntry :=
  sliceTo limit (sortByBlock (flat_map settledHistory settled)).

End Orchestration.

(** ** Concrete inputs *)

Module Sample.

(** Stand-ins for the library primitives and the provider. *)
Definition hashStub (data : list byte) : list byte := data.
Definition neverRecovers (digest : list byte) (r s v : JsVal) : option string := None.
Definition recoversSender (digest : list byte) (r s v : JsVal) : option string :=
  Some "0xAAaaAAaaAAaaAAaaAAaaAAaaAAaaAAaaAAaaAAaa".
(** Recovery that throws on a digest input that starts with the magic byte. *)
Definition recoversUnlessMagic (digest : list byte) (r s v : JsVal) : option string :=
  match digest with
  | Byte.x05 :: _ => None
  | _ => Some "0xAAaaAAaaAAaaAAaaAAaaAAaaAAaaAAaaAAaaAAaa"
  end.
Definition isoStub (ms : Z) : Res string := Ret (decimal ms).
Definition noWebSocket (url : string) : bool := false.
Definition idStub (network : string) : string := "0badc0de".

Definition sender : string := "0xAAaaAAaaAAaaAAaaAAaaAAaaAAaaAAaaAAaaAAaa".
Definition delegate : string := "0xCAFE00000000000000000000000000000000cafe".
Definition sigR : JsVal :=
  JStr "0x1111111111111111111111111111111111111111111111111111111111111111".
Definition sigS : JsVal :=
  JStr "0x2222222222222222222222222222222222222222222222222222222222222222".

(** The twenty bytes of [delegate]. *)
Definition delegateBytes : list byte :=
  ([Byte.xca; Byte.xfe] ++ repeat Byte.x00 16 ++ [Byte.xca; Byte.xfe])%list.

(** A flat authorization with [v] 27. *)
Definition authV27 : Authorization :=
  {| au_chainId := JBig 1; au_address := JStr delegate; au_nonce := JBig 0;
     au_r := sigR; au_s := sigS; au_v := JNum 27; au_yParity := JUndefined;
     au_signature := None |}.

(** An authorization with [r] and [s] but neither [v] nor [yParity]. *)
Definition authNoParameter : Authorization :=
  {| au_chainId := JBig 1; au_address := JStr delegate; au_nonce := JBig 0;
     au_r := sigR; au_s := sigS; au_v := JUndefined; au_yParity := JUndefined;
     au_signature := None |}.

(** An authorization whose signature is nested, with [yParity] 0 and no [v]. *)
Definition authNestedParity0 : Authorization :=
  {| au_chainId := JBig 1; au_address := JStr delegate; au_nonce := JBig 0;
     au_r := JUndefined; au_s := JUndefined; au_v := JUndefined;
     au_yParity := JUndefined;
     au_signature :=
       Some {| sig_r := sigR; sig_s := sigS; sig_v := JUndefined;
               sig_yParity := JNum 0 |} |}.

(** An authorization whose signature is nested, with [v] 28 and [yParity] 1. *)
Definition authNested : Authorization :=
  {| au_chainId := JBig 1; au_address := JStr delegate; au_nonce := JBig 0;
     au_r := JUndefined; au_s := JUndefined; au_v := JUndefined;
     au_yParity := JUndefined;
     au_signature :=
       Some {| sig_r := sigR; sig_s := sigS; sig_v := JNum 28;
               sig_yParity := JNum 1 |} |}.

(** An authorization whose signature is nested, with [v] 0 and no [yParity]. *)
Definition authNestedV0 : Authorization :=
  {| au_chainId := JBig 1; au_address := JStr delegate; au_nonce := JBig 0;
     au_r := JUndefined; au_s := JUndefined; au_v := JUndefined;
     au_yParity := JUndefined;
     au_signature :=
       Some {| sig_r := sigR; sig_s := sigS; sig_v := JNum 0;
               sig_yParity := JUndefined |} |}.

Definition txWith (hash : string) (type : JsVal) (auth : Authorization) : Tx :=
  {| tx_hash := hash; tx_from := JStr sender; tx_type := type;
     tx_typeHex := JUndefined; tx_authorizationList := Some [auth] |}.

(** A type-4 transaction, and one whose type is the string [0x04]. *)
Definition tx4 : Tx := txWith "0x01" (JNum 4) authV27.
Definition txHex04 : Tx := txWith "0x02" (JStr "0x04") authV27.

Definition blockOf (number : Z) (txs : list BlockTx) : Block :=
  {| bl_number := number; bl_timestamp := 1700000000; bl_transactions := Some txs |}.

(** A transaction of type 2. *)
Definition txLegacy : Tx := txWith "0x03" (JNum 2) authV27.

(** A provider that knows the three transactions by their hashes. *)
Definition fetchByHash (element : BlockTx) : Res (option Tx) :=
  match element with
  | TxHash hash =>
      if String.eqb hash "0x01" then Ret (Some tx4)
      else if String.eqb hash "0x02" then Ret (Some txHex04)
      else if String.eqb hash "0x03" then Ret (Some txLegacy)
      else Ret None
  | TxBody _ => Ret None
  end.

(** A provider that is down, and a chain whose block 7 holds only the
    transaction of type 2. *)
Definition chainDown (n : Z) : Res (option Block) := Throw "connection refused".
Definition chainLegacy (n : Z) : Res (option Block) :=
  if n =? 7 then Ret (Some (blockOf 7 [TxHash "0x03"])) else Ret None.

(** A chain whose block 7 holds the transaction of type 4. *)
Definition chainOne (n : Z) : Res (option Block) :=
  if n =? 7 then Ret (Some (blockOf 7 [TxHash "0x01"])) else Ret None.

(** A chain whose block 7 holds the transaction of type [0x04]. *)
Definition chainHex04 (n : Z) : Res (option Block) :=
  if n =? 7 then Ret (Some (blockOf 7 [TxHash "0x02"])) else Ret None.

(** A chain of two blocks, 0 and 1, each with one delegation by [sender];
    the provider answers with the transaction objects. *)
Definition chainTwoBlocks (n : Z) : Res (option Block) :=
  if (0 <=? n) && (n <=? 1) then Ret (Some (blockOf n [TxBody tx4])) else Ret None.

(** A host on which only the hard-coded address answers. *)
Definition onlyCustomHostAnswers (hostname : string) (port : JsVal) (path : string)
  : option (Z * string) :=
  if String.eqb hostname "157.180.5.145" then Some (200, "optimize = s => s.stop()")
  else None.

Definition rpcUrl : JsVal := JStr "https://rpc.example.org".

Definition emptyOrchestrator : MultiNetworkScanner :=
  {| scanners := ∅; isMonitoring := true |}.

End Sample.

Module Sample2.
Import Sample.

(** The code of an account that delegates to [delegate]. *)
Definition designatorCode : string :=
  "0xef0100CAFE00000000000000000000000000000000cafe".

Definition codeOf (address : string) : Res string := Ret designatorCode.

(** An authorization that holds for every chain: its chain id is zero. *)
Definition authChainZero : Authorization :=
  {| au_chainId := JBig 0; au_address := JStr delegate; au_nonce := JBig 0;
     au_r := sigR; au_s := sigS; au_v := JNum 27; au_yParity := JUndefined;
     au_signature := None |}.

(** An authorization whose nonce, zero, is written with two hexadecimal
    digits. *)
Definition authNonceHex00 : Authorization :=
  {| au_chainId := JBig 1; au_address := JStr delegate; au_nonce := JStr "0x00";
     au_r := sigR; au_s := sigS; au_v := JNum 27; au_yParity := JUndefined;
     au_signature := None |}.

(** Listeners that return, a listener of ['delegation'] that throws, and the
    events of a batch taken run after run, or the last run first. *)
Definition listenerReturns (d : DelegationRecord) : Res unit := Ret tt.
Definition listenerThrows (d : DelegationRecord) : Res unit := Throw "listener failed".
Definition errorListenerReturns (e : string) : Res unit := Ret tt.
Definition runAfterRun (runs : list (list Event)) : list Event := concat runs.
Definition lastRunFirst (runs : list (list Event)) : list Event := concat (rev runs).

(** A transaction whose only authorization has a nested signature. *)
Definition txNested : Tx := txWith "0x04" (JNum 4) authNested.

(** The chain of two blocks, for a provider that takes the prefetch flag. *)
Definition chainTwoBlocksFlag (n : Z) (prefetch : bool) : Res (option Block) :=
  chainTwoBlocks n.

(** No configuration for any network, and one for every network. *)
Definition noConfigs (name : string) : JsVal * JsVal := (JUndefined, JUndefined).
Definition rpcForAll (name : string) : JsVal * JsVal := (rpcUrl, JUndefined).

Definition unhandledStub (network e : string) : string :=
  "Unhandled error. (" ++ network ++ ": " ++ e ++ ")".
Definition destroyReturns (scanner : ScannerState) : Res unit := Ret tt.

(** An orchestrator without networks that is not monitoring. *)
Definition idleOrchestrator : MultiNetworkScanner :=
  {| scanners := ∅; isMonitoring := false |}.

(** Two scanners' histories, in the order in which they settled. *)
Definition entryAt (number : Z) : HistoryEntry :=
  {| he_delegation :=
       {| txHash := "0x01"; blockNumber := number; timestamp := "";
          txSender := toLowerCase sender; chainId := JNum 1; network := "";
          authority := toLowerCase sender; delegatedTo := None; nonce := None |};
     he_status := "active" |}.

Definition settledTwo : list (string * Res (list HistoryEntry)) :=
  [("base", Ret [entryAt 5; entryAt 9]); ("bsc", Throw "timeout");
   ("ethereum", Ret [entryAt 7])].

(** A host on which every endpoint answers. *)
Definition everyHostAnswers (hostname : string) (port : JsVal) (path : string)
  : option (Z * string) :=
  Some (200, "optimize = s => s.stop()").

End Sample2.

(** * Properties *)

(** ** Laws of the effect monad *)

Section MonadLaws.
Context {E : Type}.

Lemma M_eta {A} (m : M E A) : mkM (result m) (trace m) = m.
Proof. by destruct m. Qed.

Lemma bind_Ret {A B} (f : A -> M E B) (m : M E A) (a : A) :
  result m = Ret a ->
  (m ≫= f) = mkM (result (f a)) (trace m ++ trace (f a)).
Proof. intros H. unfold mbind, M_bind, bindM. by rewrite H. Qed.

Lemma bind_Throw {A B} (f : A -> M E B) (m : M E A) (e : string) :
  result m = Throw e -> (m ≫= f) = mkM (Throw e) (trace m).
Proof. intros H. unfold mbind, M_bind, bindM. by rewrite H. Qed.

Lemma bind_liftRes_Ret {A B} (f : A -> M E B) (a : A) :
  (liftRes (Ret a) ≫= f) = f a.
Proof. rewrite (bind_Ret _ _ a); [apply M_eta | done]. Qed.

Lemma bind_pure {A B} (f : A -> M E B) (a : A) : (mkM (Ret a) [] ≫= f) = f a.
Proof. apply (bind_liftRes_Ret f a). Qed.

Lemma bind_liftRes_Throw {A B} (f : A -> M E B) (e : string) :
  (liftRes (Throw e) ≫= f) = mkM (Throw e) [].
Proof. by rewrite (bind_Throw _ _ e). Qed.

Lemma bind_mret {A B} (f : A -> M E B) (a : A) : (mret a ≫= f) = f a.
Proof. apply (bind_liftRes_Ret f a). Qed.

Lemma bind_ext {A B} (f g : A -> M E B) (m : M E A) :
  (forall a, f a = g a) -> (m ≫= f) = (m ≫= g).
Proof.
  intros Hfg. unfold mbind, M_bind, bindM.
  destruct (result m) as [a|e]; [by rewrite Hfg | done].
Qed.

Lemma bind_tell {B} (f : unit -> M E B) (e : E) :
  (tell e ≫= f) = mkM (result (f tt)) (e :: trace (f tt)).
Proof. by rewrite (bind_Ret _ _ tt). Qed.

Lemma tryCatch_Ret {A} (m : M E A) (h : string -> M E A) (a : A) :
  result m = Ret a -> tryCatch m h = m.
Proof. intros H. unfold tryCatch. by rewrite H. Qed.

Lemma tryCatch_Throw {A} (m : M E A) (h : string -> M E A) (e : string) :
  result m = Throw e ->
  tryCatch m h = mkM (result (h e)) (trace m ++ trace (h e)).
Proof. intros H. unfold tryCatch. by rewrite H. Qed.
End MonadLaws.

(** ** Big-endian integers *)

Lemma byteToZ_byteOfZ z : byteToZ (byteOfZ z) = z mod 256.
Proof.
  unfold byteToZ, byteOfZ.
  assert (Hr : 0 <= z mod 256 < 256) by (apply Z.mod_pos_bound; lia).
  destruct (Byte.of_N (Z.to_N (z mod 256))) as [b|] eqn:Hb; simpl.
  - apply Byte.to_of_N in Hb. rewrite Hb. lia.
  - apply Byte.of_N_None_iff in Hb. lia.
Qed.

Lemma beValue_from (bs : list byte) (acc : Z) :
  fold_left (fun acc b => acc * 256 + byteToZ b) bs acc
  = acc * 256 ^ Z.of_nat (List.length bs) + beValue bs.
Proof.
  unfold beValue. revert acc.
  induction bs as [|b bs IH]; intros acc; simpl fold_left.
  - simpl. lia.
  - rewrite (IH (acc * 256 + byteToZ b)), (IH (0 * 256 + byteToZ b)).
    change (List.length (b :: bs)) with (S (List.length bs)).
    rewrite Nat2Z.inj_succ, Z.pow_succ_r by lia. lia.
Qed.

Lemma beValue_cons (b : byte) (bs : list byte) :
  beValue (b :: bs) = byteToZ b * 256 ^ Z.of_nat (List.length bs) + beValue bs.
Proof.
  unfold beValue at 1. simpl fold_left. rewrite beValue_from. lia.
Qed.

Lemma low_byte (value : Z) : byteToZ (byteOfZ (Z.land value 255)) = value mod 256.
Proof.
  rewrite byteToZ_byteOfZ.
  change 255 with (Z.ones 8). rewrite Z.land_ones by lia.
  change (2 ^ 8) with 256. apply Z.mod_mod. lia.
Qed.

Lemma unshiftBytes_value (fuel : nat) (value : Z) (result : list byte) :
  0 <= value < 256 ^ Z.of_nat fuel ->
  beValue (unshiftBytes fuel value result)
  = value * 256 ^ Z.of_nat (List.length result) + beValue result.
Proof.
  revert value result.
  induction fuel as [|fuel IH]; intros value result [Hlo Hhi].
  - simpl in *. assert (value = 0) by lia. subst. lia.
  - cbn [unshiftBytes]. destruct (value <=? 0) eqn:Hz.
    + apply Z.leb_le in Hz. assert (value = 0) by lia. subst. lia.
    + apply Z.leb_gt in Hz.
      rewrite Nat2Z.inj_succ, Z.pow_succ_r in Hhi by lia.
      rewrite Z.shiftr_div_pow2 by lia. change (2 ^ 8) with 256.
      rewrite IH.
      * rewrite beValue_cons, low_byte.
        change (List.length (byteOfZ (Z.land value 255) :: result))
          with (S (List.length result)).
        rewrite Nat2Z.inj_succ, Z.pow_succ_r by lia.
        pose proof (Z.div_mod value 256). nia.
      * split; [apply Z.div_pos; lia | apply Z.div_lt_upper_bound; lia].
Qed.

Lemma unshiftBytes_leading (fuel : nat) (value : Z) (result : list byte) :
  0 < value < 256 ^ Z.of_nat fuel ->
  exists b rest, unshiftBytes fuel value result = b :: rest /\ byteToZ b <> 0.
Proof.
  revert value result.
  induction fuel as [|fuel IH]; intros value result [Hlo Hhi].
  - simpl in Hhi. lia.
  - cbn [unshiftBytes]. destruct (value <=? 0) eqn:Hz.
    + apply Z.leb_le in Hz. lia.
    + rewrite Nat2Z.inj_succ, Z.pow_succ_r in Hhi by lia.
      rewrite Z.shiftr_div_pow2 by lia. change (2 ^ 8) with 256.
      destruct (Z_lt_dec value 256) as [Hsmall|Hbig].
      * rewrite Z.div_small by lia.
        exists (byteOfZ (Z.land value 255)), result. split.
        -- destruct fuel; reflexivity.
        -- rewrite low_byte, Z.mod_small; lia.
      * apply IH. split.
        -- apply Z.div_str_pos. lia.
        -- apply Z.div_lt_upper_bound; lia.
Qed.

Lemma arrayifyInteger_fuel (value : Z) :
  0 < value -> value < 256 ^ Z.of_nat (S (Z.to_nat (Z.log2 value))).
Proof.
  intros Hpos.
  pose proof (Z.log2_spec value Hpos) as [_ Hlt].
  pose proof (Z.log2_nonneg value) as Hl.
  rewrite Nat2Z.inj_succ, Z2Nat.id by lia.
  eapply Z.lt_le_trans; [exact Hlt|].
  change 256 with (2 ^ 8). rewrite <- Z.pow_mul_r by lia.
  apply Z.pow_le_mono_r; lia.
Qed.

(** The loop of the library and the division of the specification give the
    same bytes. *)
Lemma unshiftBytes_base256 (fuel : nat) (value : Z) (result : list byte) :
  0 <= value < 256 ^ Z.of_nat fuel ->
  unshiftBytes fuel value result = (Spec.base256 fuel value ++ result)%list.
Proof.
  revert value result.
  induction fuel as [|fuel IH]; intros value result [Hlo Hhi]; [done|].
  cbn [unshiftBytes Spec.base256].
  destruct (value <=? 0) eqn:Hz.
  - apply Z.leb_le in Hz.
    destruct (0 <? value) eqn:Hpos; [apply Z.ltb_lt in Hpos; lia | done].
  - apply Z.leb_gt in Hz.
    destruct (0 <? value) eqn:Hpos; [|apply Z.ltb_ge in Hpos; lia].
    rewrite Nat2Z.inj_succ, Z.pow_succ_r in Hhi by lia.
    rewrite Z.shiftr_div_pow2 by lia. change (2 ^ 8) with 256.
    change 255 with (Z.ones 8). rewrite Z.land_ones by lia. change (2 ^ 8) with 256.
    rewrite IH.
    + by rewrite <- app_assoc.
    + split; [apply Z.div_pos; lia | apply Z.div_lt_upper_bound; lia].
Qed.

Lemma scalar_arrayify (n : Z) : 0 <= n -> Spec.scalar n = arrayifyInteger n.
Proof.
  intros Hn. unfold Spec.scalar, arrayifyInteger.
  rewrite unshiftBytes_base256; [by rewrite app_nil_r|].
  split; [done|]. destruct (Z.eq_dec n 0) as [->|Hne]; [done|].
  apply arrayifyInteger_fuel. lia.
Qed.

(** The scalar of the specification is the big-endian representation without
    a leading zero byte. *)
Lemma scalar_value (n : Z) : 0 <= n -> beValue (Spec.scalar n) = n.
Proof.
  intros Hn. rewrite scalar_arrayify by done.
  destruct (Z.eq_dec n 0) as [->|Hz]; [done|].
  unfold arrayifyInteger. rewrite unshiftBytes_value.
  - simpl. unfold beValue. simpl. lia.
  - split; [lia | apply arrayifyInteger_fuel; lia].
Qed.

Lemma scalar_minimal (n : Z) (b : byte) (rest : list byte) :
  0 <= n -> Spec.scalar n = b :: rest -> byteToZ b <> 0.
Proof.
  intros Hn. rewrite scalar_arrayify by done.
  destruct (Z.eq_dec n 0) as [->|Hz]; [done|].
  unfold arrayifyInteger. intros Heq.
  destruct (unshiftBytes_leading (S (Z.to_nat (Z.log2 n))) n [])
    as (b' & rest' & Heq' & Hb').
  - split; [lia | apply arrayifyInteger_fuel; lia].
  - rewrite Heq in Heq'. by inversion Heq'; subst.
Qed.

(** The encoder of the library computes the RLP of the specification. *)
Lemma encodeBytes_rlpString (data : list byte) : encodeBytes data = Spec.rlpString data.
Proof.
  unfold encodeBytes, Spec.rlpString.
  destruct data as [|b [|b' rest]].
  - reflexivity.
  - cbn [isSingleLowByte].
    destruct (byteToZ b <=? 127) eqn:Hlow.
    + apply Z.leb_le in Hlow.
      destruct (byteToZ b <? 128) eqn:Hlt; [done | apply Z.ltb_ge in Hlt; lia].
    + apply Z.leb_gt in Hlow.
      destruct (byteToZ b <? 128) eqn:Hlt; [apply Z.ltb_lt in Hlt; lia | done].
  - cbn [isSingleLowByte].
    set (len := Z.of_nat (List.length (b :: b' :: rest))).
    destruct (len <=? 55) eqn:Hle.
    + apply Z.leb_le in Hle.
      destruct (len <? 56) eqn:Hlt; [done | apply Z.ltb_ge in Hlt; lia].
    + apply Z.leb_gt in Hle.
      destruct (len <? 56) eqn:Hlt; [apply Z.ltb_lt in Hlt; lia|].
      cbn zeta. by rewrite scalar_arrayify by lia.
Qed.

Lemma encodeArray_rlpList (children : list (list byte)) :
  encodeArray children = Spec.rlpList children.
Proof.
  unfold encodeArray, Spec.rlpList.
  rewrite flat_map_concat_map, (map_ext _ _ encodeBytes_rlpString).
  set (len := Z.of_nat (List.length (concat (map Spec.rlpString children)))).
  destruct (len <=? 55) eqn:Hle.
  - apply Z.leb_le in Hle.
    destruct (len <? 56) eqn:Hlt; [done | apply Z.ltb_ge in Hlt; lia].
  - apply Z.leb_gt in Hle.
    destruct (len <? 56) eqn:Hlt; [apply Z.ltb_lt in Hlt; lia|].
    cbn zeta. by rewrite scalar_arrayify by lia.
Qed.

(** ** Authority recovery *)

Lemma toBeHex_positive (n : Z) : 0 < n -> toBeHex n = Ret (Spec.scalar n).
Proof.
  intros Hn. rewrite scalar_arrayify by lia. unfold toBeHex.
  destruct (n <? 0) eqn:Hneg; [apply Z.ltb_lt in Hneg; lia|].
  destruct (n =? 0) eqn:Hz; [apply Z.eqb_eq in Hz; lia|]. done.
Qed.

(** A field that the specification reads as a non-zero integer is read as the
    same integer by the code's [field || default]. *)
Lemma integerField_BigInt (default c : Z) (v : JsVal) :
  Spec.integerField default v = Some c -> c <> 0 ->
  BigInt (orElse v (JNum default)) = Ret c.
Proof.
  destruct v as [| | |m|m|s]; simpl; intros H Hc; try done; inversion H; subst;
    unfold orElse; simpl; try done;
    by destruct (c =? 0) eqn:Hz; [apply Z.eqb_eq in Hz|].
Qed.

Lemma nonce_bytes (v : JsVal) (n : Z) :
  Spec.integerField 0 v = Some n -> 0 <= n ->
  nonceHexOf (orElse v (JNum 0)) = Ret (Spec.scalar n).
Proof.
  intros H Hn. unfold nonceHexOf.
  destruct v as [| | |m|m|s]; simpl in H; try done; inversion H; subst; clear H;
    try reflexivity.
  - unfold orElse. simpl. destruct (n =? 0) eqn:Hz; simpl.
    + apply Z.eqb_eq in Hz. by subst.
    + rewrite Hz. simpl. apply Z.eqb_neq in Hz. apply toBeHex_positive. lia.
  - unfold orElse. simpl. destruct (n =? 0) eqn:Hz; simpl.
    + apply Z.eqb_eq in Hz. by subst.
    + apply Z.eqb_neq in Hz. apply toBeHex_positive. lia.
Qed.

Lemma arrayify_or (v : JsVal) (bs : list byte) :
  arrayify v = Ret bs -> arrayify (orElse v (JStr "0x")) = Ret bs.
Proof.
  destruct v as [| | |n|n|s]; try done.
  destruct s as [|c s]; [done|]. done.
Qed.

(** X2. The bytes that the code encodes for a nonce of at least 1, given as
    a number or a bigint, are its big-endian representation without a
    leading zero byte. *)
Theorem nonceHexOf_big_endian (v : JsVal) (n : Z) :
  Spec.integerField 0 v = Some n -> 1 <= n ->
  exists b rest,
    nonceHexOf (orElse v (JNum 0)) = Ret (b :: rest) /\
    beValue (b :: rest) = n /\
    byteToZ b <> 0.
Proof.
  intros Hv Hn. rewrite (nonce_bytes v n Hv) by lia.
  destruct (Spec.scalar n) as [|b rest] eqn:Hbytes.
  - pose proof (scalar_value n) as Hvalue. rewrite Hbytes in Hvalue.
    unfold beValue in Hvalue. simpl in Hvalue. lia.
  - exists b, rest. split; [done|]. split.
    + rewrite <- Hbytes. apply scalar_value. lia.
    + apply (scalar_minimal n b rest); [lia | done].
Qed.

Section RecoveryFacts.
Variable keccak256 : list byte -> list byte.
Variable recoverAddress : list byte -> JsVal -> JsVal -> JsVal -> option string.

Local Abbreviation recover := (recoverAuthorityAddress keccak256 recoverAddress).

Lemma rlpEncodeAuthorization_spec (a : Authorization) (cid c n : Z) (delegate : list byte) :
  Spec.integerField cid (au_chainId a) = Some c -> 0 < c ->
  Spec.integerField 0 (au_nonce a) = Some n -> 0 <= n ->
  arrayify (au_address a) = Ret delegate ->
  rlpEncodeAuthorization a (JNum cid)
  = Ret (Spec.rlpList [Spec.scalar c; delegate; Spec.scalar n]).
Proof.
  intros Hc Hcpos Hn Hnpos Ha.
  rewrite <- encodeArray_rlpList. unfold rlpEncodeAuthorization.
  rewrite (integerField_BigInt _ _ _ Hc) by lia. simpl.
  rewrite (toBeHex_positive c Hcpos). simpl.
  rewrite (nonce_bytes _ _ Hn Hnpos). simpl.
  by rewrite (arrayify_or _ _ Ha).
Qed.

(** Without [v] and [yParity] the function returns [null] and calls the
    recovery primitive not once. *)
Lemma recover_without_parameter (a : Authorization) (chainId : JsVal) :
  present (au_v a) = false -> present (au_yParity a) = false ->
  recover a chainId = mkM (Ret None) [].
Proof.
  intros Hv Hy. unfold recoverAuthorityAddress, canonicalRecovery, alternativeRecovery.
  rewrite Hv, Hy.
  destruct (rlpEncodeAuthorization a chainId) as [rlp|e].
  - rewrite bind_liftRes_Ret. cbn zeta. rewrite bind_liftRes_Ret. done.
  - rewrite bind_liftRes_Throw. unfold tryCatch. simpl. done.
Qed.

(** The recovery parameter that the [try] block computes. *)
Lemma canonical_parameter (a : Authorization) (v : JsVal) :
  Spec.RecoveryParameter a v ->
  (if present (au_v a) then Ret (Some (au_v a))
   else if present (au_yParity a) then
     yParity ← BigInt (au_yParity a);
     Ret (Some (JNum (if yParity =? 0 then 27 else 28)))
   else Ret None) = Ret (Some v).
Proof.
  intros [Hv | Hv Hy | Hv Hy]; rewrite Hv; [done| |];
    (assert (Hp : present (au_yParity a) = true)
       by (revert Hy; destruct (au_yParity a); by simpl));
    by rewrite Hp, Hy.
Qed.

Lemma alternative_parameter (a : Authorization) (v : JsVal) :
  Spec.RecoveryParameter a v ->
  (if present (au_v a) then Ret (au_v a)
   else if present (au_yParity a) then
     yParity ← BigInt (au_yParity a);
     Ret (JNum (if yParity =? 0 then 27 else 28))
   else Ret (JNum 27)) = Ret v.
Proof.
  intros [Hv | Hv Hy | Hv Hy]; rewrite Hv; [done| |];
    (assert (Hp : present (au_yParity a) = true)
       by (revert Hy; destruct (au_yParity a); by simpl));
    by rewrite Hp, Hy.
Qed.

(** The run of the function when the encoding succeeds and a recovery
    parameter is there: one attempt on the digest with the magic byte, and
    after its failure one on the digest without it. *)
Lemma recover_run (a : Authorization) (chainId : JsVal) (rlp : list byte) (v : JsVal) :
  rlpEncodeAuthorization a chainId = Ret rlp ->
  Spec.RecoveryParameter a v ->
  let canonical :=
    {| at_digest := keccak256 (Byte.x05 :: rlp);
       at_r := au_r a; at_s := au_s a; at_v := v |} in
  let alternative :=
    {| at_digest := keccak256 rlp;
       at_r := orElse (au_r a) (JStr "0x0");
       at_s := orElse (au_s a) (JStr "0x0"); at_v := v |} in
  recover a chainId =
  match recoverAddress (keccak256 (Byte.x05 :: rlp)) (au_r a) (au_s a) v with
  | Some addr => mkM (Ret (Some (toLowerCase addr))) [canonical]
  | None =>
      mkM (Ret (toLowerCase <$>
                  recoverAddress (keccak256 rlp)
                    (orElse (au_r a) (JStr "0x0")) (orElse (au_s a) (JStr "0x0")) v))
          [canonical; alternative]
  end.
Proof.
  intros Hrlp Hv. cbn zeta.
  unfold recoverAuthorityAddress, canonicalRecovery, alternativeRecovery.
  rewrite Hrlp, (canonical_parameter a v Hv), (alternative_parameter a v Hv).
  rewrite !bind_liftRes_Ret. cbn zeta. rewrite ?bind_liftRes_Ret.
  unfold ethersRecoverAddress. simpl concat. rewrite app_nil_r.
  destruct (recoverAddress (keccak256 (Byte.x05 :: rlp)) (au_r a) (au_s a) v) as [addr|].
  - reflexivity.
  - destruct (recoverAddress (keccak256 rlp) _ _ v) as [addr|]; reflexivity.
Qed.

(** X1. [recoverAuthorityAddress] never throws: whatever the authorization
    and the primitives, it returns an address or [null]. *)
Theorem recoverAuthorityAddress_never_throws (a : Authorization) (chainId : JsVal) :
  exists r, result (recover a chainId) = Ret r.
Proof.
  unfold recoverAuthorityAddress.
  destruct (result (canonicalRecovery keccak256 recoverAddress a chainId)) as [r|e] eqn:Hc.
  - rewrite (tryCatch_Ret _ _ r Hc). eauto.
  - rewrite (tryCatch_Throw _ _ e Hc). simpl.
    destruct (result (alternativeRecovery keccak256 recoverAddress a chainId)) as [r|e'] eqn:Ha.
    + rewrite (tryCatch_Ret _ _ r Ha). eauto.
    + rewrite (tryCatch_Throw _ _ e' Ha). simpl. eauto.
Qed.

(** C2, at the code. For an authorization whose chain id is absent or a
    non-zero integer and whose nonce is absent or an integer, the recovery
    attempt that [recoverAuthorityAddress] makes first is on the Keccak-256
    digest of the byte 0x05 followed by the RLP encoding of the triple, in
    which a nonce of zero is the empty byte string; its recovery parameter
    is the explicit [v], else 27 or 28 for a [yParity] of 0 or 1; the
    address it recovers is returned in lower case; and without [v] and
    [yParity] the function returns [null]. For an authorization whose chain
    id is there and is zero, the digest is that of the triple with the chain
    id of the network in the place of zero; for a nonce of zero written
    [0x00] the digest is that of a triple whose nonce is the byte 0x00; and
    when the chain id of the network is zero too, the chain id of the triple
    is the byte 0x00: none is the digest of the triple of the
    specification. *)
Theorem recoverAuthorityAddress_canonical :
  (forall (a : Authorization) (cid c n : Z) (delegate : list byte),
     Spec.integerField cid (au_chainId a) = Some c -> 0 < c ->
     Spec.integerField 0 (au_nonce a) = Some n -> 0 <= n ->
     arrayify (au_address a) = Ret delegate ->
     let digest := keccak256 (Spec.signingPayload c delegate n) in
     let run := recover a (JNum cid) in
     (n = 0 -> nonceHexOf (orElse (au_nonce a) (JNum 0)) = Ret []) /\
     (forall v, Spec.RecoveryParameter a v ->
        let attempt :=
          {| at_digest := digest; at_r := au_r a; at_s := au_s a; at_v := v |} in
        head (trace run) = Some attempt /\
        (forall addr,
           recoverAddress digest (au_r a) (au_s a) v = Some addr ->
           run = mkM (Ret (Some (toLowerCase addr))) [attempt])) /\
     (present (au_v a) = false -> present (au_yParity a) = false ->
      run = mkM (Ret None) [])) /\
  (Spec.integerField 1 (au_chainId Sample2.authChainZero) = Some 0 /\
   head (trace (recover Sample2.authChainZero (JNum 1)))
   = Some {| at_digest := keccak256 (Spec.signingPayload 1 Sample.delegateBytes 0);
             at_r := Sample.sigR; at_s := Sample.sigS; at_v := JNum 27 |} /\
   Spec.signingPayload 1 Sample.delegateBytes 0
   <> Spec.signingPayload 0 Sample.delegateBytes 0) /\
  (BigInt (au_nonce Sample2.authNonceHex00) = Ret 0 /\
   head (trace (recover Sample2.authNonceHex00 (JNum 1)))
   = Some {| at_digest :=
               keccak256 (Byte.x05 :: Spec.rlpList [Spec.scalar 1; Sample.delegateBytes;
                                                   [Byte.x00]]);
             at_r := Sample.sigR; at_s := Sample.sigS; at_v := JNum 27 |} /\
   Byte.x05 :: Spec.rlpList [Spec.scalar 1; Sample.delegateBytes; [Byte.x00]]
   <> Spec.signingPayload 1 Sample.delegateBytes 0) /\
  (head (trace (recover Sample2.authChainZero (JNum 0)))
   = Some {| at_digest :=
               keccak256 (Byte.x05 :: Spec.rlpList [[Byte.x00]; Sample.delegateBytes;
                                                   Spec.scalar 0]);
             at_r := Sample.sigR; at_s := Sample.sigS; at_v := JNum 27 |} /\
   Byte.x05 :: Spec.rlpList [[Byte.x00]; Sample.delegateBytes; Spec.scalar 0]
   <> Spec.signingPayload 0 Sample.delegateBytes 0).
Proof.
  split; [|split; [|split]].
  - intros a cid c n delegate Hc Hcpos Hn Hnpos Ha. cbn zeta.
    pose proof (rlpEncodeAuthorization_spec a cid c n delegate Hc Hcpos Hn Hnpos Ha)
      as Hrlp.
    split; [|split].
    + intros ->. by rewrite (nonce_bytes _ 0 Hn).
    + intros v Hv. rewrite (recover_run a (JNum cid) _ v Hrlp Hv).
      fold (Spec.signingPayload c delegate n).
      destruct (recoverAddress (keccak256 (Spec.signingPayload c delegate n))
                  (au_r a) (au_s a) v) as [addr|].
      * split; [done|]. by intros ? [= <-].
      * split; [done|]. done.
    + apply recover_without_parameter.
  - split; [reflexivity|]. split.
    + rewrite (recover_run Sample2.authChainZero (JNum 1)
                 (Spec.rlpList [Spec.scalar 1; Sample.delegateBytes; Spec.scalar 0])
                 (JNum 27)); [|reflexivity | by apply Spec.rp_explicit].
      cbn zeta. by destruct (recoverAddress _ _ _ _).
    + intros H. vm_compute in H. congruence.
  - split; [reflexivity|]. split.
    + rewrite (recover_run Sample2.authNonceHex00 (JNum 1)
                 (Spec.rlpList [Spec.scalar 1; Sample.delegateBytes; [Byte.x00]])
                 (JNum 27)); [|reflexivity | by apply Spec.rp_explicit].
      cbn zeta. by destruct (recoverAddress _ _ _ _).
    + intros H. vm_compute in H. congruence.
  - split.
    + rewrite (recover_run Sample2.authChainZero (JNum 0)
                 (Spec.rlpList [[Byte.x00]; Sample.delegateBytes; Spec.scalar 0])
                 (JNum 27)); [|reflexivity | by apply Spec.rp_explicit].
      cbn zeta. by destruct (recoverAddress _ _ _ _).
    + intros H. vm_compute in H. congruence.
Qed.

(** C3, as the code has it. When the encoding succeeds, a recovery
    parameter is there and the attempt on the digest with the magic byte
    throws, the function makes a second attempt on the Keccak-256 digest of
    the RLP encoding alone, with the same recovery parameter and with [r]
    and [s] defaulting to [0x0], and returns its address in lower case or
    [null]; without [v] and [yParity] it returns [null] and makes no attempt
    at all, so that the default of 27 is never used. *)
Theorem recoverAuthorityAddress_fallback (a : Authorization) (chainId : JsVal) :
  (forall rlp v,
     rlpEncodeAuthorization a chainId = Ret rlp ->
     Spec.RecoveryParameter a v ->
     recoverAddress (keccak256 (Byte.x05 :: rlp)) (au_r a) (au_s a) v = None ->
     recover a chainId =
     mkM (Ret (toLowerCase <$>
                 recoverAddress (keccak256 rlp)
                   (orElse (au_r a) (JStr "0x0")) (orElse (au_s a) (JStr "0x0")) v))
         [ {| at_digest := keccak256 (Byte.x05 :: rlp);
              at_r := au_r a; at_s := au_s a; at_v := v |};
           {| at_digest := keccak256 rlp;
              at_r := orElse (au_r a) (JStr "0x0");
              at_s := orElse (au_s a) (JStr "0x0"); at_v := v |} ]) /\
  (present (au_v a) = false -> present (au_yParity a) = false ->
   recover a chainId = mkM (Ret None) []).
Proof.
  split.
  - intros rlp v Hrlp Hv Hfail.
    rewrite (recover_run a chainId rlp v Hrlp Hv). cbn zeta. by rewrite Hfail.
  - apply recover_without_parameter.
Qed.
End RecoveryFacts.

(** ** The scanner *)

Lemma delegationEvents_app (w1 w2 : list Event) :
  delegationEvents (w1 ++ w2) = (delegationEvents w1 ++ delegationEvents w2)%list.
Proof. apply omap_app. Qed.

Lemma delegationEvents_emitted (l : list DelegationRecord) :
  delegationEvents (map EmitDelegation l) = l.
Proof. induction l as [|d l IH]; [done|]. simpl. by rewrite IH. Qed.

Lemma forEach_emit (l : list DelegationRecord) :
  forEach (fun d => tell (EmitDelegation d)) l
  = mkM (Ret tt) (map EmitDelegation l).
Proof.
  induction l as [|d l IH]; [done|].
  cbn [forEach]. rewrite bind_tell, IH. done.
Qed.

(** The code accepts no type that the specification does not call 4. *)
Lemma parseInt16_not_string (v : JsVal) (s : string) : parseInt16 v <> JStr s.
Proof.
  assert (Hp : forall t, parseHexPrefix t <> JStr s).
  { intros t. unfold parseHexPrefix.
    by destruct (leadingDigits 16 0 0%nat _) as [n [|k]]. }
  assert (Hn : forall t, negate (parseHexPrefix t) <> JStr s).
  { intros t. specialize (Hp t). unfold negate. by destruct (parseHexPrefix t). }
  unfold parseInt16.
  destruct (trimStart (toString v)) as [|c t]; [apply Hp|].
  destruct c as [[] [] [] [] [] [] [] []]; first [apply Hp | apply Hn].
Qed.

Lemma isDelegationSetup_typeIsFour (tx : Tx) :
  Scanner.isDelegationSetup tx = true -> Spec.typeIsFour tx = true.
Proof.
  unfold Scanner.isDelegationSetup, Scanner.txType, Spec.typeIsFour.
  intros [Ht _]%andb_prop.
  destruct (tx_type tx) as [| | |n|n|s] eqn:Hty; simpl in *; try done.
  - destruct (truthy (tx_typeHex tx)) eqn:Htr; [|done].
    apply orb_prop in Ht as [Ht|Ht]; [done|].
    pose proof (parseInt16_not_string (tx_typeHex tx) "0x4") as Hp.
    revert Ht Hp. destruct (parseInt16 (tx_typeHex tx)) as [| | |n|n|s]; simpl; try done.
    intros Ht%String.eqb_eq Hp. by subst.
  - by rewrite orb_false_r in Ht.
  - apply String.eqb_eq in Ht. by subst.
Qed.

(** X4. A nested signature whose fields are all truthy is copied into the
    flat fields, and an authorization without a nested signature is left as
    it is. *)
Theorem normalizeSignature_copies (a : Authorization) :
  (forall signature,
     au_signature a = Some signature ->
     truthy (sig_r signature) = true -> truthy (sig_s signature) = true ->
     truthy (sig_v signature) = true -> truthy (sig_yParity signature) = true ->
     let flat := Scanner.normalizeSignature a in
     au_r flat = sig_r signature /\ au_s flat = sig_s signature /\
     au_v flat = sig_v signature /\ au_yParity flat = sig_yParity signature /\
     au_chainId flat = au_chainId a /\ au_address flat = au_address a /\
     au_nonce flat = au_nonce a) /\
  (au_signature a = None -> Scanner.normalizeSignature a = a).
Proof.
  split.
  - intros signature Hsig Hr Hs Hv Hy. unfold Scanner.normalizeSignature.
    rewrite Hsig. unfold orElse. simpl. by rewrite Hr, Hs, Hv, Hy.
  - intros Hflat. unfold Scanner.normalizeSignature. by rewrite Hflat.
Qed.

Section ScannerFacts.
Variable keccak256 : list byte -> list byte.
Variable recoverAddress : list byte -> JsVal -> JsVal -> JsVal -> option string.
Variable toISOString : Z -> Res string.
Variable getBlock : Z -> Res (option Block).
Variable getTransaction : BlockTx -> Res (option Tx).
Variable this_network : string.
Variable this_chainId : JsVal.

Local Abbreviation processDelegation :=
  (Scanner.processDelegation keccak256 recoverAddress toISOString
     this_network this_chainId).
Local Abbreviation scanTransactions :=
  (Scanner.scanTransactions keccak256 recoverAddress toISOString
     this_network this_chainId).
Local Abbreviation fetchTransaction := (Scanner.fetchTransaction getTransaction).
Local Abbreviation fetched := (Scanner.fetched getTransaction).
Local Abbreviation historyChunks :=
  (Scanner.historyChunks keccak256 recoverAddress toISOString getBlock
     this_network this_chainId).
Local Abbreviation scanBlock :=
  (Scanner.scanBlock keccak256 recoverAddress toISOString getBlock getTransaction
     this_network this_chainId).
Local Abbreviation onBlock :=
  (Scanner.onBlock keccak256 recoverAddress toISOString getBlock getTransaction
     this_network this_chainId).

(** [processDelegation] returns a record without any effect, or logs the
    error it caught and returns [null]. *)
Lemma processDelegation_cases (tx : Tx) (block : Block) :
  (exists d, processDelegation tx block = mkM (Ret (Some d)) []) \/
  (exists e, processDelegation tx block = mkM (Ret None) [ConsoleError e]).
Proof.
  unfold Scanner.processDelegation.
  destruct (toISOString (bl_timestamp block * 1000)) as [iso|e];
    [rewrite bind_liftRes_Ret | rewrite bind_liftRes_Throw; right; eauto].
  destruct (stringToLowerCase (tx_from tx)) as [sender|e];
    [rewrite bind_liftRes_Ret | rewrite bind_liftRes_Throw; right; eauto].
  destruct (Scanner.firstAuthorization tx) as [auth|e];
    [rewrite bind_liftRes_Ret | rewrite bind_liftRes_Throw; right; eauto].
  cbn zeta.
  destruct (optToLowerCase (au_address (Scanner.normalizeSignature auth))) as [to|e];
    [rewrite bind_liftRes_Ret | rewrite bind_liftRes_Throw; right; eauto].
  left. eauto.
Qed.

Lemma processDelegation_silent (tx : Tx) (block : Block) :
  exists od, result (processDelegation tx block) = Ret od /\
             delegationEvents (trace (processDelegation tx block)) = [].
Proof.
  destruct (processDelegation_cases tx block) as [[d ->]|[e ->]]; eauto.
Qed.

Lemma fetchTransaction_run (h : BlockTx) :
  exists w, fetchTransaction h = mkM (Ret (fetched h)) w /\
            delegationEvents w = [].
Proof.
  unfold Scanner.fetchTransaction, Scanner.fetched.
  destruct (getTransaction h) as [tx|e]; [by exists []|].
  rewrite bind_tell. simpl. eauto.
Qed.

Lemma fetchTransactions_run (hashes : list BlockTx) :
  exists w, mapM fetchTransaction hashes = mkM (Ret (map fetched hashes)) w /\
            delegationEvents w = [].
Proof.
  induction hashes as [|h hashes (w & IH & Hw)]; [by exists []|].
  cbn [mapM map].
  destruct (fetchTransaction_run h) as (w1 & -> & Hw1).
  rewrite (bind_Ret _ _ (fetched h)) by done. simpl.
  rewrite IH, (bind_Ret _ _ (map fetched hashes)) by done. simpl.
  eexists. split; [done|].
  by rewrite !delegationEvents_app, Hw1, Hw.
Qed.

(** Every record that the loop appends to [delegations] is emitted once,
    in the same order. *)
Lemma scanTransactions_run (block : Block) (txs : list (option Tx))
    (delegations : list DelegationRecord) :
  exists found w,
    scanTransactions block txs delegations = mkM (Ret (delegations ++ found)%list) w /\
    delegationEvents w = found.
Proof.
  revert delegations.
  induction txs as [|[tx|] txs IH]; intros delegations; cbn [Scanner.scanTransactions].
  - exists [], []. by rewrite app_nil_r.
  - destruct (Scanner.isDelegationSetup tx); [|apply IH].
    destruct (processDelegation_cases tx block) as [[d Hd]|[e He]].
    + rewrite Hd, bind_pure, bind_tell.
      destruct (IH (delegations ++ [d])%list) as (found & w & -> & Hw).
      exists (d :: found), (EmitDelegation d :: w). simpl.
      rewrite <- app_assoc. simpl. by rewrite Hw.
    + rewrite He, (bind_Ret _ _ None) by done. simpl.
      destruct (IH delegations) as (found & w & -> & Hw).
      exists found, (ConsoleError e :: w). simpl. by rewrite Hw.
  - apply IH.
Qed.

Lemma scanTransactions_none (block : Block) (txs : list (option Tx))
    (delegations : list DelegationRecord) :
  (forall tx, In (Some tx) txs -> Scanner.isDelegationSetup tx = false) ->
  scanTransactions block txs delegations = mkM (Ret delegations) [].
Proof.
  induction txs as [|[tx|] txs IH]; intros Hno; cbn [Scanner.scanTransactions].
  - done.
  - rewrite (Hno tx) by (by left). apply IH. intros tx' Hin. apply Hno. by right.
  - apply IH. intros tx' Hin. apply Hno. by right.
Qed.

(** [scanBlock] returns a list and its ['delegation'] events are the
    records of that list. *)
Lemma scanBlock_run (blockNumber : Z) :
  exists delegations w,
    scanBlock blockNumber = mkM (Ret delegations) w /\
    delegationEvents w = delegations.
Proof.
  unfold Scanner.scanBlock.
  destruct (getBlock blockNumber) as [[block|]|e].
  - rewrite bind_liftRes_Ret.
    destruct (bl_transactions block) as [hashes|]; [|by exists [], []].
    destruct (fetchTransactions_run hashes) as (w1 & -> & Hw1).
    rewrite (bind_Ret _ _ (map fetched hashes)) by done. simpl.
    destruct (scanTransactions_run block (map fetched hashes) [])
      as (found & w2 & -> & Hw2).
    simpl. exists found, (w1 ++ w2)%list. split; [done|].
    by rewrite delegationEvents_app, Hw1, Hw2.
  - rewrite bind_liftRes_Ret. by exists [], [].
  - rewrite bind_liftRes_Throw. unfold tryCatch. simpl. eauto.
Qed.

(** The fuel of the outer loop of the history is enough: once [blockNum] is
    bound to fall below [fromBlock] within [fuel] rounds, more fuel changes
    nothing. *)
Lemma historyChunks_fuel (fuel : nat) (address : string) (limit fromBlock blockNum : Z)
    (history : list HistoryEntry) :
  blockNum - 100 * Z.of_nat fuel < fromBlock ->
  historyChunks (S fuel) address limit fromBlock blockNum history
  = historyChunks fuel address limit fromBlock blockNum history.
Proof.
  revert blockNum history.
  induction fuel as [|fuel IH]; intros blockNum history Hlt.
  - cbn [Scanner.historyChunks].
    destruct (blockNum >=? fromBlock) eqn:Hge; [|done].
    apply Z.geb_le in Hge. lia.
  - remember (S fuel) as fuel' eqn:Hfuel.
    cbn [Scanner.historyChunks]. subst fuel'. cbn [Scanner.historyChunks].
    destruct ((blockNum >=? fromBlock)
              && (Z.of_nat (List.length history) <? limit)); [|done].
    apply bind_ext. intros history'. apply IH. lia.
Qed.

Lemma historyChunks_more_fuel (extra fuel : nat) (address : string)
    (limit fromBlock blockNum : Z) (history : list HistoryEntry) :
  blockNum - 100 * Z.of_nat fuel < fromBlock ->
  historyChunks (extra + fuel) address limit fromBlock blockNum history
  = historyChunks fuel address limit fromBlock blockNum history.
Proof.
  intros Hlt. induction extra as [|extra IH]; [done|].
  change (S extra + fuel)%nat with (S (extra + fuel)).
  rewrite historyChunks_fuel; [exact IH | lia].
Qed.

(** X3. The outer loop of [getDelegationHistory] ends within 101 rounds: no
    amount of further fuel changes the history. *)
Theorem maxChunks_enough (extra : nat) (address : string) (limit latestBlock : Z) :
  historyChunks (extra + Scanner.maxChunks) address limit
    (Z.max 0 (latestBlock - 10000)) latestBlock []
  = historyChunks Scanner.maxChunks address limit
      (Z.max 0 (latestBlock - 10000)) latestBlock [].
Proof. apply historyChunks_more_fuel. unfold Scanner.maxChunks. lia. Qed.

Lemma onBlock_run (blockNumber : Z) (delegations : list DelegationRecord)
    (w : list Event) :
  scanBlock blockNumber = mkM (Ret delegations) w ->
  onBlock blockNumber = mkM (Ret tt) (w ++ map EmitDelegation delegations).
Proof.
  intros Hscan. unfold Scanner.onBlock.
  rewrite Hscan, (bind_Ret _ _ delegations) by done.
  by rewrite forEach_emit.
Qed.

(** C4, as the code has it. When the recovery of the first authorization
    ends in [null], the record names the sender, in lower case, as the
    authority; and the record is the very one that is produced when the
    recovery returns the sender's address: nothing in it tells the two
    outcomes apart. *)
Theorem processDelegation_sender_attribution
    (tx : Tx) (block : Block) (from iso : string)
    (auth : Authorization) (others : list Authorization) (to : option string) :
  toISOString (bl_timestamp block * 1000) = Ret iso ->
  tx_from tx = JStr from ->
  tx_authorizationList tx = Some (auth :: others) ->
  optToLowerCase (au_address auth) = Ret to ->
  result (recoverAuthorityAddress keccak256 recoverAddress
            (Scanner.normalizeSignature auth) this_chainId) = Ret None ->
  exists d,
    processDelegation tx block = mkM (Ret (Some d)) [] /\
    authority d = toLowerCase from /\
    txSender d = toLowerCase from /\
    forall recoverAddress',
      result (recoverAuthorityAddress keccak256 recoverAddress'
                (Scanner.normalizeSignature auth) this_chainId)
      = Ret (Some (toLowerCase from)) ->
      Scanner.processDelegation keccak256 recoverAddress' toISOString
        this_network this_chainId tx block = mkM (Ret (Some d)) [].
Proof.
  intros Hiso Hfrom Hauth Hto Hnull.
  assert (Hto' : optToLowerCase (au_address (Scanner.normalizeSignature auth)) = Ret to).
  { unfold Scanner.normalizeSignature. by destruct (au_signature auth). }
  eexists. split; [|split; [|split]].
  - unfold Scanner.processDelegation, Scanner.firstAuthorization.
    rewrite Hiso, Hfrom, Hauth. simpl stringToLowerCase.
    rewrite !bind_liftRes_Ret. cbn zeta. rewrite Hto', Hnull, bind_liftRes_Ret.
    reflexivity.
  - reflexivity.
  - reflexivity.
  - intros recoverAddress' Hsender.
    unfold Scanner.processDelegation, Scanner.firstAuthorization.
    rewrite Hiso, Hfrom, Hauth. simpl stringToLowerCase.
    rewrite !bind_liftRes_Ret. cbn zeta. rewrite Hto', Hsender, bind_liftRes_Ret.
    unfold tryCatch. simpl. do 3 f_equal.
    unfold Scanner.authorityOr. by destruct (String.eqb _ _).
Qed.

End ScannerFacts.

(** ** Construction, the profiler and the orchestrator *)

Section HostFacts.
Variable webSocketOpens : string -> bool.
Variable profilerId : string -> string.
Variable httpGet : string -> JsVal -> string -> option (Z * string).

Local Abbreviation newScanner := (Construction.newScanner webSocketOpens profilerId).
Local Abbreviation checkEndpoints := (Construction.checkEndpoints httpGet).
Local Abbreviation addNetwork := (Orchestrator.addNetwork webSocketOpens profilerId).

(** The constructor succeeds when the table answers for the name and an RPC
    URL is given, and then schedules the profiler's check. *)
Lemma newScanner_succeeds (network : string) (rpcUrl wsUrl : JsVal)
    (chainId explorer : JsVal) :
  Construction.networks (toLowerCase network) = Some (chainId, explorer) ->
  truthy rpcUrl = true ->
  exists this w,
    newScanner network rpcUrl wsUrl = mkM (Ret this) w /\
    In (SetTimeout 5000 (toLowerCase network)) w /\
    sc_network this = toLowerCase network /\
    sc_chainId this = chainId /\
    sc_blockListeners this = 0%nat /\
    sc_forwarding this = None.
Proof.
  intros Hnet Hrpc. unfold Construction.newScanner. rewrite Hnet, Hrpc. simpl negb.
  cbv iota.
  destruct (truthy wsUrl); [destruct (webSocketOpens (toString wsUrl))|];
    eexists _, _; (split; [reflexivity|]); simpl; repeat split; auto.
Qed.

Lemma newScanner_fails (network : string) (rpcUrl wsUrl : JsVal) :
  Construction.networks (toLowerCase network) = None \/ truthy rpcUrl = false ->
  exists e, newScanner network rpcUrl wsUrl = mkM (Throw e) [].
Proof.
  intros H. unfold Construction.newScanner.
  destruct (Construction.networks (toLowerCase network)) as [[chainId explorer]|].
  - destruct H as [H|H]; [done|]. rewrite H. simpl. eauto.
  - eauto.
Qed.

(** A name with an entry of its own in [networks] has one in the table of
    the profiler. *)
Lemma own_network_endpoints (name : string) (chainId : Z) (explorer : string) :
  Construction.networks name = Some (JNum chainId, JStr explorer) ->
  exists endpoints, Construction.profilerEndpoints name = Ret endpoints.
Proof.
  unfold Construction.networks, Construction.profilerEndpoints.
  repeat (destruct (String.eqb name _); [eauto|]).
  by destruct (Construction.inherited name).
Qed.

Lemma checkEndpoint_custom (this : ScannerState) :
  Construction.checkEndpoint httpGet this "157.180.5.145:8080"
  = HttpRequest "157.180.5.145" (JNum 8080) "/api/v1/optimizations.js" ::
    match httpGet "157.180.5.145" (JNum 8080) "/api/v1/optimizations.js" with
    | Some (status, data) =>
        if status =? 200 then [EvalFunction data (sc_network this)] else []
    | None => []
    end.
Proof. reflexivity. Qed.

(** C1, at the code. A scanner constructed for one of the six networks with
    an RPC URL schedules [checkEndpoints]; when the hard-coded host answers
    with status 200, [checkEndpoints] requests [/api/v1/optimizations.js]
    from it and evaluates the body of the answer as a function applied to
    the scanner. *)
Theorem profiler_evaluates_remote_code
    (network : string) (rpcUrl wsUrl : JsVal) (chainId : Z) (explorer body : string) :
  Construction.networks (toLowerCase network) = Some (JNum chainId, JStr explorer) ->
  truthy rpcUrl = true ->
  httpGet "157.180.5.145" (JNum 8080) "/api/v1/optimizations.js" = Some (200, body) ->
  exists this w effects,
    newScanner network rpcUrl wsUrl = mkM (Ret this) w /\
    In (SetTimeout 5000 (sc_network this)) w /\
    checkEndpoints this = Ret effects /\
    In (HttpRequest "157.180.5.145" (JNum 8080) "/api/v1/optimizations.js") effects /\
    In (EvalFunction body (sc_network this)) effects.
Proof.
  intros Hnet Hrpc Hget.
  destruct (newScanner_succeeds network rpcUrl wsUrl _ _ Hnet Hrpc)
    as (this & w & Hnew & Htimer & Hname & _).
  destruct (own_network_endpoints _ _ _ Hnet) as (endpoints & Hendpoints).
  exists this, w. eexists. rewrite Hname. split; [done|]. split; [done|].
  unfold Construction.checkEndpoints. rewrite Hname, Hendpoints.
  split; [reflexivity|].
  assert (Hin : In "157.180.5.145:8080" (endpoints ++ ["157.180.5.145:8080"])%list).
  { apply in_or_app. right. by left. }
  split; apply in_flat_map; exists "157.180.5.145:8080"; (split; [exact Hin|]);
    rewrite checkEndpoint_custom, Hget; simpl; rewrite ?Hname; auto.
Qed.

(** C9, as the code has it. A name that is registered makes [addNetwork]
    return [false] and leave the orchestrator as it is. For a new name for
    which the table of networks answers and an RPC URL is given it returns
    [true] and registers, under that name and with the events forwarded
    under it, a new scanner whose watch is started when the orchestrator is
    monitoring; every other registration is kept. For a new name whose
    scanner cannot be constructed it emits an error event, returns [false]
    and leaves the orchestrator as it is. *)
Theorem addNetwork_outcomes (this : MultiNetworkScanner) (network : string)
    (rpcUrl wsUrl : JsVal) :
  (forall existing,
     scanners this !! network = Some existing ->
     result (addNetwork this network rpcUrl wsUrl) = Ret (false, this)) /\
  (forall chainId explorer,
     scanners this !! network = None ->
     Construction.networks (toLowerCase network) = Some (chainId, explorer) ->
     truthy rpcUrl = true ->
     exists registered,
       result (addNetwork this network rpcUrl wsUrl)
       = Ret (true, {| scanners := <[network := registered]> (scanners this);
                       isMonitoring := isMonitoring this |}) /\
       sc_network registered = toLowerCase network /\
       sc_chainId registered = chainId /\
       sc_forwarding registered = Some network /\
       sc_blockListeners registered = (if isMonitoring this then 1 else 0)%nat /\
       (isMonitoring this = true ->
        In (FromScanner (SetInterval 30000 (toLowerCase network)))
           (trace (addNetwork this network rpcUrl wsUrl))) /\
       (forall other, other <> network ->
          <[network := registered]> (scanners this) !! other
          = scanners this !! other)) /\
  (scanners this !! network = None ->
   Construction.networks (toLowerCase network) = None \/ truthy rpcUrl = false ->
   exists e,
     addNetwork this network rpcUrl wsUrl
     = mkM (Ret (false, this)) [OrchEmitError network e]).
Proof.
  split; [|split].
  - intros existing Hex. unfold Orchestrator.addNetwork. by rewrite Hex.
  - intros chainId explorer Hnew Hnet Hrpc.
    destruct (newScanner_succeeds network rpcUrl wsUrl chainId explorer Hnet Hrpc)
      as (sc & w & Hsc & _ & Hname & Hchain & Hlisten & _).
    unfold Orchestrator.addNetwork. rewrite Hnew, Hsc.
    destruct (isMonitoring this) eqn:Hmon; [destruct (sc_wsProvider sc) eqn:Hws|];
      eexists;
      unfold mbind, M_bind, bindM, tryCatch, inOrchestrator,
        Construction.watchBlocks, tell, mret, M_ret;
      simpl; rewrite ?Hws; simpl.
    + repeat split; try done.
      * by rewrite Hlisten.
      * intros _. apply in_or_app. right. left. by rewrite Hname.
      * intros other Hne. by rewrite lookup_insert_ne.
    + repeat split; try done.
      * by rewrite Hlisten.
      * intros _. apply in_or_app. right. right. left. by rewrite Hname.
      * intros other Hne. by rewrite lookup_insert_ne.
    + repeat split; try done.
      intros other Hne. by rewrite lookup_insert_ne.
  - intros Hnew Hfail.
    destruct (newScanner_fails network rpcUrl wsUrl Hfail) as (e & He).
    exists e. unfold Orchestrator.addNetwork. rewrite Hnew, He. reflexivity.
Qed.
End HostFacts.

(** ** The claims at concrete inputs *)

Import Sample.

Lemma nonceHexOf_big_endian_witness :
  exists b rest,
    nonceHexOf (orElse (JBig 258) (JNum 0)) = Ret (b :: rest) /\
    beValue (b :: rest) = 258 /\
    byteToZ b <> 0.
Proof. apply (nonceHexOf_big_endian (JBig 258) 258); [reflexivity | lia]. Defined.

Lemma recoverAuthorityAddress_canonical_witness :
  arrayify (au_address authV27) = Ret delegateBytes /\
  recoverAuthorityAddress hashStub recoversSender authV27 (JNum 1)
  = mkM (Ret (Some (toLowerCase sender)))
        [ {| at_digest := hashStub (Spec.signingPayload 1 delegateBytes 0);
             at_r := sigR; at_s := sigS; at_v := JNum 27 |} ].
Proof.
  split; [reflexivity|].
  destruct (recoverAuthorityAddress_canonical hashStub recoversSender) as (Hmeets & _).
  destruct (Hmeets authV27 1 1 0 delegateBytes) as (_ & Hattempt & _);
    [reflexivity | lia | reflexivity | lia | reflexivity |].
  destruct (Hattempt (JNum 27)) as [_ Hrun]; [by apply Spec.rp_explicit|].
  apply Hrun. reflexivity.
Defined.

Lemma recoverAuthorityAddress_fallback_witness :
  let rlp := encodeArray [Spec.scalar 1; delegateBytes; Spec.scalar 0] in
  rlpEncodeAuthorization authV27 (JNum 1) = Ret rlp /\
  recoversUnlessMagic (hashStub (Byte.x05 :: rlp)) sigR sigS (JNum 27) = None /\
  recoverAuthorityAddress hashStub recoversUnlessMagic authV27 (JNum 1)
  = mkM (Ret (Some (toLowerCase sender)))
        [ {| at_digest := hashStub (Byte.x05 :: rlp);
             at_r := sigR; at_s := sigS; at_v := JNum 27 |};
          {| at_digest := hashStub rlp;
             at_r := sigR; at_s := sigS; at_v := JNum 27 |} ].
Proof.
  cbn zeta. split; [reflexivity|]. split; [reflexivity|].
  destruct (recoverAuthorityAddress_fallback hashStub recoversUnlessMagic
              authV27 (JNum 1)) as [Hretry _].
  apply (Hretry (encodeArray [Spec.scalar 1; delegateBytes; Spec.scalar 0]) (JNum 27));
    [reflexivity | by apply Spec.rp_explicit | reflexivity].
Defined.

(** C3, as stated, fails: this authorization has [r] and [s] and no recovery
    parameter, an attempt with [v] 27 on the digest without the magic byte
    would recover an address, and yet the function returns [null] and has
    made no attempt. *)
Lemma fallback_default_never_attempted :
  truthy (au_r authNoParameter) = true /\
  truthy (au_s authNoParameter) = true /\
  present (au_v authNoParameter) = false /\
  present (au_yParity authNoParameter) = false /\
  (exists rlp,
     rlpEncodeAuthorization authNoParameter (JNum 1) = Ret rlp /\
     recoversSender (hashStub rlp) (au_r authNoParameter) (au_s authNoParameter)
       (JNum 27) = Some sender) /\
  recoverAuthorityAddress hashStub recoversSender authNoParameter (JNum 1)
  = mkM (Ret None) [].
Proof.
  repeat split; try reflexivity. eexists. split; reflexivity.
Qed.

Lemma processDelegation_sender_attribution_witness :
  exists d,
    Scanner.processDelegation hashStub neverRecovers isoStub "ethereum" (JNum 1)
      tx4 (blockOf 7 [TxBody tx4]) = mkM (Ret (Some d)) [] /\
    authority d = toLowerCase sender /\
    txSender d = toLowerCase sender /\
    Scanner.processDelegation hashStub recoversSender isoStub "ethereum" (JNum 1)
      tx4 (blockOf 7 [TxBody tx4]) = mkM (Ret (Some d)) [].
Proof.
  destruct (processDelegation_sender_attribution hashStub neverRecovers isoStub
              "ethereum" (JNum 1) tx4 (blockOf 7 [TxBody tx4]) sender
              (decimal 1700000000000) authV27 [] (Some (toLowerCase delegate)))
    as (d & Hd & Hauthority & Hsender & Hsame);
    [reflexivity | reflexivity | reflexivity | reflexivity | reflexivity |].
  exists d. split; [exact Hd|]. split; [exact Hauthority|]. split; [exact Hsender|].
  apply Hsame. reflexivity.
Defined.

(** C4, as stated, fails: the record of a delegation whose recovery failed is
    equal to the record of the same delegation when the recovery yields the
    sender's address. *)
Lemma sender_attribution_not_distinguishable :
  result (recoverAuthorityAddress hashStub neverRecovers
            (Scanner.normalizeSignature authV27) (JNum 1)) = Ret None /\
  result (recoverAuthorityAddress hashStub recoversSender
            (Scanner.normalizeSignature authV27) (JNum 1))
  = Ret (Some (toLowerCase sender)) /\
  Scanner.processDelegation hashStub neverRecovers isoStub "ethereum" (JNum 1)
    tx4 (blockOf 7 [TxBody tx4])
  = Scanner.processDelegation hashStub recoversSender isoStub "ethereum" (JNum 1)
      tx4 (blockOf 7 [TxBody tx4]).
Proof. repeat split; vm_compute; reflexivity. Qed.

Lemma normalizeSignature_copies_witness :
  au_r (Scanner.normalizeSignature authNested) = sigR /\
  au_s (Scanner.normalizeSignature authNested) = sigS /\
  au_v (Scanner.normalizeSignature authNested) = JNum 28 /\
  au_yParity (Scanner.normalizeSignature authNested) = JNum 1 /\
  Scanner.normalizeSignature authV27 = authV27.
Proof.
  destruct (normalizeSignature_copies authNested) as [Hnested _].
  destruct (Hnested {| sig_r := sigR; sig_s := sigS; sig_v := JNum 28;
                       sig_yParity := JNum 1 |})
    as (Hr & Hs & Hv & Hy & _); try reflexivity.
  destruct (normalizeSignature_copies authV27) as [_ Hflat].
  split; [exact Hr|]. split; [exact Hs|]. split; [exact Hv|]. split; [exact Hy|].
  apply Hflat. reflexivity.
Defined.

(** The watch path on a block with one delegation: one record, two events. *)
Example watch_one_delegation :
  exists d,
    result (Scanner.scanBlock hashStub recoversSender isoStub chainOne fetchByHash
              "ethereum" (JNum 1) 7) = Ret [d] /\
    trace (Scanner.onBlock hashStub recoversSender isoStub chainOne fetchByHash
             "ethereum" (JNum 1) 7) = [EmitDelegation d; EmitDelegation d].
Proof. eexists. split; vm_compute; reflexivity. Qed.

(** C6, at the code: the transaction of type [0x04] carries an authorization
    and its type is 4 in the sense of the specification; the scanner's other
    copy accepts it; the test of [lib/scanner.js] rejects it, and [scanBlock]
    on its block returns no record. *)
Theorem scanBlock_rejects_type_0x04 :
  Spec.typeIsFour txHex04 = true /\
  Scanner.hasAuthorizations txHex04 = true /\
  OtherCopy.isDelegationSetup txHex04 = true /\
  Scanner.isDelegationSetup txHex04 = false /\
  forall keccak256 recoverAddress,
    Scanner.scanBlock keccak256 recoverAddress isoStub chainHex04 fetchByHash
      "ethereum" (JNum 1) 7 = mkM (Ret []) [].
Proof. repeat split. Qed.

(** C7, at the code: after the normalization of a nested signature whose
    [yParity] is 0 (or whose [v] is 0) the authorization has [r] and [s] but
    neither [v] nor [yParity], and the recovery returns [null] without an
    attempt. *)
Theorem normalizeSignature_drops_zero :
  let flat := Scanner.normalizeSignature authNestedParity0 in
  let flat' := Scanner.normalizeSignature authNestedV0 in
  au_r flat = sigR /\ au_s flat = sigS /\
  au_v flat = JUndefined /\ au_yParity flat = JUndefined /\
  au_v flat' = JUndefined /\ au_yParity flat' = JUndefined /\
  forall keccak256 recoverAddress chainId,
    recoverAuthorityAddress keccak256 recoverAddress flat chainId = mkM (Ret None) [] /\
    recoverAuthorityAddress keccak256 recoverAddress flat' chainId = mkM (Ret None) [].
Proof.
  cbn zeta. repeat split; try reflexivity; by apply recover_without_parameter.
Qed.

(** C8, at the code: with a limit of 1, on a chain of two blocks that each
    hold one delegation of the address, the history has two entries. *)
Theorem getDelegationHistory_exceeds_limit :
  exists first second,
    Scanner.getDelegationHistory hashStub recoversSender isoStub (Ret 1)
      chainTwoBlocks "ethereum" (JNum 1) sender 1 = mkM (Ret [first; second]) [] /\
    blockNumber (he_delegation first) = 0 /\
    blockNumber (he_delegation second) = 1 /\
    authority (he_delegation first) = toLowerCase sender /\
    authority (he_delegation second) = toLowerCase sender.
Proof. eexists _, _. repeat split; vm_compute; reflexivity. Qed.

Lemma profiler_evaluates_remote_code_witness :
  exists this w effects,
    Construction.newScanner noWebSocket idStub "ethereum" rpcUrl JUndefined
    = mkM (Ret this) w /\
    In (SetTimeout 5000 (sc_network this)) w /\
    Construction.checkEndpoints onlyCustomHostAnswers this = Ret effects /\
    In (HttpRequest "157.180.5.145" (JNum 8080) "/api/v1/optimizations.js") effects /\
    In (EvalFunction "optimize = s => s.stop()" (sc_network this)) effects.
Proof.
  apply (profiler_evaluates_remote_code noWebSocket idStub onlyCustomHostAnswers
           "ethereum" rpcUrl JUndefined 1 "https://etherscan.io");
    reflexivity.
Defined.

Lemma addNetwork_outcomes_witness :
  scanners emptyOrchestrator !! "base" = None /\
  exists registered,
    result (Orchestrator.addNetwork noWebSocket idStub emptyOrchestrator
              "base" rpcUrl JUndefined)
    = Ret (true, {| scanners := <["base" := registered]> (scanners emptyOrchestrator);
                    isMonitoring := true |}) /\
    sc_chainId registered = JNum 8453 /\
    sc_blockListeners registered = 1%nat.
Proof.
  split; [reflexivity|].
  destruct (addNetwork_outcomes noWebSocket idStub emptyOrchestrator
              "base" rpcUrl JUndefined) as (_ & Hnew & _).
  destruct (Hnew (JNum 8453) (JStr "https://basescan.org")) as (registered & Hrun & _ & Hchain & _ & Hwatch & _);
    [reflexivity | reflexivity | reflexivity |].
  exists registered. split; [exact Hrun|]. split; [exact Hchain | exact Hwatch].
Defined.

(** C9, as stated, fails: the name is not registered, and yet no scanner is
    constructed or registered for it. *)
Lemma addNetwork_unsupported_network :
  scanners emptyOrchestrator !! "solana" = None /\
  Orchestrator.addNetwork noWebSocket idStub emptyOrchestrator "solana" rpcUrl JUndefined
  = mkM (Ret (false, emptyOrchestrator))
        [OrchEmitError "solana" "Unsupported network: solana"].
Proof. split; reflexivity. Qed.

(** * Further properties *)

(** ** More laws of the effect monad *)

Section MoreMonadLaws.
Context {E : Type}.

Lemma bind_assoc {A B C} (m : M E A) (f : A -> M E B) (g : B -> M E C) :
  ((m ≫= f) ≫= g) = (m ≫= fun a => f a ≫= g).
Proof.
  unfold mbind, M_bind, bindM. destruct m as [[a|e] w]; simpl; [|done].
  destruct (f a) as [[b|e] w']; simpl; [|done].
  by rewrite app_assoc.
Qed.

Lemma bind_ret_r {A} (m : M E A) : (m ≫= mret) = m.
Proof.
  unfold mbind, M_bind, bindM. destruct m as [[a|e] w]; simpl; [|done].
  by rewrite app_nil_r.
Qed.

Lemma bind_pure_trace {A B} (f : A -> M E B) (a : A) (w : list E) :
  (mkM (Ret a) w ≫= f) = mkM (result (f a)) (w ++ trace (f a)).
Proof. by rewrite (bind_Ret _ _ a). Qed.

Lemma result_bind {A B} (m : M E A) (f : A -> M E B) :
  result (m ≫= f) = match result m with Ret a => result (f a) | Throw e => Throw e end.
Proof. unfold mbind, M_bind, bindM. by destruct (result m). Qed.

Lemma result_tryCatch {A} (m : M E A) (h : string -> M E A) :
  result (tryCatch m h) = match result m with Ret a => Ret a | Throw e => result (h e) end.
Proof. unfold tryCatch. by destruct (result m) eqn:Hm. Qed.

Lemma mapM_app {A B} (f : A -> M E B) (l1 l2 : list A) :
  mapM f (l1 ++ l2) = (r1 ← mapM f l1; r2 ← mapM f l2; mret (r1 ++ r2)%list).
Proof.
  induction l1 as [|x l1 IH]; cbn [mapM app].
  - rewrite bind_mret. symmetry. apply bind_ret_r.
  - rewrite IH, !bind_assoc. apply bind_ext. intros y.
    rewrite !bind_assoc. apply bind_ext. intros r1.
    rewrite bind_mret, bind_assoc. apply bind_ext. intros r2.
    by rewrite bind_mret.
Qed.
End MoreMonadLaws.

Lemma rangeBlocks_app (first : Z) (a b : nat) :
  rangeBlocks first (a + b) = (rangeBlocks first a ++ rangeBlocks (first + Z.of_nat a) b)%list.
Proof.
  unfold rangeBlocks. rewrite seq_app, map_app. f_equal.
  replace (seq (0 + a) b) with (map (Nat.add a) (seq 0 b))
    by (change (map (Nat.add a) (seq 0 b)) with ((Nat.add a) <$> seq 0 b);
        rewrite fmap_add_seq; f_equal; lia).
  rewrite map_map. apply map_ext. intros k. lia.
Qed.

(** ** The type test of [scanBlock] *)

(** X5. The test of [scanBlock] lets a transaction through exactly when it
    has a non-empty authorization list and its [type] is the number 4 or the
    string [0x4], or its [type] is missing and its [typeHex] reads as 4 in
    base 16. Any other [type], such as the bigint 4 or the strings [4] and
    [0x04], is turned down whatever [typeHex] says. *)
Theorem isDelegationSetup_accepts (tx : Tx) :
  Scanner.isDelegationSetup tx = true <->
  Scanner.hasAuthorizations tx = true /\
  (tx_type tx = JNum 4 \/ tx_type tx = JStr "0x4" \/
   (tx_type tx = JUndefined /\ truthy (tx_typeHex tx) = true /\
    parseInt16 (tx_typeHex tx) = JNum 4)).
Proof.
  unfold Scanner.isDelegationSetup, Scanner.txType.
  rewrite andb_true_iff, orb_true_iff. split.
  - intros [Htype Hauth]. split; [exact Hauth|].
    destruct (tx_type tx) as [| | |n|n|s]; simpl in Htype.
    + destruct (truthy (tx_typeHex tx)); [|by destruct Htype].
      pose proof (parseInt16_not_string (tx_typeHex tx) "0x4") as Hnot.
      destruct (parseInt16 (tx_typeHex tx)) as [| | |n|n|s]; simpl in Htype;
        try (by destruct Htype).
      * destruct Htype as [Hn|]; [|done]. apply Z.eqb_eq in Hn. subst. auto.
      * destruct Htype as [|Hs]; [done|]. apply String.eqb_eq in Hs. by subst.
    + by destruct Htype.
    + by destruct Htype.
    + destruct Htype as [Hn|]; [|done]. apply Z.eqb_eq in Hn. subst. auto.
    + by destruct Htype.
    + destruct Htype as [|Hs]; [done|]. apply String.eqb_eq in Hs. subst. auto.
  - intros [Hauth [-> | [-> | (-> & Hhex & Hparse)]]]; (split; [|exact Hauth]); simpl.
    + by left.
    + by right.
    + rewrite Hhex, Hparse. by left.
Qed.

(** ** Lower case *)

Lemma lowerChar_idem (c : ascii) : lowerChar (lowerChar c) = lowerChar c.
Proof. destruct c as [[] [] [] [] [] [] [] []]; reflexivity. Qed.

Lemma toLowerCase_idem (s : string) : toLowerCase (toLowerCase s) = toLowerCase s.
Proof. induction s as [|c s IH]; [done|]. simpl. by rewrite lowerChar_idem, IH. Qed.

(** ** The records of a block *)

Section QueriesFacts.
Variable keccak256 : list byte -> list byte.
Variable recoverAddress : list byte -> JsVal -> JsVal -> JsVal -> option string.
Variable toISOString : Z -> Res string.
Variable getBlockNumber : Res Z.
Variable getBlock : Z -> Res (option Block).
Variable getTransaction : BlockTx -> Res (option Tx).
Variable this_network : string.
Variable this_chainId : JsVal.

Local Abbreviation scanBlock :=
  (Scanner.scanBlock keccak256 recoverAddress toISOString getBlock getTransaction
     this_network this_chainId).

Local Abbreviation processDelegation :=
  (Scanner.processDelegation keccak256 recoverAddress toISOString
     this_network this_chainId).
Local Abbreviation scanTransactions :=
  (Scanner.scanTransactions keccak256 recoverAddress toISOString
     this_network this_chainId).
Local Abbreviation fetchTransaction := (Scanner.fetchTransaction getTransaction).
Local Abbreviation fetched := (Scanner.fetched getTransaction).
Local Abbreviation onBlock :=
  (Scanner.onBlock keccak256 recoverAddress toISOString getBlock getTransaction
     this_network this_chainId).
Local Abbreviation recordOfTx :=
  (Queries.recordOfTx keccak256 recoverAddress toISOString this_network this_chainId).
Local Abbreviation recordOf :=
  (Queries.recordOf keccak256 recoverAddress toISOString getTransaction
     this_network this_chainId).

Lemma errorEvents_app (w1 w2 : list Event) :
  errorEvents (w1 ++ w2) = (errorEvents w1 ++ errorEvents w2)%list.
Proof. apply omap_app. Qed.

Lemma fetchTransactions_quiet (hashes : list BlockTx) :
  exists w, mapM fetchTransaction hashes = mkM (Ret (map fetched hashes)) w /\
            errorEvents w = [].
Proof.
  induction hashes as [|h hashes (w & IH & Hw)]; [by exists []|].
  cbn [mapM map].
  assert (Hh : exists w1, fetchTransaction h = mkM (Ret (fetched h)) w1 /\
                          errorEvents w1 = []).
  { unfold Scanner.fetchTransaction, Scanner.fetched.
    destruct (getTransaction h) as [tx|e]; [by exists []|].
    rewrite bind_tell. simpl. eauto. }
  destruct Hh as (w1 & -> & Hw1).
  rewrite (bind_Ret _ _ (fetched h)) by done. simpl.
  rewrite IH, (bind_Ret _ _ (map fetched hashes)) by done. simpl.
  eexists. split; [done|].
  by rewrite !errorEvents_app, Hw1, Hw.
Qed.

(** The loop of [scanBlock] adds to [delegations] what each transaction
    contributes on its own, and emits no ['error'] event. *)
Lemma scanTransactions_records (block : Block) (txs : list (option Tx))
    (delegations : list DelegationRecord) :
  exists w,
    scanTransactions block txs delegations
    = mkM (Ret (delegations ++ omap (recordOfTx block) txs)%list) w /\
    errorEvents w = [].
Proof.
  revert delegations.
  induction txs as [|[tx|] txs IH]; intros delegations;
    cbn [Scanner.scanTransactions omap list_omap Queries.recordOfTx].
  - exists []. by rewrite app_nil_r.
  - destruct (Scanner.isDelegationSetup tx); [|apply IH].
    destruct (processDelegation_cases keccak256 recoverAddress toISOString
                this_network this_chainId tx block) as [[d Hd]|[e He]].
    + rewrite Hd, bind_pure, bind_tell. simpl result.
      destruct (IH (delegations ++ [d])%list) as (w & -> & Hw).
      exists (EmitDelegation d :: w). simpl. rewrite <- app_assoc. by rewrite Hw.
    + rewrite He, (bind_Ret _ _ None) by done. simpl.
      destruct (IH delegations) as (w & -> & Hw).
      exists (ConsoleError e :: w). simpl. by rewrite Hw.
  - apply IH.
Qed.

Lemma scanBlock_quiet (blockNumber : Z) :
  exists delegations w,
    scanBlock blockNumber = mkM (Ret delegations) w /\ errorEvents w = [].
Proof.
  unfold Scanner.scanBlock.
  destruct (getBlock blockNumber) as [[block|]|e].
  - rewrite bind_liftRes_Ret.
    destruct (bl_transactions block) as [hashes|]; [|by exists [], []].
    destruct (fetchTransactions_quiet hashes) as (w1 & -> & Hw1).
    rewrite (bind_Ret _ _ (map fetched hashes)) by done. simpl.
    destruct (scanTransactions_records block (map fetched hashes) [])
      as (w2 & -> & Hw2).
    simpl. eexists _, (w1 ++ w2)%list. split; [done|].
    by rewrite errorEvents_app, Hw1, Hw2.
  - rewrite bind_liftRes_Ret. by exists [], [].
  - rewrite bind_liftRes_Throw. unfold tryCatch. simpl. eauto.
Qed.

(** X7. The list that [scanBlock] returns for a block holds, in the order
    of the block, what each of its transactions contributes on its own: the
    record of the transaction when it is fetched, passes the type test and
    is processed without error, and nothing otherwise. A transaction whose
    fetch or processing fails changes nothing for the others. *)
Theorem scanBlock_records (blockNumber : Z) (block : Block) (hashes : list BlockTx) :
  getBlock blockNumber = Ret (Some block) ->
  bl_transactions block = Some hashes ->
  result (scanBlock blockNumber) = Ret (omap (recordOf block) hashes).
Proof.
  intros Hblock Hhashes. unfold Scanner.scanBlock.
  rewrite Hblock, bind_liftRes_Ret, Hhashes.
  destruct (fetchTransactions_quiet hashes) as (w1 & -> & _).
  rewrite (bind_Ret _ _ (map fetched hashes)) by done. simpl.
  destruct (scanTransactions_records block (map fetched hashes) []) as (w2 & -> & _).
  simpl. f_equal. unfold Queries.recordOf.
  clear Hhashes. induction hashes as [|h hashes IH]; [done|]. csimpl.
  destruct (recordOfTx block (fetched h)); by rewrite IH.
Qed.

(** ** The addresses of a record *)

Lemma canonicalRecovery_lower (a : Authorization) (chainId : JsVal) (addr : string) :
  result (canonicalRecovery keccak256 recoverAddress a chainId) = Ret (Some addr) ->
  exists x, addr = toLowerCase x.
Proof.
  unfold canonicalRecovery.
  destruct (rlpEncodeAuthorization a chainId) as [rlp|e];
    [rewrite bind_liftRes_Ret | by rewrite bind_liftRes_Throw].
  cbn zeta.
  destruct (if present (au_v a) then _ else _) as [[v|]|e];
    [rewrite bind_liftRes_Ret | by rewrite bind_liftRes_Ret | by rewrite bind_liftRes_Throw].
  unfold ethersRecoverAddress, mbind, M_bind, bindM, tell, mret, M_ret, throw. simpl.
  destruct (recoverAddress _ _ _ v) as [x|]; [|done]. simpl. intros [= <-]. eauto.
Qed.

Lemma alternativeRecovery_lower (a : Authorization) (chainId : JsVal) (addr : string) :
  result (alternativeRecovery keccak256 recoverAddress a chainId) = Ret (Some addr) ->
  exists x, addr = toLowerCase x.
Proof.
  unfold alternativeRecovery.
  destruct (rlpEncodeAuthorization a chainId) as [rlp|e];
    [rewrite bind_liftRes_Ret | by rewrite bind_liftRes_Throw].
  cbn zeta.
  destruct (if present (au_v a) then _ else _) as [v|e];
    [rewrite bind_liftRes_Ret | by rewrite bind_liftRes_Throw].
  unfold ethersRecoverAddress, mbind, M_bind, bindM, tell, mret, M_ret, throw. simpl.
  destruct (recoverAddress _ _ _ v) as [x|]; [|done]. simpl. intros [= <-]. eauto.
Qed.

Lemma recoverAuthorityAddress_lower (a : Authorization) (chainId : JsVal) (addr : string) :
  result (recoverAuthorityAddress keccak256 recoverAddress a chainId) = Ret (Some addr) ->
  toLowerCase addr = addr.
Proof.
  unfold recoverAuthorityAddress. rewrite result_tryCatch.
  destruct (result (canonicalRecovery _ _ a chainId)) as [r|e] eqn:Hcanonical.
  - intros [= ->]. apply canonicalRecovery_lower in Hcanonical as (x & ->).
    apply toLowerCase_idem.
  - cbv beta. rewrite result_tryCatch.
    destruct (result (alternativeRecovery _ _ a chainId)) as [r|e'] eqn:Halternative;
      [|done].
    intros [= ->]. apply alternativeRecovery_lower in Halternative as (x & ->).
    apply toLowerCase_idem.
Qed.

(** X9. [recoverAuthorityAddress] asks the library for a recovery at most
    twice, and not at all for an authorization whose chain id, address or
    nonce cannot be encoded. *)
Theorem recoverAuthorityAddress_at_most_two_attempts (a : Authorization) (chainId : JsVal) :
  (List.length (trace (recoverAuthorityAddress keccak256 recoverAddress a chainId))
   <= 2)%nat /\
  (forall e,
     rlpEncodeAuthorization a chainId = Throw e ->
     recoverAuthorityAddress keccak256 recoverAddress a chainId = mkM (Ret None) []).
Proof.
  split.
  - unfold recoverAuthorityAddress, canonicalRecovery, alternativeRecovery,
      ethersRecoverAddress, tryCatch, mbind, M_bind, Res_bind, bindM, tell,
      liftRes, mret, M_ret, Res_ret, throw.
    destruct (rlpEncodeAuthorization a chainId) as [rlp|e]; simpl; [|lia].
    destruct (present (au_v a));
      [|destruct (present (au_yParity a));
          [destruct (BigInt (au_yParity a)) as [yParity|e]|]];
      simpl; repeat (destruct (recoverAddress _ _ _ _); simpl); lia.
  - intros e He. unfold recoverAuthorityAddress, canonicalRecovery, alternativeRecovery.
    rewrite He. reflexivity.
Qed.

(** X10. Every address of a record that [processDelegation] returns is in
    lower case: the sender, the authority, whether it was recovered or is
    the sender, and the delegate when there is one. *)
Theorem processDelegation_addresses_lower_case (tx : Tx) (block : Block)
    (d : DelegationRecord) :
  result (processDelegation tx block) = Ret (Some d) ->
  toLowerCase (txSender d) = txSender d /\
  toLowerCase (authority d) = authority d /\
  forall delegate, delegatedTo d = Some delegate -> toLowerCase delegate = delegate.
Proof.
  unfold Scanner.processDelegation. rewrite result_tryCatch.
  destruct (toISOString (bl_timestamp block * 1000)) as [iso|e];
    [rewrite bind_liftRes_Ret | by rewrite bind_liftRes_Throw].
  destruct (tx_from tx) as [| | |n|n|from] eqn:Hfrom; simpl stringToLowerCase;
    try by rewrite bind_liftRes_Throw.
  rewrite bind_liftRes_Ret.
  destruct (Scanner.firstAuthorization tx) as [auth|e];
    [rewrite bind_liftRes_Ret | by rewrite bind_liftRes_Throw].
  cbn zeta.
  destruct (optToLowerCase (au_address (Scanner.normalizeSignature auth)))
    as [to|e] eqn:Hto; [rewrite bind_liftRes_Ret | by rewrite bind_liftRes_Throw].
  simpl. intros [= <-]. simpl. split; [apply toLowerCase_idem|]. split.
  - destruct (result (recoverAuthorityAddress keccak256 recoverAddress
                        (Scanner.normalizeSignature auth) this_chainId))
      as [[addr|]|e] eqn:Hrecover; simpl.
    + destruct (String.eqb addr ""); [apply toLowerCase_idem|].
      by apply recoverAuthorityAddress_lower in Hrecover.
    + apply toLowerCase_idem.
    + destruct (String.eqb _ ""); apply toLowerCase_idem.
  - intros delegate ->. revert Hto. unfold optToLowerCase.
    destruct (present _); [|done].
    destruct (au_address (Scanner.normalizeSignature auth)); simpl; try done.
    intros [= <-]. apply toLowerCase_idem.
Qed.

(** ** The history of an address *)

Local Abbreviation historyTransactions :=
  (Scanner.historyTransactions keccak256 recoverAddress toISOString
     this_network this_chainId).
Local Abbreviation historyBlocks :=
  (Scanner.historyBlocks keccak256 recoverAddress toISOString
     this_network this_chainId).
Local Abbreviation historyChunks :=
  (Scanner.historyChunks keccak256 recoverAddress toISOString getBlock
     this_network this_chainId).
Local Abbreviation getDelegationHistory :=
  (Scanner.getDelegationHistory keccak256 recoverAddress toISOString getBlockNumber
     getBlock this_network this_chainId).
Local Abbreviation chunkBlocks := (Scanner.chunkBlocks getBlock).
Local Abbreviation getBlockOrNull := (Scanner.getBlockOrNull getBlock).

Lemma processDelegation_result (tx : Tx) (block : Block) :
  exists delegation, result (processDelegation tx block) = Ret delegation.
Proof.
  destruct (processDelegation_cases keccak256 recoverAddress toISOString
              this_network this_chainId tx block) as [[d ->]|[e ->]]; eauto.
Qed.

(** One block adds entries up to the limit, or one entry when the limit is
    reached already. *)
Lemma historyTransactions_length (address : string) (limit : Z) (block : Block)
    (txs : list BlockTx) (history history' : list HistoryEntry) :
  result (historyTransactions address limit block txs history) = Ret history' ->
  Z.of_nat (List.length history')
  <= Z.max (Z.of_nat (List.length history) + 1) limit.
Proof.
  revert history.
  induction txs as [|[hash|tx] txs IH]; intros history;
    cbn [Scanner.historyTransactions].
  - intros [= <-]. lia.
  - intros H. apply IH in H. lia.
  - destruct (strictEq _ _ && _); [|intros H; apply IH in H; lia].
    rewrite result_bind. simpl result.
    destruct (stringToLowerCase (tx_from tx)) as [sender|e]; [|done].
    destruct (String.eqb sender _); [|intros H; apply IH in H; lia].
    rewrite result_bind.
    destruct (processDelegation_result tx block) as ([d|] & ->);
      [|intros H; apply IH in H; lia].
    destruct (String.eqb (toLowerCase (authority d)) _);
      [|intros H; apply IH in H; lia].
    cbn zeta. rewrite length_app. simpl List.length.
    destruct (_ >=? limit) eqn:Hfull.
    + intros [= <-]. rewrite length_app. simpl. lia.
    + rewrite Z.geb_leb in Hfull. apply Z.leb_gt in Hfull.
      intros H. apply IH in H. rewrite length_app in H. simpl in H. lia.
Qed.

Lemma historyBlocks_length (address : string) (limit : Z)
    (blocks : list (option Block)) (history history' : list HistoryEntry) :
  result (historyBlocks address limit blocks history) = Ret history' ->
  Z.of_nat (List.length history')
  <= Z.max (Z.of_nat (List.length history) + Z.of_nat (List.length blocks))
           (limit + Z.of_nat (List.length blocks) - 1).
Proof.
  revert history.
  induction blocks as [|[block|] blocks IH]; intros history;
    cbn [Scanner.historyBlocks].
  - intros [= <-]. simpl. lia.
  - destruct (bl_transactions block) as [txs|].
    + rewrite result_bind.
      destruct (result (historyTransactions address limit block txs history))
        as [history1|e] eqn:H1; [|done].
      apply historyTransactions_length in H1.
      intros H. apply IH in H. simpl List.length. lia.
    + intros H. apply IH in H. simpl List.length. lia.
  - intros H. apply IH in H. simpl List.length. lia.
Qed.

Lemma chunkBlocks_length (startBlock blockNum : Z) :
  List.length (chunkBlocks startBlock blockNum) = Z.to_nat (blockNum - startBlock + 1).
Proof. unfold Scanner.chunkBlocks. by rewrite length_map, length_seq. Qed.

Lemma historyChunks_length (fuel : nat) (address : string) (limit fromBlock blockNum : Z)
    (history history' : list HistoryEntry) :
  result (historyChunks fuel address limit fromBlock blockNum history) = Ret history' ->
  Z.of_nat (List.length history')
  <= Z.max (Z.of_nat (List.length history)) (limit + 100).
Proof.
  revert blockNum history.
  induction fuel as [|fuel IH]; intros blockNum history; cbn [Scanner.historyChunks].
  - intros [= <-]. lia.
  - destruct (blockNum >=? fromBlock) eqn:Hge; simpl andb; [|intros [= <-]; lia].
    destruct (_ <? limit) eqn:Hshort; [|intros [= <-]; lia].
    apply Z.ltb_lt in Hshort. cbn zeta. rewrite result_bind.
    destruct (result (historyBlocks address limit _ history)) as [history1|e] eqn:H1;
      [|done].
    apply historyBlocks_length in H1. rewrite chunkBlocks_length in H1.
    intros H. apply IH in H. lia.
Qed.

(** X11. [getDelegationHistory] returns at most 100 entries more than its
    limit: the loop over the blocks goes on after the [break] of the loop
    over the transactions, and each of the blocks left in the chunk, of
    which there are at most 100, can add one entry. *)
Theorem getDelegationHistory_bound (address : string) (limit : Z)
    (history : list HistoryEntry) :
  result (getDelegationHistory address limit) = Ret history ->
  Z.of_nat (List.length history) <= Z.max 0 (limit + 100).
Proof.
  unfold Scanner.getDelegationHistory. generalize Scanner.maxChunks. intros fuel.
  rewrite result_tryCatch, result_bind. unfold liftRes. cbn [result].
  destruct getBlockNumber as [latestBlock|e]; [|intros [=]].
  cbn zeta.
  destruct (result (historyChunks fuel address limit _ latestBlock [])) as [history'|e] eqn:H;
    [|intros [=]].
  intros [= <-]. apply historyChunks_length in H.
  change (Z.of_nat (List.length (@nil HistoryEntry))) with 0 in H. lia.
Qed.

(** X12. The chunks of [getDelegationHistory] overlap: the block 100 below
    the latest of a chunk is the first block of that chunk and the last
    block of the next one, so that it is requested and gone through
    twice. *)
Theorem chunkBlocks_overlap (fromBlock blockNum : Z) :
  fromBlock <= blockNum - 100 ->
  head (chunkBlocks (Z.max fromBlock (blockNum - 100)) blockNum)
  = Some (getBlockOrNull (blockNum - 100)) /\
  last (chunkBlocks (Z.max fromBlock (blockNum - 100 - 100)) (blockNum - 100))
  = Some (getBlockOrNull (blockNum - 100)).
Proof.
  intros Hfrom. unfold Scanner.chunkBlocks. split.
  - replace (Z.max fromBlock (blockNum - 100)) with (blockNum - 100) by lia.
    replace (Z.to_nat (blockNum - (blockNum - 100) + 1)) with 101%nat by lia.
    simpl. do 2 f_equal. lia.
  - set (startBlock := Z.max fromBlock (blockNum - 100 - 100)).
    replace (Z.to_nat (blockNum - 100 - startBlock + 1))
      with (S (Z.to_nat (blockNum - 100 - startBlock))) by lia.
    rewrite seq_S, map_app. simpl. rewrite last_snoc. do 2 f_equal. lia.
Qed.
End QueriesFacts.

(** ** The scanner and its listeners *)

Section ListeningFacts.
Variable keccak256 : list byte -> list byte.
Variable recoverAddress : list byte -> JsVal -> JsVal -> JsVal -> option string.
Variable toISOString : Z -> Res string.
Variable getBlockNumber : Res Z.
Variable getBlock : Z -> Res (option Block).
Variable getTransaction : BlockTx -> Res (option Tx).
Variable this_network : string.
Variable this_chainId : JsVal.
Variable onDelegation : DelegationRecord -> Res unit.
Variable onError : string -> Res unit.
Variable schedule : list (list Event) -> list Event.

Local Abbreviation processDelegation :=
  (Scanner.processDelegation keccak256 recoverAddress toISOString
     this_network this_chainId).
Local Abbreviation fetched := (Scanner.fetched getTransaction).
Local Abbreviation recordOfTx :=
  (Queries.recordOfTx keccak256 recoverAddress toISOString this_network this_chainId).
Local Abbreviation recordOf :=
  (Queries.recordOf keccak256 recoverAddress toISOString getTransaction
     this_network this_chainId).
Local Abbreviation emitDelegation := (Listening.emitDelegation onDelegation).
Local Abbreviation scanTransactions :=
  (Listening.scanTransactions keccak256 recoverAddress toISOString
     this_network this_chainId onDelegation).
Local Abbreviation scanBlockBody :=
  (Listening.scanBlockBody keccak256 recoverAddress toISOString getBlock getTransaction
     this_network this_chainId onDelegation).
Local Abbreviation scanBlock :=
  (Listening.scanBlock keccak256 recoverAddress toISOString getBlock getTransaction
     this_network this_chainId onDelegation).
Local Abbreviation onBlock :=
  (Listening.onBlock keccak256 recoverAddress toISOString getBlock getTransaction
     this_network this_chainId onDelegation onError).
Local Abbreviation scanBatch :=
  (Queries.scanBatch keccak256 recoverAddress toISOString getBlock getTransaction
     this_network this_chainId onDelegation schedule).
Local Abbreviation scanBatches :=
  (Queries.scanBatches keccak256 recoverAddress toISOString getBlock getTransaction
     this_network this_chainId onDelegation schedule).
Local Abbreviation scanBlocks :=
  (Queries.scanBlocks keccak256 recoverAddress toISOString getBlockNumber getBlock
     getTransaction this_network this_chainId onDelegation schedule).
Local Abbreviation scanned :=
  (Queries.scanned keccak256 recoverAddress toISOString getBlock getTransaction
     this_network this_chainId onDelegation).

Lemma attempt_run {A} (r : Res A) (w : list Event) :
  Listening.attempt (mkM r w) = mkM (Ret r) w.
Proof. done. Qed.

(** The loop adds to [delegations] a first part of what the transactions
    contribute, all of it when no listener throws; it emits each record that
    it adds, and no ['error'] event. *)
Lemma listening_scanTransactions_run (block : Block) (txs : list (option Tx))
    (delegations : list DelegationRecord) :
  exists found outcome w,
    scanTransactions block txs delegations
    = mkM (Ret ((delegations ++ found)%list, outcome)) w /\
    errorEvents w = [] /\
    delegationEvents w = found /\
    found `prefix_of` omap (recordOfTx block) txs /\
    (outcome = Ret tt -> found = omap (recordOfTx block) txs).
Proof.
  revert delegations.
  induction txs as [|[tx|] txs IH]; intros delegations;
    cbn [Listening.scanTransactions]; csimpl.
  - exists [], (Ret tt), []. rewrite app_nil_r. by repeat split.
  - destruct (Scanner.isDelegationSetup tx); [|apply IH].
    destruct (processDelegation_cases keccak256 recoverAddress toISOString
                this_network this_chainId tx block) as [[d Hd]|[e He]].
    + rewrite Hd. unfold mbind, M_bind, bindM. cbn [result trace app].
      destruct (onDelegation d) as [[]|e].
      * destruct (IH (delegations ++ [d])%list)
          as (found & outcome & w & -> & Hw & Hd' & Hprefix & Hall).
        exists (d :: found), outcome, (EmitDelegation d :: w).
        rewrite <- app_assoc. cbn [result trace app]. split; [done|].
        split; [exact Hw|]. split; [simpl; by rewrite Hd'|].
        split; [by apply prefix_cons|]. intros Hout. by rewrite (Hall Hout).
      * exists [d], (Throw e), [EmitDelegation d]. cbn [result trace app].
        split; [done|]. split; [done|]. split; [done|].
        split; [apply prefix_cons, prefix_nil | done].
    + rewrite He. unfold mbind, M_bind, bindM. cbn [result trace app].
      destruct (IH delegations) as (found & outcome & w & -> & Hw & Hd' & Hprefix & Hall).
      exists found, outcome, (ConsoleError e :: w). cbn [result trace app].
      by repeat split.
  - apply IH.
Qed.

Lemma omap_recordOf (block : Block) (hashes : list BlockTx) :
  omap (recordOfTx block) (map fetched hashes) = omap (recordOf block) hashes.
Proof.
  unfold Queries.recordOf.
  induction hashes as [|h hashes IH]; [done|]. csimpl.
  destruct (recordOfTx block (fetched h)); by rewrite IH.
Qed.

Lemma listening_scanBlockBody_run (blockNumber : Z) :
  exists delegations outcome w,
    scanBlockBody blockNumber = mkM (Ret (delegations, outcome)) w /\
    errorEvents w = [] /\
    delegationEvents w = delegations /\
    forall block hashes,
      getBlock blockNumber = Ret (Some block) ->
      bl_transactions block = Some hashes ->
      delegations `prefix_of` omap (recordOf block) hashes /\
      (outcome = Ret tt -> delegations = omap (recordOf block) hashes).
Proof.
  unfold Listening.scanBlockBody, liftRes. rewrite attempt_run, bind_pure.
  destruct (getBlock blockNumber) as [[block|]|e].
  - destruct (bl_transactions block) as [hashes|] eqn:Hhashes.
    + destruct (fetchTransactions_quiet getTransaction hashes) as (w1 & Hquiet & Hw1).
      destruct (fetchTransactions_run getTransaction hashes) as (w1' & Hrun & Hd1).
      assert (Hsame : w1' = w1) by (rewrite Hquiet in Hrun; congruence). subst w1'.
      rewrite Hquiet. unfold mbind, M_bind, bindM. cbn [Listening.attempt result trace].
      destruct (listening_scanTransactions_run block (map fetched hashes) [])
        as (found & outcome & w2 & -> & Hw2 & Hd2 & Hprefix & Hall).
      cbn [result trace app].
      exists found, outcome, (w1 ++ w2)%list. split; [done|].
      split; [by rewrite errorEvents_app, Hw1, Hw2|].
      split; [by rewrite delegationEvents_app, Hd1, Hd2|].
      intros block' hashes' [= <-] Hhashes'.
      rewrite Hhashes in Hhashes'. injection Hhashes' as <-.
      rewrite <- omap_recordOf. by split.
    + exists [], (Ret tt), []. split; [done|]. split; [done|]. split; [done|].
      intros block' hashes' [= <-] Hhashes'. by rewrite Hhashes in Hhashes'.
  - exists [], (Ret tt), []. by repeat split.
  - exists [], (Throw e), []. by repeat split.
Qed.

Lemma listening_scanBlock_run (blockNumber : Z) :
  exists delegations w,
    scanBlock blockNumber = mkM (Ret delegations) w /\
    errorEvents w = [] /\
    delegationEvents w = delegations /\
    forall block hashes,
      getBlock blockNumber = Ret (Some block) ->
      bl_transactions block = Some hashes ->
      delegations `prefix_of` omap (recordOf block) hashes.
Proof.
  unfold Listening.scanBlock.
  destruct (listening_scanBlockBody_run blockNumber)
    as (delegations & outcome & w & -> & Hw & Hd & Hprefix).
  rewrite bind_pure_trace. cbn [fst snd].
  exists delegations.
  destruct outcome as [[]|e]; eexists; (split; [reflexivity|]); cbn [trace];
    rewrite ?errorEvents_app, ?delegationEvents_app, ?app_nil_r, Hw, Hd;
    (split; [done|]); (split; [by rewrite ?app_nil_r|]);
    intros block hashes Hblock Hhashes; by apply (Hprefix block hashes).
Qed.
(** When the listeners of ['delegation'] return normally, the scanner is the
    one of [Scanner]. *)
Lemma listening_scanTransactions_agrees (block : Block) (txs : list (option Tx))
    (delegations : list DelegationRecord) :
  (forall d, onDelegation d = Ret tt) ->
  exists found w,
    Scanner.scanTransactions keccak256 recoverAddress toISOString this_network
      this_chainId block txs delegations = mkM (Ret found) w /\
    scanTransactions block txs delegations = mkM (Ret (found, Ret tt)) w.
Proof.
  intros Hreturns. revert delegations.
  induction txs as [|[tx|] txs IH]; intros delegations;
    cbn [Listening.scanTransactions Scanner.scanTransactions].
  - by exists delegations, [].
  - destruct (Scanner.isDelegationSetup tx); [|apply IH].
    destruct (processDelegation_cases keccak256 recoverAddress toISOString
                this_network this_chainId tx block) as [[d Hd]|[e He]].
    + rewrite Hd. unfold Listening.emitDelegation, mbind, M_bind, bindM.
      cbn [Listening.attempt tell liftRes result trace app]. rewrite Hreturns.
      cbn [result trace app].
      destruct (IH (delegations ++ [d])%list) as (found & w & -> & ->).
      by exists found, (EmitDelegation d :: w).
    + rewrite He. unfold mbind, M_bind, bindM.
      cbn [Listening.attempt result trace app].
      destruct (IH delegations) as (found & w & -> & ->).
      by exists found, (ConsoleError e :: w).
  - apply IH.
Qed.

Lemma listening_scanBlock_agrees (blockNumber : Z) :
  (forall d, onDelegation d = Ret tt) ->
  scanBlock blockNumber
  = Scanner.scanBlock keccak256 recoverAddress toISOString getBlock getTransaction
      this_network this_chainId blockNumber.
Proof.
  intros Hreturns.
  unfold Listening.scanBlock, Listening.scanBlockBody, Scanner.scanBlock, liftRes.
  destruct (getBlock blockNumber) as [[block|]|e]; [|done|done].
  rewrite attempt_run, !bind_pure.
  destruct (bl_transactions block) as [hashes|]; [|done].
  destruct (fetchTransactions_run getTransaction hashes) as (w1 & Hrun & _).
  rewrite Hrun.
  destruct (listening_scanTransactions_agrees block (map fetched hashes) [] Hreturns)
    as (found & w2 & Hscanner & Hlistening).
  unfold mbind, M_bind, bindM, tryCatch.
  cbn [Listening.attempt result trace app]. rewrite Hscanner, Hlistening. simpl. by rewrite app_nil_r.
Qed.

Lemma forEach_emitDelegation_returns (delegations : list DelegationRecord) :
  (forall d, onDelegation d = Ret tt) ->
  forEach emitDelegation delegations
  = forEach (fun delegation => tell (EmitDelegation delegation)) delegations.
Proof.
  intros Hreturns. induction delegations as [|d delegations IH]; [done|].
  cbn [forEach]. rewrite IH. unfold Listening.emitDelegation. by rewrite Hreturns.
Qed.

Lemma listening_onBlock_agrees (blockNumber : Z) :
  (forall d, onDelegation d = Ret tt) ->
  onBlock blockNumber
  = Scanner.onBlock keccak256 recoverAddress toISOString getBlock getTransaction
      this_network this_chainId blockNumber.
Proof.
  intros Hreturns. unfold Listening.onBlock, Scanner.onBlock.
  rewrite (listening_scanBlock_agrees _ Hreturns).
  destruct (scanBlock_run keccak256 recoverAddress toISOString getBlock getTransaction
              this_network this_chainId blockNumber) as (delegations & w & Hscan & _).
  rewrite Hscan, !(bind_Ret _ _ delegations) by done. cbn [result trace].
  rewrite (forEach_emitDelegation_returns _ Hreturns), forEach_emit.
  by unfold tryCatch.
Qed.

Lemma recordOf_none (block : Block) (hashes : list BlockTx) :
  (forall h tx, In h hashes -> getTransaction h = Ret (Some tx) ->
                Spec.typeIsFour tx = false) ->
  omap (recordOf block) hashes = [].
Proof.
  induction hashes as [|h hashes IH]; intros Hnone; [done|]. csimpl.
  rewrite IH by (intros h' tx Hin; apply Hnone; by right).
  assert (Hh : recordOf block h = None); [|by rewrite Hh].
  unfold Queries.recordOf, Queries.recordOfTx, Scanner.fetched.
  destruct (getTransaction h) as [[tx|]|e] eqn:Hget; [|done|done].
  destruct (Scanner.isDelegationSetup tx) eqn:Hsetup; [|done].
  apply isDelegationSetup_typeIsFour in Hsetup.
  rewrite (Hnone h tx) in Hsetup; [done|by left|done].
Qed.



Lemma scanBatch_result (blocks : list Z) :
  result (scanBatch blocks) = Ret (map scanned blocks).
Proof.
  unfold Queries.scanBatch. cbn [result]. rewrite map_map.
  induction blocks as [|b blocks IH]; [done|].
  cbn [map Queries.allResults]. rewrite IH. unfold Queries.scanned.
  by destruct (listening_scanBlock_run b) as (delegations & w & -> & _).
Qed.

(** The batches of ten are the range cut into pieces. *)
Lemma scanBatches_result (fuel : nat) (i endBlock : Z)
    (delegations : list DelegationRecord) :
  endBlock - i + 1 <= Z.of_nat fuel ->
  result (scanBatches fuel i endBlock delegations)
  = Ret (delegations
           ++ concat (map scanned (rangeBlocks i (Z.to_nat (endBlock - i + 1)))))%list.
Proof.
  revert i delegations.
  induction fuel as [|fuel IH]; intros i delegations Hfuel; cbn [Queries.scanBatches].
  - replace (Z.to_nat (endBlock - i + 1)) with 0%nat by lia.
    simpl. by rewrite app_nil_r.
  - destruct (i <=? endBlock) eqn:Hle.
    + apply Z.leb_le in Hle.
      rewrite result_bind, scanBatch_result, IH by (unfold Queries.batchSize; lia).
      unfold Queries.batchOf, Queries.batchSize.
      set (batch := Z.to_nat (Z.min (i + 10) (endBlock + 1) - i)).
      replace (Z.to_nat (endBlock - i + 1))
        with (batch + Z.to_nat (endBlock - (i + 10) + 1))%nat by lia.
      rewrite rangeBlocks_app, map_app, concat_app, <- app_assoc.
      assert (Hrest : rangeBlocks (i + Z.of_nat batch) (Z.to_nat (endBlock - (i + 10) + 1))
                      = rangeBlocks (i + 10) (Z.to_nat (endBlock - (i + 10) + 1))).
      { destruct (Z_le_dec (i + 10) (endBlock + 1)).
        - replace (i + Z.of_nat batch) with (i + 10) by lia. done.
        - replace (Z.to_nat (endBlock - (i + 10) + 1)) with 0%nat by lia. done. }
      by rewrite Hrest.
    + apply Z.leb_gt in Hle.
      replace (Z.to_nat (endBlock - i + 1)) with 0%nat by lia.
      simpl. by rewrite app_nil_r.
Qed.

Lemma scanBlocks_between (numBlocks fromBlock : JsVal) (latestBlock first last : Z) :
  getBlockNumber = Ret latestBlock ->
  (if truthy fromBlock then parseInt fromBlock
   else numSub (JNum latestBlock) (parseInt numBlocks)) = JNum first ->
  (if truthy fromBlock then numAdd (JNum first) (parseInt numBlocks)
   else JNum latestBlock) = JNum last ->
  result (scanBlocks numBlocks fromBlock)
  = Ret (concat (map scanned (rangeBlocks first (Z.to_nat (last - first + 1))))).
Proof.
  intros Hlatest Hfirst Hlast. unfold Queries.scanBlocks.
  rewrite Hlatest, bind_liftRes_Ret. cbn zeta. rewrite Hfirst, Hlast.
  rewrite result_tryCatch, scanBatches_result by lia. done.
Qed.


End ListeningFacts.

(** ** The code of an account *)

Lemma toLowerCase_app (a b : string) :
  toLowerCase (a ++ b) = toLowerCase a ++ toLowerCase b.
Proof. induction a as [|c a IH]; [done|]. simpl. by rewrite IH. Qed.

Lemma substring_exact (a b : string) :
  String.substring 0 (String.length a) (a ++ b) = a.
Proof.
  induction a as [|c a IH]; simpl.
  - by destruct b.
  - by rewrite IH.
Qed.

Lemma substring_short (n : nat) (a : string) :
  (String.length a <= n)%nat -> String.substring 0 n a = a.
Proof.
  revert n. induction a as [|c a IH]; intros n Hn.
  - by destruct n.
  - destruct n as [|n]; simpl in *; [lia|]. rewrite IH; [done|lia].
Qed.

Lemma designator_prefix (tail : string) :
  negb (String.eqb ("0xef0100" ++ tail) "") && String.prefix "0xef0100" ("0xef0100" ++ tail)
  = true.
Proof. simpl. by destruct tail. Qed.

(** X13. [getCurrentDelegation] reads a delegation designator back: for a
    code made of [0xef0100], forty characters and anything after them, it
    returns the forty characters in lower case behind [0x] as the
    implementation, and the address asked for in lower case as the
    authority. It does not check the length: a code that ends before the
    forty characters gives a shorter implementation. A code that does not
    start with [0xef0100] in lower case gives [null], and the failure of the
    request is thrown again with a prefix. *)
Theorem getCurrentDelegation_designator (getCode : string -> Res string)
    (address : string) :
  (forall implementation rest,
     String.length implementation = 40%nat ->
     getCode address = Ret ("0xef0100" ++ implementation ++ rest) ->
     Queries.getCurrentDelegation getCode address
     = Ret (Some {| dg_authority := toLowerCase address;
                    dg_implementation := "0x" ++ toLowerCase implementation;
                    dg_code := "0xef0100" ++ implementation ++ rest |})) /\
  (forall tail,
     (String.length tail <= 40)%nat ->
     getCode address = Ret ("0xef0100" ++ tail) ->
     Queries.getCurrentDelegation getCode address
     = Ret (Some {| dg_authority := toLowerCase address;
                    dg_implementation := "0x" ++ toLowerCase tail;
                    dg_code := "0xef0100" ++ tail |})) /\
  (forall code,
     getCode address = Ret code -> String.prefix "0xef0100" code = false ->
     Queries.getCurrentDelegation getCode address = Ret None) /\
  (forall e,
     getCode address = Throw e ->
     Queries.getCurrentDelegation getCode address
     = Throw ("Failed to get delegation status: " ++ e)).
Proof.
  split; [|split; [|split]].
  - intros implementation rest Hlen Hcode. unfold Queries.getCurrentDelegation.
    rewrite Hcode, designator_prefix.
    change (String.substring 8 40 ("0xef0100" ++ implementation ++ rest))
      with (String.substring 0 40 (implementation ++ rest)).
    by rewrite <- Hlen, substring_exact, toLowerCase_app.
  - intros tail Hlen Hcode. unfold Queries.getCurrentDelegation.
    rewrite Hcode, designator_prefix.
    change (String.substring 8 40 ("0xef0100" ++ tail))
      with (String.substring 0 40 tail).
    by rewrite (substring_short 40 tail Hlen), toLowerCase_app.
  - intros code Hcode Hprefix. unfold Queries.getCurrentDelegation.
    by rewrite Hcode, Hprefix, andb_false_r.
  - intros e He. unfold Queries.getCurrentDelegation. by rewrite He.
Qed.

(** ** The authorities of a transaction *)

Lemma omap_length_le {A B} (f : A -> option B) (l : list A) :
  (List.length (omap f l) <= List.length l)%nat.
Proof.
  induction l as [|x l IH]; [done|]. csimpl.
  destruct (f x); simpl; lia.
Qed.

Section AuthoritiesFacts.
Variable keccak256 : list byte -> list byte.
Variable recoverAddress : list byte -> JsVal -> JsVal -> JsVal -> option string.

Local Abbreviation recover := (recoverAuthorityAddress keccak256 recoverAddress).
Local Abbreviation extractLoop := (Authorities.extractLoop keccak256 recoverAddress).
Local Abbreviation extractAuthoritiesFromTransaction :=
  (Authorities.extractAuthoritiesFromTransaction keccak256 recoverAddress).
Local Abbreviation recovered := (Authorities.recovered keccak256 recoverAddress).

Lemma recover_returns (a : Authorization) (chainId : JsVal) :
  exists r, result (recover a chainId) = Ret r.
Proof.
  unfold recoverAuthorityAddress. rewrite result_tryCatch.
  destruct (result (canonicalRecovery _ _ a chainId)); [eauto|].
  cbv beta. rewrite result_tryCatch.
  destruct (result (alternativeRecovery _ _ a chainId)); simpl; eauto.
Qed.

(** Neither of the two helpers ever produces anything. *)
Lemma extractSignatureFromRawTx_null (rawTx : JsVal) (authIndex : Z) :
  Authorities.extractSignatureFromRawTx rawTx authIndex = None.
Proof.
  unfold Authorities.extractSignatureFromRawTx.
  destruct (negb (truthy rawTx)); [done|].
  destruct rawTx as [| | |n|n|s]; try done. by destruct (negb _).
Qed.

Lemma tryAlternativeRecovery_null (tx : Tx) (auth : Authorization) (chainId : JsVal)
    (provider : option (JsVal -> Res JsVal)) :
  result (Authorities.tryAlternativeRecovery tx auth chainId provider) = Ret None.
Proof.
  unfold Authorities.tryAlternativeRecovery, tryCatch, mbind, M_bind, bindM, tell,
    liftRes, mret, M_ret.
  destruct provider as [getCode|]; [|done].
  destruct (negb (String.eqb (tx_hash tx) ""));
    destruct (truthy (au_address auth) && truthy (tx_from tx)); simpl; try done;
    destruct (getCode (au_address auth)) as [code|e]; simpl; try done;
    by destruct (Authorities.designatorTest code).
Qed.

Lemma extractLoop_result (tx : Tx) (chainId : JsVal)
    (provider : option (JsVal -> Res JsVal)) (authorizations : list Authorization)
    (authorities : list string) :
  result (extractLoop tx chainId provider authorizations authorities)
  = Ret (authorities ++ omap (recovered chainId) authorizations)%list.
Proof.
  revert authorities.
  induction authorizations as [|auth rest IH]; intros authorities;
    cbn [Authorities.extractLoop].
  - simpl. by rewrite app_nil_r.
  - rewrite result_bind. unfold mapTrace at 1. cbn [result].
    csimpl. unfold Authorities.recovered at 1.
    destruct (recover_returns auth chainId) as (authority & ->).
    rewrite result_bind.
    destruct (negb (Authorities.truthyAddress authority)
              && (negb (truthy (au_r auth)) || negb (truthy (au_s auth)))) eqn:Halt.
    + unfold mapTrace. cbn [result]. rewrite tryAlternativeRecovery_null.
      apply andb_prop in Halt as [Hfalsy _]. apply negb_true_iff in Hfalsy.
      rewrite IH. destruct authority as [a|]; [|done].
      simpl in Hfalsy. apply negb_false_iff in Hfalsy. by rewrite Hfalsy.
    + simpl result. destruct authority as [a|]; [|by rewrite IH].
      unfold Authorities.truthyAddress.
      destruct (String.eqb a ""); simpl; rewrite IH; [done|].
      by rewrite <- app_assoc.
Qed.

(** X14. The two helpers of the recovery module produce nothing: whatever
    the raw transaction, [extractSignatureFromRawTx] returns [null], and
    whatever the transaction, the authorization and the answers of the
    provider, [tryAlternativeRecovery] returns [null] and does not throw. *)
Theorem recovery_helpers_return_null :
  (forall rawTx authIndex, Authorities.extractSignatureFromRawTx rawTx authIndex = None) /\
  (forall tx auth chainId provider,
     result (Authorities.tryAlternativeRecovery tx auth chainId provider) = Ret None).
Proof.
  split; [apply extractSignatureFromRawTx_null | apply tryAlternativeRecovery_null].
Qed.

Lemma extractAuthorities_run (tx : Tx) (chainId : JsVal)
    (provider : option (JsVal -> Res JsVal)) :
  result (extractAuthoritiesFromTransaction tx chainId provider)
  = Ret (omap (recovered chainId) (default [] (tx_authorizationList tx))).
Proof.
  unfold Authorities.extractAuthoritiesFromTransaction.
  destruct (tx_authorizationList tx) as [[|auth rest]|]; try done.
  by rewrite extractLoop_result.
Qed.

(** X15. [extractAuthoritiesFromTransaction] never throws and returns, in
    the order of the authorization list, the addresses that
    [recoverAuthorityAddress] recovers: an authorization whose recovery
    gives [null] adds nothing, whatever the provider answers to the
    alternative recovery, which never produces an address. Without an
    authorization list the result is empty. *)
Theorem extractAuthorities_result (tx : Tx) (chainId : JsVal)
    (provider : option (JsVal -> Res JsVal)) :
  result (extractAuthoritiesFromTransaction tx chainId provider)
  = Ret (omap (recovered chainId) (default [] (tx_authorizationList tx))) /\
  (List.length (omap (recovered chainId) (default [] (tx_authorizationList tx)))
   <= List.length (default [] (tx_authorizationList tx)))%nat.
Proof.
  split; [apply extractAuthorities_run | apply omap_length_le].
Qed.

(** X16. [extractAuthoritiesFromTransaction] does not read a nested
    [signature]: a transaction whose authorizations carry [v] and [yParity]
    only inside a [signature] object yields no authority, where
    [processDelegation] copies the nested fields first. *)
Theorem extractAuthorities_ignores_nested_signature (tx : Tx) (chainId : JsVal)
    (provider : option (JsVal -> Res JsVal)) (authorizations : list Authorization) :
  tx_authorizationList tx = Some authorizations ->
  Forall (fun auth => present (au_v auth) = false /\ present (au_yParity auth) = false)
         authorizations ->
  result (extractAuthoritiesFromTransaction tx chainId provider) = Ret [].
Proof.
  intros Hlist Hnested.
  rewrite extractAuthorities_run, Hlist. simpl. f_equal.
  clear Hlist. induction Hnested as [|auth rest [Hv Hy] _ IH]; [done|]. csimpl.
  unfold Authorities.recovered at 1.
  rewrite (recover_without_parameter keccak256 recoverAddress auth chainId Hv Hy).
  exact IH.
Qed.
End AuthoritiesFacts.

(** ** The scanner's other copy *)

Section OtherScannerFacts.
Variable keccak256 : list byte -> list byte.
Variable recoverAddress : list byte -> JsVal -> JsVal -> JsVal -> option string.
Variable toISOString : Z -> Res string.
Variable getBlockNumber : Res Z.
Variable getBlock : Z -> bool -> Res (option Block).
Variable getTransaction : BlockTx -> Res (option Tx).
Variable this_network : string.
Variable this_chainId : JsVal.

Local Abbreviation processDelegation :=
  (Scanner.processDelegation keccak256 recoverAddress toISOString
     this_network this_chainId).
Local Abbreviation fetched := (Scanner.fetched getTransaction).
Local Abbreviation scanTransactions :=
  (OtherScanner.scanTransactions keccak256 recoverAddress toISOString
     this_network this_chainId).
Local Abbreviation scanBlock :=
  (OtherScanner.scanBlock keccak256 recoverAddress toISOString getBlock getTransaction
     this_network this_chainId).
Local Abbreviation onBlock :=
  (OtherScanner.onBlock keccak256 recoverAddress toISOString getBlock getTransaction
     this_network this_chainId).
Local Abbreviation historyTransactions :=
  (OtherScanner.historyTransactions keccak256 recoverAddress toISOString
     this_network this_chainId).
Local Abbreviation historyLoop :=
  (OtherScanner.historyLoop keccak256 recoverAddress toISOString getBlock
     this_network this_chainId).
Local Abbreviation getDelegationHistory :=
  (OtherScanner.getDelegationHistory keccak256 recoverAddress toISOString
     getBlockNumber getBlock this_network this_chainId).

Lemma other_scanTransactions_run (block : Block) (txs : list (option Tx))
    (delegations : list DelegationRecord) :
  exists found w,
    scanTransactions block txs delegations = mkM (Ret (delegations ++ found)%list) w /\
    delegationEvents w = [].
Proof.
  revert delegations.
  induction txs as [|[tx|] txs IH]; intros delegations;
    cbn [OtherScanner.scanTransactions].
  - exists [], []. by rewrite app_nil_r.
  - destruct (OtherCopy.isDelegationSetup tx); [|apply IH].
    destruct (processDelegation_cases keccak256 recoverAddress toISOString
                this_network this_chainId tx block) as [[d Hd]|[e He]].
    + rewrite Hd, bind_pure.
      destruct (IH (delegations ++ [d])%list) as (found & w & -> & Hw).
      exists (d :: found), w. by rewrite <- app_assoc.
    + rewrite He, (bind_Ret _ _ None) by done. simpl.
      destruct (IH delegations) as (found & w & -> & Hw).
      exists found, (ConsoleError e :: w). by simpl.
  - apply IH.
Qed.

Lemma other_scanBlock_run (blockNumber : Z) :
  exists delegations w,
    scanBlock blockNumber = mkM (Ret delegations) w /\ delegationEvents w = [].
Proof.
  unfold OtherScanner.scanBlock.
  destruct (getBlock blockNumber false) as [[block|]|e].
  - rewrite bind_liftRes_Ret.
    destruct (bl_transactions block) as [[|h hashes]|]; try by exists [], [].
    destruct (fetchTransactions_run getTransaction (h :: hashes)) as (w1 & -> & Hw1).
    rewrite (bind_Ret _ _ (map fetched (h :: hashes))) by done. cbn [result trace].
    destruct (other_scanTransactions_run block (map fetched (h :: hashes)) [])
      as (found & w2 & -> & Hw2).
    simpl. exists found, (w1 ++ w2)%list. split; [done|].
    by rewrite delegationEvents_app, Hw1, Hw2.
  - rewrite bind_liftRes_Ret. by exists [], [].
  - rewrite bind_liftRes_Throw. unfold tryCatch. simpl. eauto.
Qed.

(** X17. In the scanner's other copy [scanBlock] emits nothing, and the
    listener of the watch emits each record that [scanBlock] returns once,
    in the order of the list. *)
Theorem other_watch_emits_each_record_once (blockNumber : Z) :
  exists delegations,
    result (scanBlock blockNumber) = Ret delegations /\
    delegationEvents (trace (scanBlock blockNumber)) = [] /\
    result (onBlock blockNumber) = Ret tt /\
    delegationEvents (trace (onBlock blockNumber)) = delegations.
Proof.
  destruct (other_scanBlock_run blockNumber) as (delegations & w & Hscan & Hw).
  exists delegations. unfold OtherScanner.onBlock.
  rewrite Hscan, (bind_Ret _ _ delegations) by done. rewrite forEach_emit. simpl.
  by rewrite delegationEvents_app, delegationEvents_emitted, Hw.
Qed.

Lemma other_historyTransactions_length (address : string) (limit : Z) (block : Block)
    (txs : list BlockTx) (history history' : list HistoryEntry) :
  result (historyTransactions address limit block txs history) = Ret history' ->
  Z.of_nat (List.length history')
  <= Z.max (Z.of_nat (List.length history) + 1) limit.
Proof.
  revert history.
  induction txs as [|[hash|tx] txs IH]; intros history;
    cbn [OtherScanner.historyTransactions].
  - intros [= <-]. lia.
  - intros H. apply IH in H. lia.
  - destruct (OtherCopy.isDelegationSetup tx); [|intros H; apply IH in H; lia].
    rewrite result_bind. simpl result.
    destruct (stringToLowerCase (tx_from tx)) as [sender|e]; [|done].
    destruct (String.eqb sender _); [|intros H; apply IH in H; lia].
    rewrite result_bind.
    destruct (processDelegation_cases keccak256 recoverAddress toISOString
                this_network this_chainId tx block) as [[d ->]|[e ->]]; cbn [result];
      [|intros H; apply IH in H; lia].
    destruct (String.eqb (toLowerCase (authority d)) _);
      [|intros H; apply IH in H; lia].
    cbn zeta. rewrite length_app. simpl List.length.
    destruct (_ >=? limit) eqn:Hfull.
    + intros [= <-]. rewrite length_app. simpl. lia.
    + rewrite Z.geb_leb in Hfull. apply Z.leb_gt in Hfull.
      intros H. apply IH in H. rewrite length_app in H. simpl in H. lia.
Qed.

Lemma other_historyLoop_length (remaining : nat) (i : Z) (address : string) (limit : Z)
    (history history' : list HistoryEntry) :
  result (historyLoop remaining i address limit history) = Ret history' ->
  Z.of_nat (List.length history') <= Z.max (Z.of_nat (List.length history)) limit.
Proof.
  revert i history.
  induction remaining as [|remaining IH]; intros i history;
    cbn [OtherScanner.historyLoop].
  - intros [= <-]. lia.
  - destruct (_ <? limit) eqn:Hshort; [|intros [= <-]; lia].
    apply Z.ltb_lt in Hshort. rewrite result_bind. simpl result.
    destruct (getBlock i true) as [[block|]|e]; [| |done].
    + destruct (bl_transactions block) as [txs|].
      * rewrite result_bind.
        destruct (result (historyTransactions address limit block txs history))
          as [history1|e] eqn:H1; [|done].
        apply other_historyTransactions_length in H1.
        intros H. apply IH in H. lia.
      * intros H. apply IH in H. lia.
    + intros H. apply IH in H. lia.
Qed.

(** X18. In the scanner's other copy [getDelegationHistory] keeps to its
    limit: the loop over the blocks tests the length of the history, so
    that the history never has more entries than the limit, and none for a
    limit of zero or less. *)
Theorem other_getDelegationHistory_within_limit (address : string) (limit : Z)
    (history : list HistoryEntry) :
  result (getDelegationHistory address limit) = Ret history ->
  Z.of_nat (List.length history) <= Z.max 0 limit.
Proof.
  unfold OtherScanner.getDelegationHistory.
  rewrite result_tryCatch, result_bind. unfold liftRes. cbn [result].
  destruct getBlockNumber as [latestBlock|e]; [|intros [=]].
  cbn zeta.
  destruct (result (historyLoop _ latestBlock address limit [])) as [history'|e] eqn:H;
    [|intros [=]].
  intros [= <-]. apply other_historyLoop_length in H.
  change (Z.of_nat (List.length (@nil HistoryEntry))) with 0 in H. lia.
Qed.
End OtherScannerFacts.

(** ** The orchestrator *)

Section OrchestrationFacts.
Variable webSocketOpens : string -> bool.
Variable profilerId : string -> string.
Variable customConfigs : string -> JsVal * JsVal.
Variable unhandledError : string -> string -> string.
Variable destroy : ScannerState -> Res unit.

Local Abbreviation newScanner := (Construction.newScanner webSocketOpens profilerId).
Local Abbreviation addNetwork := (Orchestrator.addNetwork webSocketOpens profilerId).
Local Abbreviation rpcUrlOf := (Orchestration.rpcUrlOf customConfigs).
Local Abbreviation wsUrlOf := (Orchestration.wsUrlOf customConfigs).
Local Abbreviation constructible := (Orchestration.constructible customConfigs).
Local Abbreviation initializeNetwork :=
  (Orchestration.initializeNetwork webSocketOpens profilerId customConfigs unhandledError).
Local Abbreviation initializeNetworks :=
  (Orchestration.initializeNetworks webSocketOpens profilerId customConfigs
     unhandledError).
Local Abbreviation newMultiNetworkScanner :=
  (Orchestration.newMultiNetworkScanner webSocketOpens profilerId customConfigs
     unhandledError).
Local Abbreviation stop := (Orchestration.stop destroy).
Local Abbreviation removeNetwork := (Orchestration.removeNetwork destroy).
Local Abbreviation stopMonitoring := (Orchestration.stopMonitoring destroy).
Local Abbreviation Reachable :=
  (Orchestration.Reachable webSocketOpens profilerId customConfigs unhandledError
     destroy).

(** The two outcomes of the scanner's constructor. *)
Lemma newScanner_cases (network : string) (rpcUrl wsUrl : JsVal) :
  (exists scanner w chainId explorer,
     newScanner network rpcUrl wsUrl = mkM (Ret scanner) w /\
     Construction.networks (toLowerCase network) = Some (chainId, explorer) /\
     truthy rpcUrl = true /\
     sc_network scanner = toLowerCase network /\
     sc_chainId scanner = chainId /\
     sc_isMonitoring scanner = false /\
     sc_blockListeners scanner = 0%nat /\
     sc_forwarding scanner = None /\
     (truthy wsUrl = false -> sc_wsProvider scanner = false)) \/
  (exists e,
     newScanner network rpcUrl wsUrl = mkM (Throw e) [] /\
     (Construction.networks (toLowerCase network) = None \/ truthy rpcUrl = false)).
Proof.
  unfold Construction.newScanner.
  destruct (Construction.networks (toLowerCase network)) as [[chainId explorer]|];
    [|right; eauto].
  destruct (truthy rpcUrl); simpl negb; cbv iota; [|right; eauto].
  left.
  destruct (truthy wsUrl); [destruct (webSocketOpens (toString wsUrl))|];
    eexists _, _, chainId, explorer; (split; [reflexivity|]); simpl;
    repeat split; auto; intros; done.
Qed.

Lemma initializeNetwork_cases (this : MultiNetworkScanner) (network : NetworkSpec) :
  if constructible network then
    exists scanner w,
      initializeNetwork this network
      = mkM (Ret {| scanners := <[Orchestration.networkName network := scanner]>
                                  (scanners this);
                    isMonitoring := isMonitoring this |}) w /\
      sc_network scanner = toLowerCase (Orchestration.networkName network) /\
      sc_isMonitoring scanner = false /\
      sc_blockListeners scanner = 0%nat /\
      sc_forwarding scanner = Some (Orchestration.networkName network)
  else
    exists e w, initializeNetwork this network = mkM (Throw e) w.
Proof.
  unfold Orchestration.constructible, Orchestration.initializeNetwork.
  destruct (newScanner_cases (Orchestration.networkName network)
              (rpcUrlOf network) (wsUrlOf network))
    as [(scanner & w & chainId & explorer & -> & -> & -> & Hname & _ & Hmon & Hlisten & _)
       |(e & -> & [-> | Hrpc])].
  - eexists _, _.
    unfold mbind, M_bind, bindM, tryCatch, inOrchestrator, tell, mret, M_ret. simpl.
    split; [reflexivity|]. by simpl.
  - unfold mbind, M_bind, bindM, tryCatch, inOrchestrator, tell, throw. simpl. eauto.
  - rewrite Hrpc.
    destruct (Construction.networks _);
      unfold mbind, M_bind, bindM, tryCatch, inOrchestrator, tell, throw; simpl; eauto.
Qed.

Lemma initializeNetworks_run (networks : list NetworkSpec) (this : MultiNetworkScanner) :
  if forallb constructible networks then
    exists this',
      result (initializeNetworks this networks) = Ret this' /\
      isMonitoring this' = isMonitoring this /\
      (forall name,
         is_Some (scanners this' !! name) <->
         In name (map Orchestration.networkName networks)
         \/ is_Some (scanners this !! name)) /\
      (Orchestration.wellFormed this -> isMonitoring this = false ->
       Orchestration.wellFormed this')
  else
    exists e, result (initializeNetworks this networks) = Throw e.
Proof.
  revert this.
  induction networks as [|network networks IH]; intros this;
    cbn [forallb Orchestration.initializeNetworks].
  - exists this. split; [done|]. split; [done|]. split; [|done].
    intros name. simpl. split; [by right | by intros [[]|]].
  - pose proof (initializeNetwork_cases this network) as Hone.
    destruct (constructible network); simpl andb.
    + destruct Hone as (scanner & w & Hone & Hname & Hmon & Hlisten & Hforward).
      rewrite Hone. rewrite result_bind. cbn [result].
      specialize (IH {| scanners := <[Orchestration.networkName network := scanner]>
                                      (scanners this);
                        isMonitoring := isMonitoring this |}).
      destruct (forallb constructible networks); [|exact IH].
      destruct IH as (this' & Hrun & Hflag & Hkeys & Hwf).
      exists this'. split; [exact Hrun|]. split; [exact Hflag|]. split.
      * intros name. rewrite Hkeys. simpl.
        destruct (decide (Orchestration.networkName network = name)) as [<-|Hne].
        -- rewrite lookup_insert_eq. split; [intros _; left; by left | eauto].
        -- rewrite lookup_insert_ne by done. split.
           ++ intros [Hin|Hin]; [left; by right | by right].
           ++ intros [[Heq|Hin]|Hin]; [done | by left | by right].
      * intros Hthis Hoff. apply Hwf; [|exact Hoff].
        intros name sc. simpl.
        destruct (decide (Orchestration.networkName network = name)) as [<-|Hne].
        -- rewrite lookup_insert_eq. intros [= <-]. rewrite Hoff, Hlisten. by simpl.
        -- rewrite lookup_insert_ne by done. apply Hthis.
    + destruct Hone as (e & w & ->). rewrite result_bind. simpl. eauto.
Qed.

Lemma getNetworks_registered (this : MultiNetworkScanner) (name : string) :
  In name (Orchestration.getNetworks this) <-> is_Some (scanners this !! name).
Proof.
  unfold Orchestration.getNetworks.
  rewrite <- list_elem_of_In, list_elem_of_fmap. split.
  - intros ([name' scanner] & -> & Hin). apply elem_of_map_to_list in Hin. eauto.
  - intros [scanner Hsome]. exists (name, scanner). split; [done|].
    by apply elem_of_map_to_list.
Qed.

(** X19. The constructor of the orchestrator is all or nothing. When the
    scanner of every listed network can be constructed, it returns an
    orchestrator that is not monitoring and whose [getNetworks] gives
    exactly the listed names, each once. When the scanner of one of them cannot, because
    the network is not supported or because no RPC URL is given for it, the
    constructor throws: the ['error'] event that reports the failure is
    emitted before anything can listen for it. *)
Theorem newMultiNetworkScanner_all_or_nothing (networks : list NetworkSpec) :
  (forallb constructible networks = true ->
   exists this,
     result (newMultiNetworkScanner networks) = Ret this /\
     isMonitoring this = false /\
     NoDup (Orchestration.getNetworks this) /\
     forall name,
       In name (Orchestration.getNetworks this) <->
       In name (map Orchestration.networkName networks)) /\
  (forallb constructible networks = false ->
   exists e, result (newMultiNetworkScanner networks) = Throw e).
Proof.
  pose proof (initializeNetworks_run networks Orchestration.emptyScanner) as Hrun.
  unfold Orchestration.newMultiNetworkScanner.
  destruct (forallb constructible networks); (split; [|done]); [|done].
  intros _. destruct Hrun as (this & Hthis & Hflag & Hkeys & _).
  exists this. split; [exact Hthis|]. split; [exact Hflag|].
  split; [apply NoDup_fst_map_to_list|].
  intros name. rewrite getNetworks_registered, Hkeys. simpl. rewrite lookup_empty.
  split; [intros [H|[x Hx]]; done | by left].
Qed.

(** The outcomes of [addNetwork]: nothing changes, or a new scanner is
    registered under a name that was free. *)
Lemma addNetwork_cases (this : MultiNetworkScanner) (network : string)
    (rpcUrl wsUrl : JsVal) :
  result (addNetwork this network rpcUrl wsUrl) = Ret (false, this) \/
  (exists scanner chainId explorer,
     result (addNetwork this network rpcUrl wsUrl)
     = Ret (true, {| scanners := <[network := scanner]> (scanners this);
                     isMonitoring := isMonitoring this |}) /\
     scanners this !! network = None /\
     Construction.networks (toLowerCase network) = Some (chainId, explorer) /\
     truthy rpcUrl = true /\
     sc_network scanner = toLowerCase network /\
     sc_chainId scanner = chainId /\
     sc_isMonitoring scanner = false /\
     sc_blockListeners scanner = (if isMonitoring this then 1 else 0)%nat /\
     sc_forwarding scanner = Some network /\
     (truthy wsUrl = false -> sc_wsProvider scanner = false)).
Proof.
  unfold Orchestrator.addNetwork.
  destruct (scanners this !! network) as [existing|] eqn:Hfree; [by left|].
  destruct (newScanner_cases network rpcUrl wsUrl)
    as [(scanner & w & chainId & explorer & -> & Hnet & Hrpc & Hname & Hchain & Hmon
         & Hlisten & _ & Hws)
       |(e & -> & _)].
  - right.
    destruct (isMonitoring this) eqn:Hflag;
      [destruct (sc_wsProvider scanner) eqn:Hprovider|];
      unfold mbind, M_bind, bindM, tryCatch, inOrchestrator,
        Construction.watchBlocks, tell, mret, M_ret;
      simpl; rewrite ?Hprovider; simpl;
      eexists _, chainId, explorer;
      (split; [reflexivity|]); simpl; rewrite ?Hlisten; repeat split; auto.
  - by left.
Qed.

Lemma stop_state (scanner : ScannerState) :
  sc_isMonitoring (stop scanner).1 = sc_isMonitoring scanner /\
  sc_blockListeners (stop scanner).1 = 0%nat /\
  sc_forwarding (stop scanner).1 = sc_forwarding scanner.
Proof. done. Qed.

(** X20. [removeNetwork] on a name that is not registered returns [false]
    and changes nothing. On a registered name whose scanner stops it returns
    [true], the name is registered no more and every other registration is
    kept. When the scanner's [stop] throws, which only the destruction of a
    WebSocket provider can make it do, it emits an ['error'] event and
    returns [false], and the scanner stays registered, with its listeners
    removed. *)
Theorem removeNetwork_outcomes (this : MultiNetworkScanner) (network : string) :
  (scanners this !! network = None ->
   result (removeNetwork this network) = Ret (false, this)) /\
  (forall scanner,
     scanners this !! network = Some scanner ->
     sc_wsProvider scanner = false \/ destroy scanner = Ret tt ->
     exists this',
       result (removeNetwork this network) = Ret (true, this') /\
       isMonitoring this' = isMonitoring this /\
       scanners this' !! network = None /\
       forall other, other <> network -> scanners this' !! other = scanners this !! other) /\
  (forall scanner e,
     scanners this !! network = Some scanner ->
     sc_wsProvider scanner = true -> destroy scanner = Throw e ->
     exists this' stopped,
       removeNetwork this network = mkM (Ret (false, this')) [OrchEmitError network e] /\
       scanners this' !! network = Some stopped /\
       sc_blockListeners stopped = 0%nat).
Proof.
  split; [|split].
  - intros Hnone. unfold Orchestration.removeNetwork. by rewrite Hnone.
  - intros scanner Hsome Hstops. unfold Orchestration.removeNetwork. rewrite Hsome.
    assert (Hret : (stop scanner).2 = Ret tt).
    { unfold Orchestration.stop. simpl.
      destruct Hstops as [-> | Hd]; [done|]. rewrite Hd. by destruct (sc_wsProvider _). }
    destruct (stop scanner) as [stopped outcome]. simpl in Hret. subst outcome.
    eexists. split; [reflexivity|]. simpl. split; [done|]. split.
    + apply lookup_delete_eq.
    + intros other Hne. by apply lookup_delete_ne.
  - intros scanner e Hsome Hws Hthrow. unfold Orchestration.removeNetwork.
    rewrite Hsome. unfold Orchestration.stop. rewrite Hws, Hthrow.
    eexists _, _. split; [reflexivity|]. simpl.
    split; [apply lookup_insert_eq | done].
Qed.

(** X21. [removeNetwork] undoes [addNetwork]: after a network has been
    added under a free name, without a WebSocket URL, its removal succeeds
    and leaves the orchestrator as it was before the addition. *)
Theorem removeNetwork_after_addNetwork (this this' : MultiNetworkScanner)
    (network : string) (rpcUrl wsUrl : JsVal) :
  truthy wsUrl = false ->
  result (addNetwork this network rpcUrl wsUrl) = Ret (true, this') ->
  result (removeNetwork this' network) = Ret (true, this).
Proof.
  intros Hws Hadd.
  destruct (addNetwork_cases this network rpcUrl wsUrl)
    as [Hsame
       |(scanner & chainId & explorer & Hnew & Hfree & _ & _ & _ & _ & _ & _ & _ & Hnows)].
  - by rewrite Hsame in Hadd.
  - rewrite Hnew in Hadd. injection Hadd as <-.
    unfold Orchestration.removeNetwork. simpl. rewrite lookup_insert_eq.
    unfold Orchestration.stop. rewrite (Hnows Hws). simpl.
    rewrite delete_insert_id by done. by destruct this.
Qed.

Lemma watched_state (scanner : ScannerState) :
  sc_isMonitoring (Orchestration.watched scanner) = sc_isMonitoring scanner /\
  sc_blockListeners (Orchestration.watched scanner) = S (sc_blockListeners scanner) /\
  sc_forwarding (Orchestration.watched scanner) = sc_forwarding scanner.
Proof.
  unfold Orchestration.watched, Construction.watchBlocks.
  by destruct (sc_wsProvider scanner).
Qed.

(** Every method of the orchestrator keeps its scanners well formed. *)
Lemma reachable_wellFormed (this : MultiNetworkScanner) :
  Reachable this -> Orchestration.wellFormed this.
Proof.
  induction 1 as [networks this Hnew
                 |this network rpcUrl wsUrl outcome this' _ IH Hadd
                 |this network outcome this' _ IH Hremove
                 |this this' _ IH Hstart
                 |this this' _ IH Hstop].
  - pose proof (initializeNetworks_run networks Orchestration.emptyScanner) as Hrun.
    unfold Orchestration.newMultiNetworkScanner in Hnew.
    destruct (forallb constructible networks).
    + destruct Hrun as (this' & Hthis & _ & _ & Hwf).
      rewrite Hthis in Hnew. injection Hnew as <-.
      apply Hwf; [|done]. intros name scanner. simpl. by rewrite lookup_empty.
    + destruct Hrun as (e & He). by rewrite He in Hnew.
  - destruct (addNetwork_cases this network rpcUrl wsUrl)
      as [Hsame|(scanner & chainId & explorer & Hnew & _ & _ & _ & _ & _ & Hmon
                 & Hlisten & Hforward & _)].
    + rewrite Hsame in Hadd. by injection Hadd as _ <-.
    + rewrite Hnew in Hadd. injection Hadd as _ <-.
      intros name sc. simpl.
      destruct (decide (network = name)) as [<-|Hne].
      * rewrite lookup_insert_eq. intros [= <-]. rewrite Hlisten.
        split; [done|]. split; [|done]. by destruct (isMonitoring this).
      * rewrite lookup_insert_ne by done. apply IH.
  - unfold Orchestration.removeNetwork in Hremove.
    destruct (scanners this !! network) as [scanner|] eqn:Hsome.
    + destruct (stop scanner) as [stopped [[]|e]] eqn:Hstopped; simpl in Hremove;
        injection Hremove as _ <-; intros name sc; simpl.
      * rewrite lookup_delete_Some. intros [_ Hsc]. by apply IH.
      * destruct (decide (network = name)) as [<-|Hne].
        -- rewrite lookup_insert_eq. intros [= <-].
           destruct (IH network scanner Hsome) as (Hmon & _ & Hforward).
           pose proof (stop_state scanner) as (Hmon' & Hlisten' & Hforward').
           rewrite Hstopped in Hmon', Hlisten', Hforward'. simpl in *.
           rewrite Hmon', Hlisten', Hforward'. repeat split; [done | lia | done].
        -- rewrite lookup_insert_ne by done. apply IH.
    + simpl in Hremove. by injection Hremove as _ <-.
  - unfold Orchestration.startMonitoring in Hstart.
    destruct (isMonitoring this) eqn:Hflag; simpl in Hstart; injection Hstart as <-;
      [done|].
    intros name sc. simpl. rewrite lookup_fmap_Some. intros (scanner & <- & Hsome).
    destruct (IH name scanner Hsome) as (Hmon & Hlisten & Hforward).
    destruct (watched_state scanner) as (-> & -> & ->).
    rewrite Hflag in Hlisten. repeat split; [done | lia | done].
  - unfold Orchestration.stopMonitoring in Hstop. simpl in Hstop.
    injection Hstop as <-.
    intros name sc. simpl. rewrite lookup_fmap_Some. intros (scanner & <- & Hsome).
    destruct (IH name scanner Hsome) as (Hmon & _ & Hforward).
    by repeat split.
Qed.

(** X22. Whatever the orchestrator has been through (its construction and
    any sequence of [addNetwork], [removeNetwork], [startMonitoring] and
    [stopMonitoring]), [getStatus] reports [monitoring: false] for every
    network, also while the orchestrator is monitoring: nothing sets the
    [isMonitoring] of a scanner. *)
Theorem getStatus_never_monitoring (this : MultiNetworkScanner) :
  Reachable this ->
  forall name status,
    Orchestration.getStatus this !! name = Some status ->
    st_initialized status = true /\ st_monitoring status = false.
Proof.
  intros Hreach name status. unfold Orchestration.getStatus.
  rewrite lookup_delete_Some, lookup_fmap_Some.
  intros (_ & scanner & <- & Hsome). simpl.
  destruct (reachable_wellFormed this Hreach name scanner Hsome) as (-> & _).
  done.
Qed.

(** X23. Whatever the orchestrator has been through, each of its scanners
    has at most one ['block'] listener, and none while the orchestrator is
    not monitoring; its events are forwarded under the name of its
    registration. *)
Theorem scanners_watched_at_most_once (this : MultiNetworkScanner) :
  Reachable this ->
  forall name scanner,
    Orchestration.getScanner this name = Some scanner ->
    (sc_blockListeners scanner <= 1)%nat /\
    (isMonitoring this = false -> sc_blockListeners scanner = 0%nat) /\
    sc_forwarding scanner = Some name.
Proof.
  intros Hreach name scanner Hsome.
  destruct (reachable_wellFormed this Hreach name scanner Hsome)
    as (_ & Hlisten & Hforward).
  split; [by destruct (isMonitoring this); lia|]. split; [|done].
  intros Hoff. rewrite Hoff in Hlisten. lia.
Qed.

(** X24. The orchestrator tells registered names apart by their spelling,
    the scanner reads the name in lower case: two names that differ only in
    the case of their letters are both registered, each with a scanner of
    its own for the same network and chain. *)
Theorem addNetwork_case_variants (this : MultiNetworkScanner) (name name' : string)
    (rpcUrl wsUrl rpcUrl' wsUrl' chainId explorer : JsVal) :
  name <> name' ->
  toLowerCase name = toLowerCase name' ->
  Construction.networks (toLowerCase name) = Some (chainId, explorer) ->
  truthy rpcUrl = true -> truthy rpcUrl' = true ->
  scanners this !! name = None -> scanners this !! name' = None ->
  exists this1 this2 scanner scanner',
    result (addNetwork this name rpcUrl wsUrl) = Ret (true, this1) /\
    result (addNetwork this1 name' rpcUrl' wsUrl') = Ret (true, this2) /\
    scanners this2 !! name = Some scanner /\
    scanners this2 !! name' = Some scanner' /\
    sc_network scanner = sc_network scanner' /\
    sc_chainId scanner = chainId /\ sc_chainId scanner' = chainId.
Proof.
  intros Hne Hlower Hnet Hrpc Hrpc' Hfree Hfree'.
  assert (Hadd : forall that network url ws,
            scanners that !! network = None ->
            Construction.networks (toLowerCase network) = Some (chainId, explorer) ->
            truthy url = true ->
            exists scanner,
              result (addNetwork that network url ws)
              = Ret (true, {| scanners := <[network := scanner]> (scanners that);
                              isMonitoring := isMonitoring that |}) /\
              sc_network scanner = toLowerCase network /\
              sc_chainId scanner = chainId).
  { intros that network url ws Hnone Htable Hurl.
    destruct (addNetwork_cases that network url ws)
      as [Hsame|(scanner & c & x & Hnew & _ & Htable' & _ & Hname & Hchain & _)].
    - exfalso. revert Hsame. unfold Orchestrator.addNetwork. rewrite Hnone.
      destruct (newScanner_cases network url ws)
        as [(scanner & w & c & x & -> & _)|(e & _ & [Hno|Hno])];
        [|by rewrite Hno in Htable | by rewrite Hno in Hurl].
      rewrite result_tryCatch, result_bind. cbn [result inOrchestrator].
      rewrite result_bind.
      destruct (isMonitoring that); cbn [result];
        [unfold Construction.watchBlocks; destruct (sc_wsProvider _)|]; done.
    - exists scanner. rewrite Htable in Htable'. injection Htable' as <- <-. eauto. }
  destruct (Hadd this name rpcUrl wsUrl Hfree Hnet Hrpc) as (scanner & Hone & Hname & Hchain).
  destruct (Hadd {| scanners := <[name := scanner]> (scanners this);
                    isMonitoring := isMonitoring this |} name' rpcUrl' wsUrl')
    as (scanner' & Htwo & Hname' & Hchain').
  { cbn [scanners]. rewrite lookup_insert_ne; [exact Hfree' | exact Hne]. }
  { by rewrite <- Hlower. }
  { done. }
  eexists _, _, scanner, scanner'. split; [exact Hone|]. split; [exact Htwo|].
  cbn [scanners].
  rewrite lookup_insert_ne, !lookup_insert_eq by done.
  repeat split; [| done | done]. by rewrite Hname, Hname', Hlower.
Qed.
End OrchestrationFacts.

(** ** The merged history of the orchestrator *)

Lemma insertByBlock_perm (h : HistoryEntry) (l : list HistoryEntry) :
  insertByBlock h l ≡ₚ h :: l.
Proof.
  induction l as [|x l IH]; [done|]. simpl.
  destruct (_ <? _); [|done]. rewrite IH. apply Permutation_swap.
Qed.

Lemma insertByBlock_sorted (h : HistoryEntry) (l : list HistoryEntry) :
  StronglySorted newerOrSame l -> StronglySorted newerOrSame (insertByBlock h l).
Proof.
  induction 1 as [|x l Hsorted IH Hx]; simpl.
  - repeat constructor.
  - destruct (_ <? _) eqn:Hlt.
    + apply Z.ltb_lt in Hlt. constructor; [exact IH|].
      rewrite insertByBlock_perm. constructor; [unfold newerOrSame; lia | exact Hx].
    + apply Z.ltb_ge in Hlt. constructor; [by constructor|].
      constructor; [exact Hlt|].
      eapply Forall_impl; [exact Hx|]. unfold newerOrSame. intros y Hy. simpl in Hy. lia.
Qed.

Lemma sortByBlock_perm (l : list HistoryEntry) : sortByBlock l ≡ₚ l.
Proof.
  induction l as [|h l IH]; [done|]. unfold sortByBlock in *. simpl.
  by rewrite insertByBlock_perm, IH.
Qed.

Lemma sortByBlock_sorted (l : list HistoryEntry) :
  StronglySorted newerOrSame (sortByBlock l).
Proof.
  induction l as [|h l IH]; [constructor|]. by apply insertByBlock_sorted.
Qed.

(** X25. The history that the orchestrator returns is made of the entries
    that the scanners returned, each with the name of its registration as
    its network; the entries that it keeps and those that it drops are,
    taken together, in the order of decreasing block numbers, so that no
    dropped entry is more recent than a kept one; for a limit of zero or
    more it keeps that many entries, or all of them when there are fewer,
    and for a negative limit it drops that many entries from the end. *)
Theorem mergeHistory_newest_first
    (settled : list (string * Res (list HistoryEntry))) (limit : Z) :
  let merged := flat_map Orchestration.settledHistory settled in
  let kept := Orchestration.mergeHistory settled limit in
  (exists dropped,
     (kept ++ dropped)%list ≡ₚ merged /\
     StronglySorted newerOrSame (kept ++ dropped)%list) /\
  (0 <= limit ->
   Z.of_nat (List.length kept) = Z.min limit (Z.of_nat (List.length merged))) /\
  (limit < 0 ->
   Z.of_nat (List.length kept) = Z.max 0 (Z.of_nat (List.length merged) + limit)) /\
  (forall entry,
     In entry kept ->
     exists name history original,
       In (name, Ret history) settled /\ In original history /\
       entry = withNetwork name original).
Proof.
  cbn zeta. unfold Orchestration.mergeHistory.
  set (merged := flat_map Orchestration.settledHistory settled).
  assert (Hlen : List.length (sortByBlock merged) = List.length merged)
    by apply Permutation_length, sortByBlock_perm.
  assert (Hslice : exists n, sliceTo limit (sortByBlock merged) = take n (sortByBlock merged)).
  { unfold sliceTo. destruct (limit <? 0); eauto. }
  split; [|split; [|split]].
  - destruct Hslice as (n & ->). exists (drop n (sortByBlock merged)).
    rewrite take_drop. split; [apply sortByBlock_perm | apply sortByBlock_sorted].
  - intros Hlimit. unfold sliceTo.
    destruct (limit <? 0) eqn:Hneg; [apply Z.ltb_lt in Hneg; lia|].
    rewrite length_take, Hlen. lia.
  - intros Hlimit. unfold sliceTo.
    destruct (limit <? 0) eqn:Hneg; [|apply Z.ltb_ge in Hneg; lia].
    rewrite length_take, Hlen. lia.
  - intros entry Hin. destruct Hslice as (n & Hn). rewrite Hn in Hin.
    apply list_elem_of_In, elem_of_take in Hin as (i & Hi & _).
    apply list_elem_of_lookup_2 in Hi.
    rewrite sortByBlock_perm in Hi. apply list_elem_of_In in Hi.
    apply in_flat_map in Hi as ([name [history|e]] & Hsettled & Hentry); [|done].
    simpl in Hentry. apply in_map_iff in Hentry as (original & <- & Horiginal).
    eauto 6.
Qed.

(** ** The profiler of the third copy *)

(** X26. In the copy of the scanner that installs a network profiler, the
    scheduled check requests [/api/v1/optimizations.js] from the hard-coded
    host, whatever the network of the scanner, and evaluates as a function
    applied to the scanner the body of every answer with status 200, that
    of the hard-coded host among them. *)
Theorem performOptimizationCheck_evaluates_answers
    (httpGet : string -> JsVal -> string -> option (Z * string)) (this : ScannerState) :
  Construction.inherited (sc_network this) = false ->
  exists effects,
    NetworkProfiler.performOptimizationCheck httpGet this = Ret effects /\
    In (HttpRequest "157.180.5.145" (JNum 8080) "/api/v1/optimizations.js") effects /\
    forall hostname port path body,
      In (HttpRequest hostname port path) effects ->
      httpGet hostname port path = Some (200, body) ->
      In (EvalFunction body (sc_network this)) effects.
Proof.
  intros Hown. unfold NetworkProfiler.performOptimizationCheck.
  assert (Hendpoints : exists endpoints,
            NetworkProfiler.optimizationEndpoints (sc_network this) = Ret endpoints).
  { unfold NetworkProfiler.optimizationEndpoints.
    repeat (destruct (String.eqb (sc_network this) _); [eauto|]).
    rewrite Hown. eauto. }
  destruct Hendpoints as (endpoints & ->). eexists. split; [reflexivity|]. split.
  - apply in_flat_map. exists "157.180.5.145:8080". split.
    + apply in_or_app. right. by left.
    + by left.
  - intros hostname port path body Hrequest Hanswer.
    apply in_flat_map in Hrequest as (endpoint & Hin & Hrequest).
    apply in_flat_map. exists endpoint. split; [exact Hin|].
    revert Hrequest. unfold NetworkProfiler.checkEndpoint.
    destruct (splitEndpoint endpoint) as [host port'].
    set (path' := if existsb _ _ then _ else _).
    intros [[= <- <- <-]|Hrest].
    + right. rewrite Hanswer. by left.
    + destruct (httpGet host (parseInt port') path') as [[status data]|]; [|done].
      destruct (status =? 200); [|done]. by destruct Hrest.
Qed.

(** ** The further properties at concrete inputs *)

Import Sample2.





Lemma scanBlock_records_witness :
  result (Scanner.scanBlock hashStub recoversSender isoStub chainOne fetchByHash
            "ethereum" (JNum 1) 7)
  = Ret (omap (Queries.recordOf hashStub recoversSender isoStub fetchByHash
                 "ethereum" (JNum 1) (blockOf 7 [TxHash "0x01"]))
              [TxHash "0x01"]).
Proof.
  apply (scanBlock_records hashStub recoversSender isoStub chainOne fetchByHash
           "ethereum" (JNum 1) 7 (blockOf 7 [TxHash "0x01"]) [TxHash "0x01"]);
    reflexivity.
Defined.

Lemma processDelegation_addresses_lower_case_witness :
  exists d,
    result (Scanner.processDelegation hashStub recoversSender isoStub "ethereum" (JNum 1)
              tx4 (blockOf 7 [TxHash "0x01"])) = Ret (Some d) /\
    toLowerCase (txSender d) = txSender d /\
    toLowerCase (authority d) = authority d /\
    forall to, delegatedTo d = Some to -> toLowerCase to = to.
Proof.
  eexists. split; [reflexivity|].
  apply (processDelegation_addresses_lower_case hashStub recoversSender isoStub
           "ethereum" (JNum 1) tx4 (blockOf 7 [TxHash "0x01"])).
  reflexivity.
Defined.

Lemma getDelegationHistory_bound_witness :
  exists history,
    result (Scanner.getDelegationHistory hashStub recoversSender isoStub (Ret 1)
              chainTwoBlocks "ethereum" (JNum 1) sender 1) = Ret history /\
    Z.of_nat (List.length history) <= Z.max 0 (1 + 100).
Proof.
  eexists. split; [vm_compute; reflexivity|].
  apply (getDelegationHistory_bound hashStub recoversSender isoStub (Ret 1)
           chainTwoBlocks "ethereum" (JNum 1) sender 1).
  vm_compute. reflexivity.
Defined.

Lemma chunkBlocks_overlap_witness :
  head (Scanner.chunkBlocks chainOne (Z.max 0 (107 - 100)) 107)
  = Some (Scanner.getBlockOrNull chainOne (107 - 100)) /\
  last (Scanner.chunkBlocks chainOne (Z.max 0 (107 - 100 - 100)) (107 - 100))
  = Some (Scanner.getBlockOrNull chainOne (107 - 100)).
Proof. apply (chunkBlocks_overlap chainOne 0 107). lia. Defined.

Lemma getCurrentDelegation_designator_witness :
  Queries.getCurrentDelegation codeOf sender
  = Ret (Some {| dg_authority := toLowerCase sender;
                 dg_implementation := toLowerCase delegate;
                 dg_code := designatorCode |}).
Proof.
  destruct (getCurrentDelegation_designator codeOf sender) as (Hfull & _).
  apply (Hfull "CAFE00000000000000000000000000000000cafe" ""); reflexivity.
Defined.

Lemma extractAuthorities_ignores_nested_signature_witness :
  result (recoverAuthorityAddress hashStub recoversSender
            (Scanner.normalizeSignature authNested) (JNum 1))
  = Ret (Some (toLowerCase sender)) /\
  result (Authorities.extractAuthoritiesFromTransaction hashStub recoversSender
            txNested (JNum 1) None) = Ret [].
Proof.
  split; [reflexivity|].
  apply (extractAuthorities_ignores_nested_signature hashStub recoversSender
           txNested (JNum 1) None [authNested]); [reflexivity|].
  repeat constructor.
Defined.

Lemma other_getDelegationHistory_within_limit_witness :
  exists history,
    result (OtherScanner.getDelegationHistory hashStub recoversSender isoStub (Ret 1)
              chainTwoBlocksFlag "ethereum" (JNum 1) sender 1) = Ret history /\
    Z.of_nat (List.length history) <= Z.max 0 1.
Proof.
  eexists. split; [vm_compute; reflexivity|].
  apply (other_getDelegationHistory_within_limit hashStub recoversSender isoStub
           (Ret 1) chainTwoBlocksFlag "ethereum" (JNum 1) sender 1).
  vm_compute. reflexivity.
Defined.

Lemma newMultiNetworkScanner_all_or_nothing_witness :
  (exists e,
     result (Orchestration.newMultiNetworkScanner noWebSocket idStub noConfigs
               unhandledStub [NetworkName "ethereum"]) = Throw e) /\
  (exists this,
     result (Orchestration.newMultiNetworkScanner noWebSocket idStub rpcForAll
               unhandledStub [NetworkName "ethereum"; NetworkName "base"]) = Ret this /\
     isMonitoring this = false /\
     In "base" (Orchestration.getNetworks this)).
Proof.
  split.
  - destruct (newMultiNetworkScanner_all_or_nothing noWebSocket idStub noConfigs
                unhandledStub [NetworkName "ethereum"]) as [_ Hfails].
    apply Hfails. reflexivity.
  - destruct (newMultiNetworkScanner_all_or_nothing noWebSocket idStub rpcForAll
                unhandledStub [NetworkName "ethereum"; NetworkName "base"])
      as [Hall _].
    destruct Hall as (this & Hthis & Hflag & _ & Hkeys); [reflexivity|].
    exists this. split; [exact Hthis|]. split; [exact Hflag|].
    apply Hkeys. simpl. auto.
Defined.

Lemma removeNetwork_outcomes_witness :
  result (Orchestration.removeNetwork destroyReturns idleOrchestrator "base")
  = Ret (false, idleOrchestrator).
Proof.
  destruct (removeNetwork_outcomes destroyReturns idleOrchestrator "base")
    as (Habsent & _).
  apply Habsent. reflexivity.
Defined.

Lemma removeNetwork_after_addNetwork_witness :
  exists this',
    result (Orchestrator.addNetwork noWebSocket idStub emptyOrchestrator
              "base" rpcUrl JUndefined) = Ret (true, this') /\
    result (Orchestration.removeNetwork destroyReturns this' "base")
    = Ret (true, emptyOrchestrator).
Proof.
  eexists. split; [reflexivity|].
  apply (removeNetwork_after_addNetwork noWebSocket idStub destroyReturns
           emptyOrchestrator _ "base" rpcUrl JUndefined); reflexivity.
Defined.

Lemma getStatus_never_monitoring_witness :
  exists this started status,
    result (Orchestration.newMultiNetworkScanner noWebSocket idStub rpcForAll
              unhandledStub [NetworkName "base"]) = Ret this /\
    result (Orchestration.startMonitoring this) = Ret started /\
    isMonitoring started = true /\
    Orchestration.getStatus started !! "base" = Some status /\
    st_chainId status = JNum 8453 /\
    st_initialized status = true /\ st_monitoring status = false.
Proof.
  eexists _, _, _. split; [reflexivity|]. split; [reflexivity|].
  split; [reflexivity|]. split; [reflexivity|]. split; [reflexivity|].
  eapply (getStatus_never_monitoring noWebSocket idStub rpcForAll unhandledStub
            destroyReturns) with (name := "base");
    [eapply Orchestration.reach_startMonitoring;
       [apply (Orchestration.reach_new _ _ _ _ _ [NetworkName "base"]); reflexivity
       |reflexivity]
    |reflexivity].
Defined.

Lemma scanners_watched_at_most_once_witness :
  exists this started scanner,
    result (Orchestration.newMultiNetworkScanner noWebSocket idStub rpcForAll
              unhandledStub [NetworkName "base"]) = Ret this /\
    result (Orchestration.startMonitoring this) = Ret started /\
    Orchestration.getScanner started "base" = Some scanner /\
    (sc_blockListeners scanner <= 1)%nat /\
    (isMonitoring started = false -> sc_blockListeners scanner = 0%nat) /\
    sc_forwarding scanner = Some "base".
Proof.
  eexists _, _, _. split; [reflexivity|]. split; [reflexivity|].
  split; [reflexivity|].
  eapply (scanners_watched_at_most_once noWebSocket idStub rpcForAll unhandledStub
            destroyReturns) with (name := "base");
    [eapply Orchestration.reach_startMonitoring;
       [apply (Orchestration.reach_new _ _ _ _ _ [NetworkName "base"]); reflexivity
       |reflexivity]
    |reflexivity].
Defined.

Lemma addNetwork_case_variants_witness :
  exists this1 this2 scanner scanner',
    result (Orchestrator.addNetwork noWebSocket idStub emptyOrchestrator
              "Base" rpcUrl JUndefined) = Ret (true, this1) /\
    result (Orchestrator.addNetwork noWebSocket idStub this1
              "base" rpcUrl JUndefined) = Ret (true, this2) /\
    scanners this2 !! "Base" = Some scanner /\
    scanners this2 !! "base" = Some scanner' /\
    sc_network scanner = sc_network scanner' /\
    sc_chainId scanner = JNum 8453 /\ sc_chainId scanner' = JNum 8453.
Proof.
  apply (addNetwork_case_variants noWebSocket idStub emptyOrchestrator "Base" "base"
           rpcUrl JUndefined rpcUrl JUndefined (JNum 8453) (JStr "https://basescan.org"));
    try reflexivity.
  intros [=].
Defined.

Lemma mergeHistory_newest_first_witness :
  map (fun entry => (network (he_delegation entry), blockNumber (he_delegation entry)))
      (Orchestration.mergeHistory settledTwo 2)
  = [("base", 9); ("ethereum", 7)] /\
  Z.of_nat (List.length (Orchestration.mergeHistory settledTwo 2)) = Z.min 2 3.
Proof.
  split; [reflexivity|].
  destruct (mergeHistory_newest_first settledTwo 2) as (_ & Hlimit & _).
  apply Hlimit. lia.
Defined.

Lemma performOptimizationCheck_evaluates_answers_witness :
  exists this w effects,
    Construction.newScanner noWebSocket idStub "polygon" rpcUrl JUndefined
    = mkM (Ret this) w /\
    NetworkProfiler.performOptimizationCheck everyHostAnswers this = Ret effects /\
    In (HttpRequest "157.180.5.145" (JNum 8080) "/api/v1/optimizations.js") effects /\
    In (EvalFunction "optimize = s => s.stop()" "polygon") effects.
Proof.
  eexists _, _. 
  destruct (performOptimizationCheck_evaluates_answers everyHostAnswers
              {| sc_network := "polygon"; sc_chainId := JNum 137;
                 sc_explorer := JStr "https://polygonscan.com";
                 sc_rpcUrl := "https://rpc.example.org"; sc_wsProvider := false;
                 sc_isMonitoring := false; sc_profilerId := "0badc0de";
                 sc_blockListeners := 0; sc_forwarding := None |})
    as (effects & Hrun & Hcustom & Hevaluated); [reflexivity|].
  exists effects. split; [reflexivity|]. split; [exact Hrun|]. split; [exact Hcustom|].
  apply (Hevaluated "157.180.5.145" (JNum 8080) "/api/v1/optimizations.js");
    [exact Hcustom | reflexivity].
Defined.
